(** * Synchronator (sync.py): a shallow embedding and its verified properties

    The development follows [src/sync.py]:
    - Python strings and the [posixpath] functions the script calls;
    - the local file tree the script works in ([os.*] calls);
    - the Dropbox client object [dbx], an external collaborator, taken as a
      parameter of the development;
    - the class [DropboxState] and the module-level passes [check_remote]
      and [check_local], written in a small state-and-exception monad;
    - the theorems. *)

From Stdlib Require Import ZArith NArith Ascii String.
From stdpp Require Import base tactics option list gmap strings pretty.

Local Open Scope Z_scope.

(** ** Python strings *)

Module Str.

Definition TAB : string := String (ascii_of_nat 9) "".
Definition NL : string := String (ascii_of_nat 10) "".
Definition SLASH : ascii := ascii_of_nat 47.

(** [s.startswith(p)] *)
Definition startswith (s p : string) : bool := String.prefix p s.

(** [s.endswith(suf)] *)
Fixpoint endswith (s suf : string) : bool :=
  if String.eqb s suf then true
  else match s with
       | EmptyString => false
       | String _ s' => endswith s' suf
       end.

(** [s[1:]] *)
Definition drop1 (s : string) : string :=
  match s with EmptyString => EmptyString | String _ s' => s' end.

(** [s[2:]] *)
Definition drop2 (s : string) : string := drop1 (drop1 s).

(** [s.split(sep)] for a one-character separator; [cur] holds the
    characters of the current field, last one first. *)
Fixpoint split_go (sep : ascii) (cur s : string) : list string :=
  match s with
  | EmptyString => [String.rev cur]
  | String c s' =>
      if Ascii.eqb c sep then String.rev cur :: split_go sep EmptyString s'
      else split_go sep (String c cur) s'
  end.
Definition split (sep : ascii) (s : string) : list string :=
  split_go sep EmptyString s.

(** On a reversed string: the characters before the first separator, and
    the rest (which starts with the separator when there is one). *)
Fixpoint span_sep (sep : ascii) (s : string) : string * string :=
  match s with
  | EmptyString => (EmptyString, EmptyString)
  | String c s' =>
      if Ascii.eqb c sep then (EmptyString, s)
      else let '(a, b) := span_sep sep s' in (String c a, b)
  end.

(** On a reversed string: drop the leading separators ([rstrip]). *)
Fixpoint lstrip_sep (sep : ascii) (s : string) : string :=
  match s with
  | EmptyString => EmptyString
  | String c s' => if Ascii.eqb c sep then lstrip_sep sep s' else s
  end.

End Str.

(** ** [posixpath] *)

Module Path.

(** [os.path.join(a, b)] *)
Definition join (a b : string) : string :=
  if Str.startswith b "/" then b
  else if String.eqb a "" || Str.endswith a "/" then a +:+ b
  else a +:+ "/" +:+ b.

(** [os.path.split(p)]: the head keeps no trailing slash unless it is
    made of slashes only. *)
Definition split (p : string) : string * string :=
  let '(tail_r, head_r) := Str.span_sep Str.SLASH (String.rev p) in
  let stripped := Str.lstrip_sep Str.SLASH head_r in
  let head_r' := if String.eqb stripped "" then head_r else stripped in
  (String.rev head_r', String.rev tail_r).

(** [os.path.dirname(p)] *)
Definition dirname (p : string) : string := fst (split p).

(** [os.path.basename(p)] *)
Definition basename (p : string) : string := snd (split p).

End Path.

(** ** The local file tree

    The script runs in the synchronised root (after [os.chdir]); every path
    it handles is relative to it.  The tree is a finite map from relative
    paths (no leading [./]) to nodes; the root itself is the path [.].
    File contents are kept as their length: no decision of the script
    depends on the bytes.  Modification times are the numbers returned by
    [os.path.getmtime], only ever compared. *)

Inductive Node :=
| File (size : N) (mtime : Z)
| Dir.

Module FS.

Definition key (p : string) : string :=
  if Str.startswith p "./" then Str.drop2 p else p.

Definition lookup (fs : gmap string Node) (p : string) : option Node :=
  if String.eqb p "." then Some Dir else fs !! key p.

(** [os.path.exists], [os.path.isfile], [os.path.isdir] *)
Definition exists_ (fs : gmap string Node) (p : string) : bool :=
  match lookup fs p with Some _ => true | None => false end.
Definition isfile (fs : gmap string Node) (p : string) : bool :=
  match lookup fs p with Some (File _ _) => true | _ => false end.
Definition isdir (fs : gmap string Node) (p : string) : bool :=
  match lookup fs p with Some Dir => true | _ => false end.

(** [os.path.getmtime], [os.path.getsize]: [None] stands for [OSError].
    In Python a directory has a time and a size too; the tree of the model
    keeps none for it, and both functions answer [None] there.  The script
    asks for the time and the size of paths that [os.walk] listed as files
    and of the file that a download has just written, never of a
    directory.  On a directory [upload] ends in [OSError] in Python as
    well, raised by [open]; [check_state] would return for a directory
    that is not newer than its record, where the model raises. *)
Definition getmtime (fs : gmap string Node) (p : string) : option Z :=
  match lookup fs p with Some (File _ t) => Some t | _ => None end.
Definition getsize (fs : gmap string Node) (p : string) : option N :=
  match lookup fs p with Some (File n _) => Some n | _ => None end.

(** The directory a key lives in, as a key ([.] for the root). *)
Definition parent (k : string) : string :=
  let d := Path.dirname k in if String.eqb d "" then "." else d.

Definition dirkey (d : string) : string :=
  if String.eqb d "." then "." else key d.

(** [os.listdir(d)]: [None] stands for [OSError]. *)
Definition listdir (fs : gmap string Node) (d : string) : option (list string) :=
  if isdir fs d then
    Some (Path.basename <$>
            List.filter (fun k => String.eqb (parent k) (dirkey d))
                        (fst <$> map_to_list fs))
  else None.

(** [os.remove(p)]: fails on a missing path and on a directory. *)
Definition remove (fs : gmap string Node) (p : string) : option (gmap string Node) :=
  match lookup fs p with
  | Some (File _ _) => Some (delete (key p) fs)
  | _ => None
  end.

(** [os.rmdir(d)]: fails on the current directory, on a path that is
    not a directory and on a directory that is not empty. *)
Definition rmdir (fs : gmap string Node) (d : string) : option (gmap string Node) :=
  if String.eqb d "." then None
  else match listdir fs d with
       | Some [] => Some (delete (key d) fs)
       | _ => None
       end.

(** [os.mkdir(p)] *)
Definition mkdir (fs : gmap string Node) (p : string) : option (gmap string Node) :=
  if String.eqb p "" || exists_ fs p then None
  else if isdir fs (parent (key p)) then Some (<[key p := Dir]> fs)
  else None.

(** [os.makedirs(name)] as the standard library writes it: the missing
    head is made first, then [mkdir(name)].  [head] does not exist when
    the inner call is made, so that call cannot fail with
    [FileExistsError], the one error the library swallows.  The recursion
    is on the head of the name, a shorter string each time: the length of
    the name plus one is given as fuel. *)
Fixpoint makedirs_go (fuel : nat) (fs : gmap string Node) (name : string)
  : option (gmap string Node) :=
  match fuel with
  | O => None
  | S fuel' =>
      let '(head, tail) := Path.split name in
      let '(head, tail) :=
        if String.eqb tail "" then Path.split head else (head, tail) in
      if negb (String.eqb head "") && negb (String.eqb tail "")
         && negb (exists_ fs head)
      then match makedirs_go fuel' fs head with
           | None => None
           | Some fs' => if String.eqb tail "." then Some fs' else mkdir fs' name
           end
      else mkdir fs name
  end.
Definition makedirs (fs : gmap string Node) (name : string) : option (gmap string Node) :=
  makedirs_go (S (String.length name)) fs name.

(** [open(p, 'wb')] followed by writing [size] bytes, at time [mtime]. *)
Definition write (fs : gmap string Node) (p : string) (size : N) (mtime : Z)
  : option (gmap string Node) :=
  match lookup fs p with
  | Some Dir => None
  | _ => if isdir fs (parent (key p)) then Some (<[key p := File size mtime]> fs)
         else None
  end.

(** [os.walk(top)], top-down; a directory that cannot be listed is
    skipped, as [os.walk] does without an [onerror] handler.  The walk
    goes one level down per unit of fuel and enters a directory only
    through an entry of the map, so the number of entries plus one is
    given as fuel.  What is proved below about the files of the walk holds
    for whatever list the walk returns. *)
Fixpoint walk_go (fuel : nat) (fs : gmap string Node) (top : string)
  : list (string * list string * list string) :=
  match fuel with
  | O => []
  | S fuel' =>
      match listdir fs top with
      | None => []
      | Some names =>
          let dirs := List.filter (fun n => isdir fs (Path.join top n)) names in
          let nondirs := List.filter (fun n => negb (isdir fs (Path.join top n))) names in
          (top, dirs, nondirs)
            :: flat_map (fun d => walk_go fuel' fs (Path.join top d)) dirs
      end
  end.
Definition walk (fs : gmap string Node) (top : string)
  : list (string * list string * list string) :=
  walk_go (S (size fs)) fs top.

End FS.

(** ** The Dropbox client

    [dbx] is an object of the [dropbox] package, which is not part of the
    repository.  The development is parametric in how the service behaves:
    an interface of the calls the script makes, over a state [R] of the
    remote side that the script never inspects.  A call either raises
    ([inl], with a message) or returns ([inr]). *)

(** What can be raised inside the script. *)
Inductive PyErr :=
| KeyError (k : string)
| NameError (name : string)
| AttributeError (attr : string)
| OSError
| ApiError (msg : string).

(** The result of running a piece of the script: a value, an exception, or
    a loop that was still running when the fuel of the model ran out. *)
Inductive Outcome (A : Type) :=
| Ret (a : A)
| Raise (e : PyErr)
| OutOfFuel.
Arguments Ret {A} a.
Arguments Raise {A} e.
Arguments OutOfFuel {A}.

(** A client handle, [dropbox.Dropbox(access_token)]. *)
Record Dbx := { access_token : string }.

(** Bytes read from a local file: the range [[b_off, b_off + b_len)] of the
    file [b_src]. *)
Record Blob := { b_src : string; b_off : N; b_len : N }.

Inductive WriteMode := add | overwrite | update (r : string).

(** [UploadSessionCursor(session_id, offset)] *)
Record UploadSessionCursor := { session_id : string; offset : N }.

(** [CommitInfo(path, mode, mute=...)] *)
Record CommitInfo := { ci_path : string; ci_mode : WriteMode; ci_mute : bool }.

(** Entries of a folder listing. *)
Record FileMetadata := { f_name : string; f_path_lower : string; f_rev : string }.
Record FolderMetadata := { d_name : string; d_path_lower : string }.
Inductive Metadata :=
| IsFile (m : FileMetadata)
| IsFolder (m : FolderMetadata)
| IsDeleted (name path_lower : string).

Definition entry_name (e : Metadata) : string :=
  match e with
  | IsFile m => f_name m
  | IsFolder m => d_name m
  | IsDeleted n _ => n
  end.
Definition entry_path_lower (e : Metadata) : string :=
  match e with
  | IsFile m => f_path_lower m
  | IsFolder m => d_path_lower m
  | IsDeleted _ p => p
  end.

Record ListFolderResult :=
  { entries : list Metadata; cursor : string; has_more : bool }.

(** What [files_download_to_file] hands back: the metadata of the file,
    and the length and time stamp of the body it wrote at the download
    path. *)
Record Download := { dl_meta : FileMetadata; dl_size : N; dl_mtime : Z }.

Record DropboxAPI (R : Type) := {
  files_list_folder :
    Dbx -> string -> bool -> R -> (string + ListFolderResult) * R;
  files_list_folder_continue :
    Dbx -> string -> R -> (string + ListFolderResult) * R;
  files_download_to_file :
    Dbx -> string -> string -> R -> (string + Download) * R;
  files_delete :
    Dbx -> string -> R -> (string + unit) * R;
  files_upload :
    Dbx -> Blob -> string -> WriteMode -> bool -> R -> (string + FileMetadata) * R;
  files_upload_session_start :
    Dbx -> Blob -> bool -> R -> (string + string) * R;
  files_upload_session_append_v2 :
    Dbx -> Blob -> option UploadSessionCursor -> bool -> R -> (string + unit) * R;
  files_upload_session_finish :
    Dbx -> Blob -> option UploadSessionCursor -> CommitInfo -> R
    -> (string + FileMetadata) * R
}.
Arguments files_list_folder {R}.
Arguments files_list_folder_continue {R}.
Arguments files_download_to_file {R}.
Arguments files_delete {R}.
Arguments files_upload {R}.
Arguments files_upload_session_start {R}.
Arguments files_upload_session_append_v2 {R}.
Arguments files_upload_session_finish {R}.

(** The calls made on a client, in the order they are made. *)
Inductive Call :=
| CListFolder (d : Dbx) (path : string) (recursive : bool)
| CListFolderContinue (d : Dbx) (cur : string)
| CDownload (d : Dbx) (download_path path : string)
| CDelete (d : Dbx) (path : string)
| CUpload (d : Dbx) (data : Blob) (path : string) (mode : WriteMode) (mute : bool)
| CSessionStart (d : Dbx) (data : Blob) (close : bool)
| CSessionAppend (d : Dbx) (data : Blob) (cur : option UploadSessionCursor) (close : bool)
| CSessionFinish (d : Dbx) (data : Blob) (cur : option UploadSessionCursor)
                 (commit : CommitInfo).

(** ** The state of the script *)

(** The dictionary [{'rev': ..., 'modified': ...}].  A Python dictionary is
    an object: [oid] is the stamp it gets when the literal is evaluated, so
    that one object stored under two keys is told apart from two equal
    dictionaries.  The script never updates such a dictionary in place. *)
Record Meta := { oid : nat; rev : string; modified : Z }.

Record DropboxState := {
  path_case_map : gmap string string;
  local_files : gmap string Meta;
  remote_files : gmap string Meta
}.

(** [DropboxState.__init__] *)
Definition init_state : DropboxState :=
  {| path_case_map := ∅; local_files := ∅; remote_files := ∅ |}.

Definition with_path_case_map (f : gmap string string -> gmap string string)
  (st : DropboxState) : DropboxState :=
  {| path_case_map := f (path_case_map st);
     local_files := local_files st; remote_files := remote_files st |}.
Definition with_local_files (f : gmap string Meta -> gmap string Meta)
  (st : DropboxState) : DropboxState :=
  {| path_case_map := path_case_map st;
     local_files := f (local_files st); remote_files := remote_files st |}.
Definition with_remote_files (f : gmap string Meta -> gmap string Meta)
  (st : DropboxState) : DropboxState :=
  {| path_case_map := path_case_map st;
     local_files := local_files st; remote_files := f (remote_files st) |}.

(** Everything a run reads and writes: the state object, the file tree,
    the remote side, the module-level name [dbx] (bound by the
    [__main__] block, unbound when the file is imported as a module), the
    calls made so far, what was printed, and the next object stamp. *)
Record Sys (R : Type) := {
  state : DropboxState;
  fs : gmap string Node;
  net : R;
  global_dbx : option Dbx;
  calls : list Call;
  stdout : string;
  next_oid : nat
}.
Arguments state {R}.
Arguments fs {R}.
Arguments net {R}.
Arguments global_dbx {R}.
Arguments calls {R}.
Arguments stdout {R}.
Arguments next_oid {R}.

Definition STATE_FILENAME : string := ".Synchronator_Dropbox_State".
Definition TOKEN_FILENAME : string := ".Synchronator_Token".

(** The two sizes written in [upload]. *)
Definition LARGE_FILE : N := 140000000.
Definition CHUNK : N := 10000000.

(** ** Pure helpers of the module *)

(** [valid_dir_for_upload(dir)] *)
Definition valid_dir_for_upload (dir : string) : bool :=
  let path := Str.split Str.SLASH dir in
  let reserved :=
    match path with
    | _ :: p1 :: _ =>
        Str.startswith p1 "site"
        || bool_decide (p1 ∈ ["temp"; "Examples"])
    | _ => false
    end in
  if reserved then false
  else negb (existsb (fun part => negb (String.eqb part ".")
                                  && Str.startswith part ".") path).

(** [valid_filename_for_upload(filename)] *)
Definition valid_filename_for_upload (filename : string) : bool :=
  negb (existsb id
          [ String.eqb filename STATE_FILENAME;
            Str.startswith filename ".";
            Str.startswith filename "@";
            Str.endswith filename "~";
            Str.endswith filename ".pyc";
            Str.endswith filename ".pyo";
            Str.endswith filename "Thumbs.db" ]).

(** The inner loop of [__process_remote_entries]: rebuilds the cased path
    of an entry, segment by segment, and the key of its last segment. *)
Fixpoint resolve_parts (pcm : gmap string string) (entry_name : string)
  (parts : list string) (entry_path path_key : string) : string * string :=
  match parts with
  | [] => (entry_path, path_key)
  | p :: parts' =>
      let path_key := Path.join path_key p in
      let entry_path :=
        match pcm !! path_key with
        | Some cased => Path.join entry_path cased
        | None => Path.join entry_path entry_name
        end in
      resolve_parts pcm entry_name parts' entry_path path_key
  end.

Definition resolve_entry (pcm : gmap string string) (entry : Metadata)
  : string * string :=
  let path_lower := Str.drop1 (entry_path_lower entry) in
  let parts := Str.split Str.SLASH path_lower in
  resolve_parts pcm (entry_name entry) parts "" "".

(** [because or ''] *)
Definition or_empty (because : option string) : string :=
  match because with Some s => s | None => "" end.

(** [list(d.keys())] *)
Definition keys {V : Type} (d : gmap string V) : list string :=
  fst <$> map_to_list d.

(** A file opened for reading: its path, its length and the read position. *)
Record FileObj := { fo_path : string; fo_size : N; fo_pos : N }.

(** [fr.read(n)] *)
Definition read (fr : FileObj) (n : N) : Blob * FileObj :=
  let len := N.min n (fo_size fr - fo_pos fr)%N in
  ({| b_src := fo_path fr; b_off := fo_pos fr; b_len := len |},
   {| fo_path := fo_path fr; fo_size := fo_size fr; fo_pos := (fo_pos fr + len)%N |}).

(** [fr.read()] *)
Definition read_all (fr : FileObj) : Blob * FileObj :=
  read fr (fo_size fr - fo_pos fr)%N.

(** ** The monad of the script: state, exceptions, fuel *)

Section Script.

Context {R : Type}.
Definition M (A : Type) : Type := Sys R -> Outcome A * Sys R.

Definition ret {A : Type} (a : A) : M A := fun s => (Ret a, s).
Definition raise {A : Type} (e : PyErr) : M A := fun s => (Raise e, s).
Definition out_of_fuel {A : Type} : M A := fun s => (OutOfFuel, s).

Definition bind {A B : Type} (m : M A) (k : A -> M B) : M B :=
  fun s =>
    match m s with
    | (Ret a, s') => k a s'
    | (Raise e, s') => (Raise e, s')
    | (OutOfFuel, s') => (OutOfFuel, s')
    end.

(** [try: m  except: h] *)
Definition try_except {A : Type} (m : M A) (h : PyErr -> M A) : M A :=
  fun s =>
    match m s with
    | (Raise e, s') => h e s'
    | r => r
    end.

Definition get_state : M DropboxState := fun s => (Ret (state s), s).
Definition get_fs : M (gmap string Node) := fun s => (Ret (fs s), s).

Definition set_state (f : DropboxState -> DropboxState) : M unit :=
  fun s => (Ret tt,
            {| state := f (state s); fs := fs s; net := net s;
               global_dbx := global_dbx s; calls := calls s;
               stdout := stdout s; next_oid := next_oid s |}).

Definition set_fs (fs' : gmap string Node) : M unit :=
  fun s => (Ret tt,
            {| state := state s; fs := fs'; net := net s;
               global_dbx := global_dbx s; calls := calls s;
               stdout := stdout s; next_oid := next_oid s |}).

End Script.

Arguments ret {R A} a.
Arguments raise {R A} e.
Arguments out_of_fuel {R A}.
Arguments bind {R A B} m k.
Arguments try_except {R A} m h.
Arguments get_state {R}.
Arguments get_fs {R}.
Arguments set_state {R} f.
Arguments set_fs {R} fs'.

Arguments M : clear implicits.

Notation "'let!' x ':=' m 'in' k" := (bind m (fun x => k))
  (at level 10, x name, m at level 100, k at level 200,
   format "'[v' 'let!'  x  ':='  m  'in' '/' k ']'").
Notation "'do!' m 'in' k" := (bind m (fun _ => k))
  (at level 10, m at level 100, k at level 200,
   format "'[v' 'do!'  m  'in' '/' k ']'").

(** ** The operating system, the dictionaries and the client, as actions *)

Section Primitives.

Context {R : Type}.
Variable api : DropboxAPI R.

(** [print(a1, ..., an, end=end_)] *)
Definition print_end (args : list string) (end_ : string) : M R unit :=
  fun s => (Ret tt,
            {| state := state s; fs := fs s; net := net s;
               global_dbx := global_dbx s; calls := calls s;
               stdout := stdout s +:+ String.concat " " args +:+ end_;
               next_oid := next_oid s |}).
Definition print (args : list string) : M R unit := print_end args Str.NL.

(** Evaluating the dictionary literal [{'rev': r, 'modified': t}]. *)
Definition new_meta (r : string) (t : Z) : M R Meta :=
  fun s => (Ret {| oid := next_oid s; rev := r; modified := t |},
            {| state := state s; fs := fs s; net := net s;
               global_dbx := global_dbx s; calls := calls s;
               stdout := stdout s; next_oid := S (next_oid s) |}).

(** Reading the module-level name [dbx]. *)
Definition read_global_dbx : M R Dbx :=
  fun s => match global_dbx s with
           | Some d => (Ret d, s)
           | None => (Raise (NameError "dbx"), s)
           end.

(** A call on the client: it is recorded, then the service answers. *)
Definition call_api {A : Type} (c : Call) (f : R -> (string + A) * R) : M R A :=
  fun s =>
    let '(r, n) := f (net s) in
    (match r with inl msg => Raise (ApiError msg) | inr a => Ret a end,
        {| state := state s; fs := fs s; net := n;
           global_dbx := global_dbx s; calls := calls s ++ [c];
           stdout := stdout s; next_oid := next_oid s |}).

Definition os_result {A : Type} (o : option A) : M R A :=
  match o with Some a => ret a | None => raise OSError end.

Definition os_path_exists (p : string) : M R bool :=
  let! t := get_fs in ret (FS.exists_ t p).
Definition os_path_isfile (p : string) : M R bool :=
  let! t := get_fs in ret (FS.isfile t p).
Definition os_path_getmtime (p : string) : M R Z :=
  let! t := get_fs in os_result (FS.getmtime t p).
Definition os_path_getsize (p : string) : M R N :=
  let! t := get_fs in os_result (FS.getsize t p).
Definition os_listdir (p : string) : M R (list string) :=
  let! t := get_fs in os_result (FS.listdir t p).
Definition os_remove (p : string) : M R unit :=
  let! t := get_fs in let! t' := os_result (FS.remove t p) in set_fs t'.
Definition os_rmdir (p : string) : M R unit :=
  let! t := get_fs in let! t' := os_result (FS.rmdir t p) in set_fs t'.
Definition os_makedirs (p : string) : M R unit :=
  let! t := get_fs in let! t' := os_result (FS.makedirs t p) in set_fs t'.

(** [open(p, 'rb')] *)
Definition open_rb (p : string) : M R FileObj :=
  let! n := os_path_getsize p in
  ret {| fo_path := p; fo_size := n; fo_pos := 0 |}.

(** [d[k]] and [del d[k]] on the two dictionaries of the state. *)
Definition local_files_get (k : string) : M R Meta :=
  let! st := get_state in
  match local_files st !! k with
  | Some m => ret m
  | None => raise (KeyError k)
  end.
Definition local_files_del (k : string) : M R unit :=
  let! st := get_state in
  match local_files st !! k with
  | Some _ => set_state (with_local_files (delete k))
  | None => raise (KeyError k)
  end.
Definition remote_files_del (k : string) : M R unit :=
  let! st := get_state in
  match remote_files st !! k with
  | Some _ => set_state (with_remote_files (delete k))
  | None => raise (KeyError k)
  end.

(** The calls of the client that the script makes. *)
Definition dbx_files_list_folder (dbx : Dbx) (path : string) (recursive : bool)
  : M R ListFolderResult :=
  call_api (CListFolder dbx path recursive)
           (files_list_folder api dbx path recursive).
Definition dbx_files_list_folder_continue (dbx : Dbx) (cur : string)
  : M R ListFolderResult :=
  call_api (CListFolderContinue dbx cur) (files_list_folder_continue api dbx cur).
Definition dbx_files_delete (dbx : Dbx) (path : string) : M R unit :=
  call_api (CDelete dbx path) (files_delete api dbx path).
Definition dbx_files_upload (dbx : Dbx) (data : Blob) (path : string)
  (mode : WriteMode) (mute : bool) : M R FileMetadata :=
  call_api (CUpload dbx data path mode mute) (files_upload api dbx data path mode mute).
Definition dbx_files_upload_session_start (dbx : Dbx) (data : Blob) (close : bool)
  : M R string :=
  call_api (CSessionStart dbx data close) (files_upload_session_start api dbx data close).
Definition dbx_files_upload_session_append_v2 (dbx : Dbx) (data : Blob)
  (cur : option UploadSessionCursor) (close : bool) : M R unit :=
  call_api (CSessionAppend dbx data cur close)
           (files_upload_session_append_v2 api dbx data cur close).
Definition dbx_files_upload_session_finish (dbx : Dbx) (data : Blob)
  (cur : option UploadSessionCursor) (commit : CommitInfo) : M R FileMetadata :=
  call_api (CSessionFinish dbx data cur commit)
           (files_upload_session_finish api dbx data cur commit).

(** [files_download_to_file(download_path, path)]: the request, then the
    body is written at [download_path]. *)
Definition dbx_files_download_to_file (dbx : Dbx) (download_path path : string)
  : M R FileMetadata :=
  let! d := call_api (CDownload dbx download_path path)
                     (files_download_to_file api dbx download_path path) in
  let! t := get_fs in
  let! t' := os_result (FS.write t download_path (dl_size d) (dl_mtime d)) in
  do! set_fs t' in
  ret (dl_meta d).

(** [for x in l: body(x)] *)
Fixpoint for_each {A : Type} (l : list A) (body : A -> M R unit) : M R unit :=
  match l with
  | [] => ret tt
  | x :: l' => do! body x in for_each l' body
  end.

End Primitives.

(** ** [class DropboxState] and the passes *)

Section Synchronator.

Context {R : Type}.
Variable api : DropboxAPI R.

(** [list(d.keys())] lists the keys of a dictionary in the order in which
    they were inserted.  The maps of the model do not record that order:
    [key_order] stands for it.  [execute_delta] lists the keys of one
    dictionary, once; whatever the order of that dictionary is, some
    [key_order] gives it, and what is proved of [execute_delta] is proved
    for every [key_order]. *)
Variable key_order : gmap string Meta -> list string.

(** The [while not close] loop of [upload].  Each turn sends one full
    chunk, so a file of [n] bytes needs no more than [n / CHUNK] turns. *)
Fixpoint upload_loop (fuel : nat) (dbx : Dbx) (local_fr : FileObj)
  (data : Blob) (close : bool) (session_id : option string)
  (session_cursor : option UploadSessionCursor) (offset : N)
  : M R (Blob * option UploadSessionCursor) :=
  if close then ret (data, session_cursor)
  else
    match fuel with
    | O => out_of_fuel
    | S fuel' =>
        let! sid :=
          match session_id with
          | None => dbx_files_upload_session_start api dbx data close
          | Some sid =>
              do! dbx_files_upload_session_append_v2 api dbx data session_cursor close in
              ret sid
          end in
        let offset := (offset + b_len data)%N in
        do! match session_cursor with
            | None => print_end [Str.TAB +:+ "."] ""
            | Some _ =>
                if (offset mod 100000000 =? 0)%N then
                  do! print [".: "; pretty offset] in
                  print_end [Str.TAB] ""
                else print_end ["."] ""
            end in
        let session_cursor := Some {| session_id := sid; offset := offset |} in
        let '(data, local_fr) := read local_fr CHUNK in
        let close := (b_len data <? CHUNK)%N in
        upload_loop fuel' dbx local_fr data close (Some sid) session_cursor offset
    end.

(** The transfer made by [upload]: from [os.path.getsize] to the call
    that returns [result]. *)
Definition upload_send (dbx : Dbx) (path : string) : M R FileMetadata :=
  let! size := os_path_getsize path in
  if (LARGE_FILE <? size)%N then
    let! local_fr := open_rb path in
    let '(data, local_fr) := read local_fr CHUNK in
    let close := (b_len data <? CHUNK)%N in
    let! fin := upload_loop (S (N.to_nat (size / CHUNK))) dbx local_fr
                            data close None None 0 in
    let '(data, session_cursor) := fin in
    let mode := overwrite in
    let commit_info :=
      {| ci_path := Path.join "/" path; ci_mode := mode; ci_mute := true |} in
    let! result := dbx_files_upload_session_finish api dbx data session_cursor
                                                   commit_info in
    do! print ["."] in
    ret result
  else
    let! local_fr := open_rb path in
    let '(data, _) := read_all local_fr in
    let mode := overwrite in
    dbx_files_upload api dbx data (Path.join "/" path) mode true.

(** [DropboxState.upload] *)
Definition upload (dbx : Dbx) (path : string) (because : option string) : M R unit :=
  do! print [Str.TAB +:+ "Uploading: "; path; or_empty because] in
  let! result := upload_send dbx path in
  let! mtime := os_path_getmtime path in
  let! meta := new_meta (f_rev result) mtime in
  do! set_state (with_local_files <[path := meta]>) in
  set_state (with_remote_files <[path := meta]>).

(** [DropboxState.check_state]: the comparison reads the time of the
    file first, then [self.local_files[path]]. *)
Definition check_state (dbx : Dbx) (path : string) : M R unit :=
  let! st := get_state in
  match remote_files st !! path with
  | None => upload dbx path (Some "-- Not Found Remotely")
  | Some _ =>
      let! mtime := os_path_getmtime path in
      let! m := local_files_get path in
      if (modified m <? mtime) then upload dbx path (Some "-- Local File Changed")
      else ret tt
  end.

(** [DropboxState.delete_local] *)
Definition delete_local (path : string) : M R unit :=
  do! print [Str.TAB +:+ "Deleting Locally: "; path; " -- File No Longer On Dropbox"] in
  do! try_except (os_remove path)
        (fun e => match e with OSError => ret tt | _ => raise e end) in
  do! local_files_del path in
  do! remote_files_del path in
  let dir := Path.dirname path in
  let dir := if String.eqb dir "" then "." else dir in
  let! there := os_path_exists dir in
  if there then
    let! names := os_listdir dir in
    match names with
    | [] => os_rmdir dir
    | _ :: _ => ret tt
    end
  else ret tt.

(** [DropboxState.delete_remote]: a bare [except] catches everything
    raised in the [try] block. *)
Definition delete_remote (dbx : Dbx) (path : string) : M R unit :=
  do! print [Str.TAB +:+ "Deleting On Dropbox: "; path; " -- File Deleted Locally"] in
  try_except
    (do! dbx_files_delete api dbx (String.append "/" path) in
     do! local_files_del path in
     remote_files_del path)
    (fun _ => print [Str.TAB +:+ "!Remote Delete Failed!"]).

(** [DropboxState.download_remote] *)
Definition download_remote (dbx : Dbx) (path : string) (because : option string)
  : M R unit :=
  do! print [Str.TAB +:+ "Downloading: "; path; or_empty because] in
  let '(head, tail) := Path.split path in
  let! there := os_path_exists head in
  do! (if negb (String.eqb head "") && negb there then os_makedirs head
       else ret tt) in
  let! result := dbx_files_download_to_file api dbx path (Path.join "/" path) in
  let! mtime := os_path_getmtime path in
  let! meta := new_meta (f_rev result) mtime in
  do! set_state (with_local_files <[path := meta]>) in
  set_state (with_remote_files <[path := meta]>).

(** [DropboxState.make_local_dir]; the [os] module has no [makedir]. *)
Definition make_local_dir (path : string) : M R unit :=
  let! there := os_path_exists path in
  if negb there then os_makedirs path
  else
    let! isf := os_path_isfile path in
    if isf then
      do! os_remove path in
      do! local_files_del path in
      raise (AttributeError "makedir")
    else ret tt.

(** One turn of the [for entry in entries] loop of
    [__process_remote_entries]; [current] is the set
    [current_remote_file_paths].  The name [dbx] in the body is not a
    parameter of the method: it is looked up in the module. *)
Definition process_remote_entry (entry : Metadata) (current : gset string)
  : M R (gset string) :=
  let! st := get_state in
  let '(entry_path, path_key) := resolve_entry (path_case_map st) entry in
  match entry with
  | IsFile m =>
      let rev_ := f_rev m in
      do! match local_files st !! entry_path with
          | None =>
              let! dbx := read_global_dbx in
              download_remote dbx entry_path (Some "-- Not Found Locally")
          | Some known =>
              if negb (String.eqb rev_ (rev known)) then
                let! dbx := read_global_dbx in
                download_remote dbx entry_path (Some "-- Remote File Changed")
              else ret tt
          end in
      ret ({[ entry_path ]} ∪ current)
  | IsFolder m =>
      do! set_state (with_path_case_map <[path_key := d_name m]>) in
      let! there := os_path_exists entry_path in
      if negb there then
        do! print [Str.NL +:+ Str.TAB +:+ "Making Directory: "; entry_path] in
        do! make_local_dir entry_path in
        ret current
      else ret current
  | IsDeleted _ _ => ret current
  end.

(** [DropboxState.__process_remote_entries] *)
Fixpoint process_remote_entries (entries : list Metadata) (current : gset string)
  : M R (gset string) :=
  match entries with
  | [] => ret current
  | entry :: entries' =>
      let! current := process_remote_entry entry current in
      process_remote_entries entries' current
  end.

(** The [while True] loop of [execute_delta]: one turn per page. *)
Fixpoint consume_pages (fuel : nat) (dbx : Dbx) (results : ListFolderResult)
  (current : gset string) : M R (gset string) :=
  match fuel with
  | O => out_of_fuel
  | S fuel' =>
      let cur := cursor results in
      let! current := process_remote_entries (entries results) current in
      if negb (has_more results) then ret current
      else
        let! results := dbx_files_list_folder_continue api dbx cur in
        consume_pages fuel' dbx results current
  end.

(** The body of the last loop of [execute_delta]. *)
Definition delete_if_gone (current : gset string) (path : string) : M R unit :=
  if decide (path ∈ current) then ret tt
  else
    let! st := get_state in
    match local_files st !! path with
    | Some _ => delete_local path
    | None => ret tt
    end.

(** The first half of [execute_delta]: the listing and its pages;
    [fuel] bounds the number of pages. *)
Definition consume_listing (fuel : nat) (dbx : Dbx) : M R (gset string) :=
  let! results := dbx_files_list_folder api dbx "" true in
  consume_pages fuel dbx results ∅.

(** [DropboxState.execute_delta] *)
Definition execute_delta (fuel : nat) (dbx : Dbx) : M R unit :=
  let! current := consume_listing fuel dbx in
  let! st := get_state in
  let remote_files_keys := key_order (remote_files st) in
  for_each remote_files_keys (delete_if_gone current).

(** The list [filelist] built by [check_local]. *)
Definition local_filelist (t : gmap string Node) : list string :=
  flat_map
    (fun '(root, _, filenames) =>
       if valid_dir_for_upload root then
         (fun filename => Str.drop2 (Path.join root filename))
           <$> List.filter valid_filename_for_upload filenames
       else [])
    (FS.walk t ".").

(** [check_local] *)
Definition check_local (dbx : Dbx) : M R unit :=
  do! print [Str.NL +:+ "Checking For New Or Updated Local Files"] in
  let! t := get_fs in
  let filelist := local_filelist t in
  do! for_each filelist (check_state dbx) in
  do! print [Str.NL +:+ "Checking For Deleted Local Files"] in
  let! st := get_state in
  let oldlist := keys (local_files st) in
  for_each oldlist
    (fun file => if decide (file ∈ filelist) then ret tt
                 else delete_remote dbx file).

(** [check_remote] *)
Definition check_remote (fuel : nat) (dbx : Dbx) : M R unit :=
  do! print [Str.NL +:+ "Updating From Dropbox"] in
  execute_delta fuel dbx.

End Synchronator.

(** ** A scripted service, for running the model on concrete inputs

    The remote side holds the pages still to be listed, whether deletions
    are refused, and how many revisions it has handed out. *)

Record Mock := {
  mock_pages : list ListFolderResult;
  mock_delete_fails : bool;
  mock_revs : nat
}.

Definition mock_next_page (n : Mock) : (string + ListFolderResult) * Mock :=
  match mock_pages n with
  | [] => (inr {| entries := []; cursor := "end"; has_more := false |}, n)
  | p :: ps =>
      (inr p, {| mock_pages := ps; mock_delete_fails := mock_delete_fails n;
                 mock_revs := mock_revs n |})
  end.

Definition mock_commit (path : string) (n : Mock) : (string + FileMetadata) * Mock :=
  (inr {| f_name := Path.basename path; f_path_lower := path;
          f_rev := "rev" +:+ pretty (mock_revs n) |},
   {| mock_pages := mock_pages n; mock_delete_fails := mock_delete_fails n;
      mock_revs := S (mock_revs n) |}).

Definition mock_api : DropboxAPI Mock := {|
  files_list_folder := fun _ _ _ n => mock_next_page n;
  files_list_folder_continue := fun _ _ n => mock_next_page n;
  files_download_to_file := fun _ _ path n =>
    (inr {| dl_meta := {| f_name := Path.basename path; f_path_lower := path;
                          f_rev := "remote-rev" |};
            dl_size := 3; dl_mtime := 1000 |}, n);
  files_delete := fun _ _ n =>
    (if mock_delete_fails n then inl "delete refused" else inr tt, n);
  files_upload := fun _ _ path _ _ n => mock_commit path n;
  files_upload_session_start := fun _ _ _ n => (inr "session-1", n);
  files_upload_session_append_v2 := fun _ _ _ _ n => (inr tt, n);
  files_upload_session_finish := fun _ _ _ commit n => mock_commit (ci_path commit) n
|}.

Definition mock_net (pages : list ListFolderResult) (delete_fails : bool) : Mock :=
  {| mock_pages := pages; mock_delete_fails := delete_fails; mock_revs := 0 |}.

Definition main_dbx : Dbx := {| access_token := "token-of-main" |}.
Definition other_dbx : Dbx := {| access_token := "another-token" |}.

(** A run as started by the [__main__] block: [dbx] is bound in the module. *)
Definition start_sys (st : DropboxState) (t : gmap string Node) (n : Mock)
  (g : option Dbx) : Sys Mock :=
  {| state := st; fs := t; net := n; global_dbx := g; calls := [];
     stdout := ""; next_oid := 0 |}.

(** ** Reading the record of calls *)

(** The local files whose bytes a call sends. *)
Definition uploaded_path (c : Call) : option string :=
  match c with
  | CUpload _ data _ _ _ => Some (b_src data)
  | CSessionStart _ data _ => Some (b_src data)
  | CSessionAppend _ data _ _ => Some (b_src data)
  | CSessionFinish _ data _ _ => Some (b_src data)
  | _ => None
  end.
Definition uploaded_paths (cs : list Call) : list string :=
  omap uploaded_path cs.

(** The calls made between two points of a run. *)
Definition new_calls {R : Type} (s s' : Sys R) : list Call :=
  drop (length (calls s)) (calls s').

(** ** Concrete inputs *)

(** A tree with one file of each excluded kind and two ordinary files. *)
Definition filters_fs : gmap string Node :=
  list_to_map
    [ (".hidden", File 1 1); ("@tmp", File 1 1); ("backup~", File 1 1);
      ("module.pyc", File 1 1); (STATE_FILENAME, File 1 1);
      ("notes.txt", File 5 10); ("src", Dir); ("src/main.py", File 3 4) ].

(** A state that knows one file, [gone.txt], which is no longer in the
    (empty) tree. *)
Definition gone_meta : Meta := {| oid := 0; rev := "r1"; modified := 7 |}.
Definition gone_state : DropboxState :=
  {| path_case_map := ∅;
     local_files := {[ "gone.txt" := gone_meta ]};
     remote_files := {[ "gone.txt" := gone_meta ]} |}.
Definition gone_sys (delete_fails : bool) : Sys Mock :=
  start_sys gone_state ∅ (mock_net [] delete_fails) (Some main_dbx).

(** A state that knows [notes.txt] remotely and not locally, as a state
    file written by another version of the script can hold. *)
Definition remote_only_state : DropboxState :=
  {| path_case_map := ∅;
     local_files := ∅;
     remote_files := {[ "notes.txt" := {| oid := 0; rev := "r1"; modified := 7 |} ]} |}.
Definition remote_only_sys : Sys Mock :=
  start_sys remote_only_state filters_fs (mock_net [] false) (Some main_dbx).

(** An empty tree, a new state, and a service that lists nothing. *)
Definition fresh_sys : Sys Mock :=
  start_sys init_state ∅ (mock_net [] false) (Some main_dbx).

(** A tree that holds one small file. *)
Definition notes_fs : gmap string Node := {[ "notes.txt" := File 5 10 ]}.
Definition notes_sys : Sys Mock :=
  start_sys init_state notes_fs (mock_net [] false) (Some main_dbx).

(** The same tree, and a service that has handed out three revisions. *)
Definition later_sys : Sys Mock :=
  start_sys init_state notes_fs
    {| mock_pages := []; mock_delete_fails := false; mock_revs := 3 |}
    (Some main_dbx).

(** A tree that holds one file, one byte above the size at which
    [upload] switches to a session. *)
Definition big_fs : gmap string Node := {[ "big.bin" := File 140000001 10 ]}.
Definition big_sys : Sys Mock :=
  start_sys init_state big_fs (mock_net [] false) (Some main_dbx).

(** The same with a file of exactly that size. *)
Definition threshold_fs : gmap string Node := {[ "big.bin" := File 140000000 10 ]}.
Definition threshold_sys : Sys Mock :=
  start_sys init_state threshold_fs (mock_net [] false) (Some main_dbx).

(** A listing of one page with one file, [/notes.txt]. *)
Definition notes_entry : Metadata :=
  IsFile {| f_name := "notes.txt"; f_path_lower := "/notes.txt"; f_rev := "r9" |}.
Definition notes_page : ListFolderResult :=
  {| entries := [notes_entry]; cursor := "c1"; has_more := false |}.

(** The remote pass called with [other_dbx] while the module binds [dbx]
    to [main_dbx], and the same pass in a module that binds no [dbx]. *)
Definition bound_sys : Sys Mock :=
  start_sys init_state ∅ (mock_net [notes_page] false) (Some main_dbx).
Definition unbound_sys : Sys Mock :=
  start_sys init_state ∅ (mock_net [notes_page] false) None.

(** The two entries of the case-resolution scenario: the folder [Photos],
    then a file in it, both with lower-cased paths. *)
Definition photos_folder : Metadata :=
  IsFolder {| d_name := "Photos"; d_path_lower := "/photos" |}.
Definition img_file (r : string) : Metadata :=
  IsFile {| f_name := "img.png"; f_path_lower := "/photos/img.png"; f_rev := r |}.

(** A tree in which a regular file sits at [Photos], known to the state,
    while the remote side lists a folder [Photos]. *)
Definition blocked_meta : Meta := {| oid := 0; rev := "r1"; modified := 10 |}.
Definition blocked_state : DropboxState :=
  {| path_case_map := ∅;
     local_files := {[ "Photos" := blocked_meta ]};
     remote_files := {[ "Photos" := blocked_meta ]} |}.
Definition blocked_sys : Sys Mock :=
  start_sys blocked_state {[ "Photos" := File 5 10 ]} (mock_net [] false)
            (Some main_dbx).

(** A tree and a state that know [keep.txt] and [old/gone.txt], and a
    listing that delivers [keep.txt] only, at the known revision. *)
Definition keep_meta : Meta := {| oid := 0; rev := "r9"; modified := 10 |}.
Definition old_meta : Meta := {| oid := 1; rev := "r3"; modified := 4 |}.
Definition shrunk_state : DropboxState :=
  {| path_case_map := ∅;
     local_files := {[ "keep.txt" := keep_meta; "old/gone.txt" := old_meta ]};
     remote_files := {[ "keep.txt" := keep_meta; "old/gone.txt" := old_meta ]} |}.
Definition shrunk_fs : gmap string Node :=
  {[ "keep.txt" := File 5 10; "old" := Dir; "old/gone.txt" := File 2 4 ]}.
Definition keep_page : ListFolderResult :=
  {| entries := [IsFile {| f_name := "keep.txt"; f_path_lower := "/keep.txt";
                           f_rev := "r9" |}];
     cursor := "c1"; has_more := false |}.
Definition shrunk_sys : Sys Mock :=
  start_sys shrunk_state shrunk_fs (mock_net [keep_page] false) (Some main_dbx).

(** The same state and listing over a tree in which [old/gone.txt] is
    already missing, its directory holding another file. *)
Definition missing_fs : gmap string Node :=
  {[ "keep.txt" := File 5 10; "old" := Dir; "old/other.txt" := File 1 2 ]}.
Definition missing_sys : Sys Mock :=
  start_sys shrunk_state missing_fs (mock_net [keep_page] false) (Some main_dbx).

(** A tree four directories deep. *)
Definition deep_fs : gmap string Node :=
  list_to_map
    [ ("a", Dir); ("a/b", Dir); ("a/b/c", Dir); ("a/b/c/d", Dir);
      ("a/b/c/d/leaf.txt", File 1 1); ("a/top.txt", File 1 1) ].

(** ** Vocabulary of the statements *)

Section Vocabulary.

Context {R : Type}.

(** [keeps rel m]: whatever [m] returns or raises, the system it leaves
    is related by [rel] to the one it started from. *)
Definition keeps (rel : Sys R -> Sys R -> Prop) {A : Type} (m : M R A) : Prop :=
  forall s, rel s (m s).2.

(** A component of the system is what it was. *)
Definition unchanged {X : Type} (f : Sys R -> X) (s s' : Sys R) : Prop :=
  f s' = f s.

(** The record of calls has grown by calls that satisfy [Q]. *)
Definition emits (Q : Call -> Prop) (s s' : Sys R) : Prop :=
  exists new, calls s' = calls s ++ new /\ Forall Q new.

(** What neither the client nor [print] can touch. *)
Definition machine (s : Sys R) : DropboxState * gmap string Node * option Dbx * nat :=
  (state s, fs s, global_dbx s, next_oid s).

(** [raises_only E m]: an exception that leaves [m] satisfies [E]. *)
Definition raises_only (E : PyErr -> Prop) {A : Type} (m : M R A) : Prop :=
  forall s e, (m s).1 = Raise e -> E e.

End Vocabulary.

(** The path is known on both sides, with a local record at least as
    recent as the file in the tree. *)
Definition settled {R : Type} (s : Sys R) (path : string) : Prop :=
  exists m t,
    local_files (state s) !! path = Some m
    /\ is_Some (remote_files (state s) !! path)
    /\ FS.getmtime (fs s) path = Some t
    /\ (t <= modified m)%Z.

(** [result] is what a call that commits the file at [remote_path],
    overwriting, has returned to the client [dbx]: the one-shot upload, or
    the call that finishes an upload session. *)
Definition committed_by {R : Type} (api : DropboxAPI R) (dbx : Dbx)
  (remote_path : string) (result : FileMetadata) : Prop :=
  (exists data n n',
      files_upload api dbx data remote_path overwrite true n = (inr result, n'))
  \/ (exists data cur n n',
        files_upload_session_finish api dbx data cur
          {| ci_path := remote_path; ci_mode := overwrite; ci_mute := true |} n
        = (inr result, n')).

(** The calls of a chunked transfer of [size] bytes of [path], in a
    session that the service named [sid]: the full chunks, the first one
    starting the session and the others appended at the offset reached so
    far, then the rest of the file with the commit. *)
Definition chunk_offset (i : nat) : N := (N.of_nat i * CHUNK)%N.
Definition full_chunk (path : string) (i : nat) : Blob :=
  {| b_src := path; b_off := chunk_offset i; b_len := CHUNK |}.
Definition cursor_at (sid : string) (i : nat) : UploadSessionCursor :=
  {| session_id := sid; offset := chunk_offset i |}.
Definition chunk_call (dbx : Dbx) (path sid : string) (i : nat) : Call :=
  match i with
  | O => CSessionStart dbx (full_chunk path i) false
  | S _ => CSessionAppend dbx (full_chunk path i) (Some (cursor_at sid i)) false
  end.
Definition finish_call (dbx : Dbx) (path sid : string) (size : N) : Call :=
  let q := N.to_nat (size / CHUNK) in
  CSessionFinish dbx
    {| b_src := path; b_off := chunk_offset q; b_len := (size mod CHUNK)%N |}
    (Some (cursor_at sid q))
    {| ci_path := Path.join "/" path; ci_mode := overwrite; ci_mute := true |}.
Definition session_calls (dbx : Dbx) (path sid : string) (size : N) : list Call :=
  let q := N.to_nat (size / CHUNK) in
  (chunk_call dbx path sid <$> seq 0 q) ++ [finish_call dbx path sid size].

(** The call of a one-shot transfer. *)
Definition one_shot_call (dbx : Dbx) (path : string) (size : N) : Call :=
  CUpload dbx {| b_src := path; b_off := 0; b_len := size |}
          (Path.join "/" path) overwrite true.

(** The service is asked to append the full chunks [i], [i + 1], ...,
    [count] of them, one call after the other from its state [n], each at
    the cursor of the session [sid] for the bytes sent so far: every call
    returns, and [Some n'] is the state that the last one leaves. *)
Fixpoint appended {R : Type} (api : DropboxAPI R) (dbx : Dbx) (path sid : string)
  (i count : nat) (n : R) : option R :=
  match count with
  | O => Some n
  | S count' =>
      match files_upload_session_append_v2 api dbx (full_chunk path i)
              (Some (cursor_at sid i)) false n with
      | (inr _, n1) => appended api dbx path sid (S i) count' n1
      | (inl _, _) => None
      end
  end.

(** The answers of the service to a chunked transfer of [size] bytes of
    [path] that starts in the state [n] of the service: the start, asked
    with the first chunk, returns the session identifier [sid]; the appends
    of the other full chunks are made at the cursors of that session; the
    finish, asked with the rest of the file at the cursor of that session,
    returns [result] and leaves the service in the state [n']. *)
Definition session_answered {R : Type} (api : DropboxAPI R) (dbx : Dbx)
  (path : string) (size : N) (n : R) (sid : string) (result : FileMetadata)
  (n' : R) : Prop :=
  let q := N.to_nat (size / CHUNK) in
  exists n1 nq,
    files_upload_session_start api dbx (full_chunk path 0) false n = (inr sid, n1)
    /\ appended api dbx path sid 1 (q - 1) n1 = Some nq
    /\ files_upload_session_finish api dbx
         {| b_src := path; b_off := chunk_offset q; b_len := (size mod CHUNK)%N |}
         (Some (cursor_at sid q))
         {| ci_path := Path.join "/" path; ci_mode := overwrite; ci_mute := true |}
         nq
       = (inr result, n').

(** The answer of the service to the transfer that [upload] makes of a file
    of [size] bytes, from the state [n] of the service: [result] is what
    the call that commits the file returns, the finish of the session above
    140,000,000 bytes and the one-shot upload otherwise, and [n'] is the
    state the service is left in. *)
Definition transfer_answered {R : Type} (api : DropboxAPI R) (dbx : Dbx)
  (path : string) (size : N) (n : R) (result : FileMetadata) (n' : R) : Prop :=
  if (LARGE_FILE <? size)%N then
    exists sid, session_answered api dbx path size n sid result n'
  else
    files_upload api dbx {| b_src := path; b_off := 0; b_len := size |}
      (Path.join "/" path) overwrite true n
    = (inr result, n').

(** What the remote pass may call: the listing on the client it was given,
    downloads on the client [g] names. *)
Definition remote_pass_call (dbx_arg : Dbx) (g : option Dbx) (c : Call) : Prop :=
  match c with
  | CListFolder d _ _ => d = dbx_arg
  | CListFolderContinue d _ => d = dbx_arg
  | CDownload d _ _ => g = Some d
  | _ => False
  end.

(** The module-level [dbx] is what it was, and the calls made since are
    calls of the remote pass with the downloads on that [dbx]. *)
Definition via_global {R : Type} (dbx_arg : Dbx) (s s' : Sys R) : Prop :=
  global_dbx s' = global_dbx s
  /\ emits (remote_pass_call dbx_arg (global_dbx s)) s s'.

(** The entry is a file that [__process_remote_entries] downloads: its
    path is unknown locally, or known with another revision. *)
Definition needs_download (st : DropboxState) (entry : Metadata) : Prop :=
  exists m,
    entry = IsFile m
    /\ match local_files st !! (resolve_entry (path_case_map st) entry).1 with
       | None => True
       | Some known => f_rev m <> rev known
       end.

(** [key_order] lists the keys of every dictionary, each of them once. *)
Definition lists_the_keys (key_order : gmap string Meta -> list string) : Prop :=
  forall d, key_order d ≡ₚ keys d.

(** The remote-deletion claim as the specification states it: after the
    listing, every path of [remote_files] that the listing did not deliver
    is deleted locally. *)
Definition remote_deletion_as_stated : Prop :=
  forall (R : Type) (api : DropboxAPI R)
         (key_order : gmap string Meta -> list string) (fuel : nat) (dbx : Dbx)
         (s s1 s' : Sys R) (current : gset string),
    lists_the_keys key_order ->
    consume_listing api fuel dbx s = (Ret current, s1) ->
    execute_delta api key_order fuel dbx s = (Ret tt, s') ->
    forall path,
      is_Some (remote_files (state s1) !! path) ->
      path ∉ current ->
      FS.isfile (fs s') path = false
      /\ local_files (state s') !! path = None
      /\ remote_files (state s') !! path = None.

Definition is_key_error (e : PyErr) : Prop := exists k, e = KeyError k.
Definition not_key_error (e : PyErr) : Prop := ~ is_key_error e.

(** The two dictionaries agree far enough for [check_state]: what is known
    remotely is known locally. *)
Definition remote_keys_known {R : Type} (s : Sys R) : Prop :=
  forall k, is_Some (remote_files (state s) !! k) ->
            is_Some (local_files (state s) !! k).

(** The call sends bytes of the file [path]. *)
Definition sends (path : string) (c : Call) : Prop :=
  uploaded_path c = Some path.

(** The call sends no bytes. *)
Definition sends_nothing (c : Call) : Prop := uploaded_path c = None.

(** The names that the local walk must leave out, as the specification
    lists them. *)
Definition excluded_name (filename : string) : Prop :=
  filename = STATE_FILENAME
  \/ (exists rest, filename = "." +:+ rest)
  \/ (exists rest, filename = "@" +:+ rest)
  \/ (exists rest, filename = rest +:+ "~")
  \/ (exists rest, filename = rest +:+ ".pyc").

(** The methods and the library functions are unfolded by hand in the
    proofs, one at a time. *)
Arguments FS.lookup : simpl never.
Arguments FS.exists_ : simpl never.
Arguments FS.isfile : simpl never.
Arguments FS.isdir : simpl never.
Arguments FS.getmtime : simpl never.
Arguments FS.getsize : simpl never.
Arguments FS.listdir : simpl never.
Arguments FS.remove : simpl never.
Arguments FS.rmdir : simpl never.
Arguments FS.mkdir : simpl never.
Arguments FS.makedirs : simpl never.
Arguments FS.write : simpl never.
Arguments FS.walk : simpl never.
Arguments Path.join : simpl never.
Arguments Path.split : simpl never.
Arguments Path.dirname : simpl never.
Arguments resolve_entry : simpl never.
Arguments local_filelist : simpl never.
Arguments read : simpl never.
Arguments read_all : simpl never.
Arguments upload_loop : simpl never.
Arguments upload_send : simpl never.
Arguments upload : simpl never.
Arguments check_state : simpl never.
Arguments delete_local : simpl never.
Arguments delete_remote : simpl never.
Arguments download_remote : simpl never.
Arguments make_local_dir : simpl never.
Arguments process_remote_entry : simpl never.
Arguments consume_pages : simpl never.
Arguments consume_listing : simpl never.
Arguments execute_delta : simpl never.
Arguments check_local : simpl never.
Arguments check_remote : simpl never.
Arguments N.ltb : simpl never.
Arguments N.eqb : simpl never.
Arguments N.div : simpl never.
Arguments N.modulo : simpl never.
Arguments N.min : simpl never.
Arguments N.sub : simpl never.
Arguments N.add : simpl never.
Arguments N.mul : simpl never.
Arguments Z.ltb : simpl never.
Arguments String.append : simpl never.
Arguments String.concat : simpl never.
Arguments pretty : simpl never.

(** ** More vocabulary *)

(** The client a call is made on. *)
Definition call_client (c : Call) : Dbx :=
  match c with
  | CListFolder d _ _ => d
  | CListFolderContinue d _ => d
  | CDownload d _ _ => d
  | CDelete d _ => d
  | CUpload d _ _ _ _ => d
  | CSessionStart d _ _ => d
  | CSessionAppend d _ _ _ => d
  | CSessionFinish d _ _ _ => d
  end.

(** What the local pass may call: a transfer of local bytes or a deletion,
    on the client it was given. *)
Definition local_pass_call (dbx : Dbx) (c : Call) : Prop :=
  call_client c = dbx
  /\ match c with
     | CListFolder _ _ _ | CListFolderContinue _ _ | CDownload _ _ _ => False
     | _ => True
     end.

(** What the local pass can raise. *)
Definition local_pass_error (e : PyErr) : Prop :=
  e = OSError \/ is_key_error e \/ exists msg, e = ApiError msg.

(** The piece of script does not stop for lack of fuel. *)
Definition enough_fuel {R A : Type} (m : M R A) : Prop :=
  forall s, (m s).1 <> OutOfFuel.

(** The line that [print(a1, ..., an)] writes. *)
Definition printed (args : list string) : string :=
  String.concat " " args +:+ Str.NL.

(** The tree once [os.remove(path)] has been tried, [OSError] ignored. *)
Definition after_remove (t : gmap string Node) (path : string) : gmap string Node :=
  match FS.remove t path with Some t1 => t1 | None => t end.

(** The directory that [delete_local] looks at after the deletion. *)
Definition dir_of (path : string) : string :=
  if String.eqb (Path.dirname path) "" then "." else Path.dirname path.

(** [sep in s] for a one-character [sep]. *)
Fixpoint contains (sep : ascii) (s : string) : bool :=
  match s with
  | EmptyString => false
  | String c s' => Ascii.eqb c sep || contains sep s'
  end.

(** A root that [os.walk('.')] reports: the top itself or a path below it. *)
Definition under_top (root : string) : Prop :=
  root = "." \/ exists x, root = "./" +:+ x.

(** A path segment as the service names one: not empty, no slash in it. *)
Definition segment (x : string) : Prop :=
  x <> "" /\ contains Str.SLASH x = false.

(** Between two points of a run nothing was lost: what the dictionaries
    knew they still know, a directory is still a directory and a regular
    file is still a regular file (its content may be new). *)
Definition nothing_lost {R : Type} (s s' : Sys R) : Prop :=
  (forall k, is_Some (local_files (state s) !! k) ->
             is_Some (local_files (state s') !! k))
  /\ (forall k, is_Some (remote_files (state s) !! k) ->
                is_Some (remote_files (state s') !! k))
  /\ (forall k, fs s !! k = Some Dir -> fs s' !! k = Some Dir)
  /\ (forall k a b, fs s !! k = Some (File a b) ->
                    exists a' b', fs s' !! k = Some (File a' b')).

(** The two dictionaries are one and the same mapping. *)
Definition mirrored {R : Type} (s : Sys R) : Prop :=
  local_files (state s) = remote_files (state s).

(** A piece of the script that starts with equal dictionaries leaves them
    equal. *)
Definition stays_mirrored {R : Type} (s s' : Sys R) : Prop :=
  mirrored s -> mirrored s'.

(** * Properties *)

(** ** Sanity checks of the string and path functions *)

Example join_relative : Path.join "Photos" "img.png" = "Photos/img.png".
Proof. reflexivity. Qed.
Example join_on_empty : Path.join "" "photos" = "photos".
Proof. reflexivity. Qed.
Example join_on_root : Path.join "/" "a/b.txt" = "/a/b.txt".
Proof. reflexivity. Qed.
Example split_nested : Path.split "a/b/c.txt" = ("a/b", "c.txt").
Proof. reflexivity. Qed.
Example split_top_level : Path.split "c.txt" = ("", "c.txt").
Proof. reflexivity. Qed.
Example split_under_root : Path.split "/c.txt" = ("/", "c.txt").
Proof. reflexivity. Qed.
Example str_split_two : Str.split Str.SLASH "photos/img.png" = ["photos"; "img.png"].
Proof. reflexivity. Qed.
Example str_split_of_empty : Str.split Str.SLASH "" = [""].
Proof. reflexivity. Qed.
Example valid_dir_root : valid_dir_for_upload "." = true.
Proof. reflexivity. Qed.
Example valid_dir_hidden : valid_dir_for_upload "./src/.git" = false.
Proof. reflexivity. Qed.
Example valid_dir_site : valid_dir_for_upload "./site-packages/x" = false.
Proof. reflexivity. Qed.

(** The walk reaches every level of [deep_fs]; [makedirs] makes every missing
    level of a path. *)
Example walk_reaches_the_leaves :
  local_filelist deep_fs = ["a/top.txt"; "a/b/c/d/leaf.txt"].
Proof. vm_compute. reflexivity. Qed.
Example makedirs_makes_every_level :
  FS.makedirs ∅ "x/y/z"
  = Some (list_to_map [("x", Dir); ("x/y", Dir); ("x/y/z", Dir)]).
Proof. vm_compute. reflexivity. Qed.
Example makedirs_under_a_file : FS.makedirs {[ "x" := File 1 1 ]} "x/y" = None.
Proof. vm_compute. reflexivity. Qed.
Example listdir_of_src :
  FS.listdir filters_fs "src" = Some ["main.py"].
Proof. vm_compute. reflexivity. Qed.
Example rmdir_of_root_fails : FS.rmdir ∅ "." = None.
Proof. reflexivity. Qed.

(** At exactly 140,000,000 bytes the upload is one call. *)
Example threshold_is_one_shot :
  new_calls threshold_sys (upload mock_api main_dbx "big.bin" None threshold_sys).2
  = [one_shot_call main_dbx "big.bin" 140000000].
Proof. vm_compute. reflexivity. Qed.

(** At 150,000,000 bytes, a multiple of the chunk size, the session ends
    with an empty last chunk. *)
Example multiple_of_chunk_finishes_empty :
  last (new_calls big_sys
          (upload mock_api main_dbx "big.bin" None
             (start_sys init_state {[ "big.bin" := File 150000000 10 ]}
                        (mock_net [] false) (Some main_dbx))).2)
  = Some (finish_call main_dbx "big.bin" "session-1" 150000000).
Proof. vm_compute. reflexivity. Qed.

(** ** What a piece of the script leaves alone *)

Section Keeps.

Context {R : Type}.

Global Instance unchanged_preorder {X : Type} (f : Sys R -> X) :
  PreOrder (unchanged f).
Proof.
  split.
  - intros s. reflexivity.
  - intros s1 s2 s3 H12 H23. unfold unchanged in *. congruence.
Qed.

Global Instance emits_preorder (Q : Call -> Prop) : PreOrder (emits (R:=R) Q).
Proof.
  split.
  - intros s. exists []. split; [by rewrite app_nil_r | constructor].
  - intros s1 s2 s3 (n1 & E1 & F1) (n2 & E2 & F2).
    exists (n1 ++ n2). split.
    + rewrite E2, E1. by rewrite <- app_assoc.
    + by apply Forall_app.
Qed.

Lemma emits_new_calls (Q : Call -> Prop) (s s' : Sys R) :
  emits Q s s' -> calls s' = calls s ++ new_calls s s' /\ Forall Q (new_calls s s').
Proof.
  intros (new & E & F). unfold new_calls. rewrite E.
  by rewrite drop_app_length.
Qed.

Lemma emits_weaken (Q Q' : Call -> Prop) (s s' : Sys R) :
  (forall c, Q c -> Q' c) -> emits Q s s' -> emits Q' s s'.
Proof.
  intros HQ (new & E & F). exists new. split; [done|].
  eapply Forall_impl; eauto.
Qed.

Section Rules.

Variable rel : Sys R -> Sys R -> Prop.
Context `{!PreOrder rel}.

Lemma keeps_ret {A : Type} (a : A) : keeps rel (ret a).
Proof. intros s. simpl. reflexivity. Qed.

Lemma keeps_raise {A : Type} (e : PyErr) : keeps rel (raise (A:=A) e).
Proof. intros s. simpl. reflexivity. Qed.

Lemma keeps_out_of_fuel {A : Type} : keeps rel (out_of_fuel (A:=A)).
Proof. intros s. simpl. reflexivity. Qed.

Lemma keeps_get_state : keeps rel get_state.
Proof. intros s. simpl. reflexivity. Qed.

Lemma keeps_get_fs : keeps rel get_fs.
Proof. intros s. simpl. reflexivity. Qed.

Lemma keeps_read_global_dbx : keeps rel read_global_dbx.
Proof. intros s. unfold read_global_dbx. destruct (global_dbx s); simpl; reflexivity. Qed.

Lemma keeps_bind {A B : Type} (m : M R A) (k : A -> M R B) :
  keeps rel m -> (forall a, keeps rel (k a)) -> keeps rel (bind m k).
Proof.
  intros Hm Hk s. unfold bind. specialize (Hm s).
  destruct (m s) as [[a|e|] s1]; simpl in *; [|done..].
  etransitivity; [exact Hm | apply Hk].
Qed.

Lemma keeps_try_except {A : Type} (m : M R A) (h : PyErr -> M R A) :
  keeps rel m -> (forall e, keeps rel (h e)) -> keeps rel (try_except m h).
Proof.
  intros Hm Hh s. unfold try_except. specialize (Hm s).
  destruct (m s) as [[a|e|] s1]; simpl in *; [done| |done].
  etransitivity; [exact Hm | apply Hh].
Qed.

Lemma keeps_for_each {A : Type} (l : list A) (body : A -> M R unit) :
  (forall x, x ∈ l -> keeps rel (body x)) -> keeps rel (for_each l body).
Proof.
  induction l as [|x l IH]; intros Hb; simpl.
  - apply keeps_ret.
  - apply keeps_bind.
    + apply Hb. by left.
    + intros _. apply IH. intros y Hy. apply Hb. by right.
Qed.

Lemma keeps_os_result {A : Type} (o : option A) : keeps rel (os_result o).
Proof. destruct o; [apply keeps_ret | apply keeps_raise]. Qed.

End Rules.

End Keeps.

Section KeepsLeaves.

Context {R : Type}.

Lemma emits_same_calls (Q : Call -> Prop) (s s' : Sys R) :
  calls s' = calls s -> emits Q s s'.
Proof. intros E. exists []. split; [by rewrite app_nil_r | constructor]. Qed.

Lemma emits_one_call (Q : Call -> Prop) (s s' : Sys R) (c : Call) :
  Q c -> calls s' = calls s ++ [c] -> emits Q s s'.
Proof. intros HQ E. exists [c]. split; [done | by constructor]. Qed.

Lemma keeps_emits_call_api {A : Type} (Q : Call -> Prop) (c : Call)
  (f : R -> (string + A) * R) :
  Q c -> keeps (emits Q) (call_api c f).
Proof.
  intros HQ s. unfold call_api. destruct (f (net s)) as [r n]. simpl.
  by apply emits_one_call with c.
Qed.

Lemma keeps_unchanged_call_api {A X : Type} (g : Sys R -> X) (c : Call)
  (f : R -> (string + A) * R) :
  (forall s n cs,
      g {| state := state s; fs := fs s; net := n; global_dbx := global_dbx s;
           calls := cs; stdout := stdout s; next_oid := next_oid s |} = g s) ->
  keeps (unchanged g) (call_api c f).
Proof.
  intros Hg s. unfold call_api. destruct (f (net s)) as [r n]. simpl.
  apply Hg.
Qed.

End KeepsLeaves.

(** Breaks a [keeps] goal down to the primitive actions. *)
Ltac keeps_split :=
  repeat first
    [ match goal with |- PreOrder _ => apply _ end
    | match goal with
      | |- keeps _ (ret _) => apply keeps_ret
      | |- keeps _ (raise _) => apply keeps_raise
      | |- keeps _ out_of_fuel => apply keeps_out_of_fuel
      | |- keeps _ get_state => apply keeps_get_state
      | |- keeps _ get_fs => apply keeps_get_fs
      | |- keeps _ read_global_dbx => apply keeps_read_global_dbx
      | |- keeps _ (os_result _) => apply keeps_os_result
      | |- keeps _ (bind _ _) => apply keeps_bind; [| | intros ?]
      | |- keeps _ (try_except _ _) => apply keeps_try_except; [| | intros ?]
      | |- keeps _ (match ?x with _ => _ end) => destruct x
      end
    | progress unfold os_path_exists, os_path_isfile, os_path_getmtime,
        os_path_getsize, os_listdir, os_remove, os_rmdir, os_makedirs, open_rb,
        local_files_get, local_files_del, remote_files_del, print,
        dbx_files_list_folder, dbx_files_list_folder_continue, dbx_files_delete,
        dbx_files_upload, dbx_files_upload_session_start,
        dbx_files_upload_session_append_v2, dbx_files_upload_session_finish,
        dbx_files_download_to_file ].

(** Closes the goals about primitive actions that do not call the client. *)
Ltac keeps_quiet :=
  try (intros ?; first [ reflexivity | apply emits_same_calls; reflexivity ]).

(** Runs the primitive actions at the head of a computation, up to the
    first test that depends on the system. *)
Ltac run :=
  cbv beta iota delta
    [bind ret raise out_of_fuel try_except get_state get_fs set_state set_fs
     print_end print new_meta read_global_dbx call_api os_result
     os_path_exists os_path_isfile os_path_getmtime os_path_getsize os_listdir
     os_remove os_rmdir os_makedirs open_rb local_files_get local_files_del
     remote_files_del dbx_files_list_folder dbx_files_list_folder_continue
     dbx_files_delete dbx_files_upload dbx_files_upload_session_start
     dbx_files_upload_session_append_v2 dbx_files_upload_session_finish
     dbx_files_download_to_file];
  cbn [state fs net global_dbx calls stdout next_oid fst snd
       path_case_map local_files remote_files
       with_path_case_map with_local_files with_remote_files].
Ltac run_in H :=
  cbv beta iota delta
    [bind ret raise out_of_fuel try_except get_state get_fs set_state set_fs
     print_end print new_meta read_global_dbx call_api os_result
     os_path_exists os_path_isfile os_path_getmtime os_path_getsize os_listdir
     os_remove os_rmdir os_makedirs open_rb local_files_get local_files_del
     remote_files_del dbx_files_list_folder dbx_files_list_folder_continue
     dbx_files_delete dbx_files_upload dbx_files_upload_session_start
     dbx_files_upload_session_append_v2 dbx_files_upload_session_finish
     dbx_files_download_to_file] in H;
  cbn [state fs net global_dbx calls stdout next_oid fst snd
       path_case_map local_files remote_files
       with_path_case_map with_local_files with_remote_files] in H.

Section LocalPassFrame.

Context {R : Type}.
Variable api : DropboxAPI R.

Lemma upload_loop_unfold fuel dbx fr data close sid cur off :
  upload_loop api fuel dbx fr data close sid cur off =
  if close then ret (data, cur)
  else
    match fuel with
    | O => out_of_fuel
    | S fuel' =>
        let! sid' :=
          match sid with
          | None => dbx_files_upload_session_start api dbx data close
          | Some sid0 =>
              do! dbx_files_upload_session_append_v2 api dbx data cur close in
              ret sid0
          end in
        let off' := (off + b_len data)%N in
        do! match cur with
            | None => print_end [Str.TAB +:+ "."] ""
            | Some _ =>
                if (off' mod 100000000 =? 0)%N then
                  do! print [".: "; pretty off'] in
                  print_end [Str.TAB] ""
                else print_end ["."] ""
            end in
        let cur' := Some {| session_id := sid'; offset := off' |} in
        let '(data', fr') := read fr CHUNK in
        let close' := (b_len data' <? CHUNK)%N in
        upload_loop api fuel' dbx fr' data' close' (Some sid') cur' off'
    end.
Proof. destruct fuel; reflexivity. Qed.

Lemma keeps_weaken {A : Type} (rel rel' : Sys R -> Sys R -> Prop) (m : M R A) :
  (forall s s', rel s s' -> rel' s s') -> keeps rel m -> keeps rel' m.
Proof. intros Hsub Hm s. apply Hsub, Hm. Qed.

Lemma machine_fs (s s' : Sys R) : unchanged machine s s' -> unchanged fs s s'.
Proof. unfold unchanged, machine. by intros [=]. Qed.

Lemma machine_state (s s' : Sys R) : unchanged machine s s' -> unchanged state s s'.
Proof. unfold unchanged, machine. by intros [=]. Qed.

(** The transfer of an upload talks to the service and to the operator,
    and does nothing else. *)
Lemma upload_loop_keeps_machine fuel dbx fr data close sid cur off :
  keeps (unchanged machine) (upload_loop api fuel dbx fr data close sid cur off).
Proof.
  revert fr data close sid cur off.
  induction fuel as [|fuel IH]; intros; rewrite upload_loop_unfold;
    keeps_split; keeps_quiet; try (apply keeps_unchanged_call_api; done).
  apply IH.
Qed.

Lemma upload_send_keeps_machine dbx path :
  keeps (unchanged machine) (upload_send api dbx path).
Proof.
  unfold upload_send. keeps_split; keeps_quiet;
    try (apply keeps_unchanged_call_api; done).
  apply upload_loop_keeps_machine.
Qed.

(** Uploading reads the file tree and never writes it. *)
Lemma upload_send_keeps_fs dbx path :
  keeps (unchanged fs) (upload_send api dbx path).
Proof.
  eapply keeps_weaken; [apply machine_fs | apply upload_send_keeps_machine].
Qed.

Lemma upload_keeps_fs dbx path because :
  keeps (unchanged fs) (upload api dbx path because).
Proof.
  unfold upload. keeps_split; keeps_quiet. apply upload_send_keeps_fs.
Qed.

Lemma check_state_keeps_fs dbx path :
  keeps (unchanged fs) (check_state api dbx path).
Proof.
  unfold check_state. keeps_split; keeps_quiet; apply upload_keeps_fs.
Qed.

Lemma delete_remote_keeps_fs dbx path :
  keeps (unchanged fs) (delete_remote api dbx path).
Proof.
  unfold delete_remote. keeps_split; keeps_quiet.
  apply keeps_unchanged_call_api; done.
Qed.

Lemma check_local_keeps_fs dbx :
  keeps (unchanged fs) (check_local api dbx).
Proof.
  unfold check_local. keeps_split; keeps_quiet.
  - apply keeps_for_each; [apply _|]. intros x _. apply check_state_keeps_fs.
  - apply keeps_for_each; [apply _|]. intros x _.
    keeps_split. apply delete_remote_keeps_fs.
Qed.

Lemma upload_loop_sends fuel dbx fr data close sid cur off s r s' :
  b_src data = fo_path fr ->
  upload_loop api fuel dbx fr data close sid cur off s = (r, s') ->
  emits (sends (fo_path fr)) s s'
  /\ forall d c, r = Ret (d, c) -> b_src d = fo_path fr.
Proof.
  revert fr data close sid cur off s.
  induction fuel as [|fuel IH]; intros fr data close sid cur off s Hsrc Hrun;
    rewrite upload_loop_unfold in Hrun; destruct close;
    try (injection Hrun as <- <-;
         split; [reflexivity | intros d c [=]; congruence]).
  unfold bind at 1 in Hrun.
  match type of Hrun with
  | (let (_, _) := ?m s in _) = _ =>
      assert (Hfirst : keeps (emits (sends (fo_path fr))) m);
      [ destruct sid; keeps_split; keeps_quiet;
        apply keeps_emits_call_api; unfold sends; simpl; by rewrite Hsrc
      | specialize (Hfirst s); destruct (m s) as [[sid'|e|] s1] ]
  end; simpl in Hfirst;
    try (injection Hrun as <- <-; split; [exact Hfirst | intros d c [=]]).
  unfold bind at 1 in Hrun.
  match type of Hrun with
  | (let (_, _) := ?m s1 in _) = _ =>
      assert (Hprog : keeps (emits (sends (fo_path fr))) m);
      [ keeps_split; keeps_quiet
      | specialize (Hprog s1); destruct (m s1) as [[[]|e|] s2] ]
  end; simpl in Hprog;
    try (injection Hrun as <- <-;
         split; [by etransitivity | intros d c [=]]).
  unfold read in Hrun.
  apply IH in Hrun as [He Hd]; [| reflexivity]. simpl in He, Hd.
  split; [| exact Hd].
  etransitivity; [exact Hfirst|]. etransitivity; [exact Hprog | exact He].
Qed.

Lemma upload_send_emits dbx path :
  keeps (emits (sends path)) (upload_send api dbx path).
Proof.
  intros s. unfold upload_send. run.
  destruct (FS.getsize (fs s) path) as [size|] eqn:Hsize; run; [| reflexivity].
  destruct (LARGE_FILE <? size)%N; run; rewrite Hsize; run.
  - unfold read. cbn [fo_path fo_size fo_pos b_len].
    match goal with
    | |- context [upload_loop api ?fu dbx ?fr ?d ?c None None ?o s] =>
        destruct (upload_loop api fu dbx fr d c None None o s) as [r s1] eqn:E;
        apply upload_loop_sends in E as [He Hd]; [| reflexivity]
    end.
    cbn [fo_path] in He, Hd.
    destruct r as [[d c]|e|]; run; try exact He.
    specialize (Hd d c eq_refl).
    etransitivity; [exact He|].
    destruct (files_upload_session_finish _ _ _ _ _ _) as [[msg|res] n]; run;
      (apply emits_one_call with (CSessionFinish dbx d c
         {| ci_path := Path.join "/" path; ci_mode := overwrite; ci_mute := true |});
       [unfold sends; simpl; by rewrite Hd | reflexivity]).
  - unfold read_all, read. cbn [fo_path fo_size fo_pos].
    destruct (files_upload _ _ _ _ _ _ _) as [[msg|res] n]; run;
      match goal with
      | |- emits _ _ {| calls := _ ++ [?c] |} => by apply emits_one_call with c
      end.
Qed.

Lemma upload_emits dbx path because :
  keeps (emits (sends path)) (upload api dbx path because).
Proof.
  unfold upload. keeps_split; keeps_quiet. apply upload_send_emits.
Qed.

Lemma check_state_emits dbx path :
  keeps (emits (sends path)) (check_state api dbx path).
Proof.
  unfold check_state. keeps_split; keeps_quiet; apply upload_emits.
Qed.

Lemma delete_remote_emits dbx path :
  keeps (emits sends_nothing) (delete_remote api dbx path).
Proof.
  unfold delete_remote. keeps_split; keeps_quiet.
  by apply keeps_emits_call_api.
Qed.

End LocalPassFrame.

(** ** C8: the exclusion filters of the local walk *)

Lemma startswith_app (p rest : string) : Str.startswith (p +:+ rest) p = true.
Proof.
  unfold Str.startswith. induction p as [|c p IH]; simpl.
  - by destruct rest.
  - destruct (ascii_dec c c); [exact IH | done].
Qed.

Lemma endswith_unfold (s suf : string) :
  Str.endswith s suf =
  if String.eqb s suf then true
  else match s with
       | EmptyString => false
       | String _ s' => Str.endswith s' suf
       end.
Proof. destruct s; reflexivity. Qed.

Lemma endswith_app (rest suf : string) : Str.endswith (rest +:+ suf) suf = true.
Proof.
  induction rest as [|c rest IH].
  - change ("" +:+ suf) with suf. rewrite endswith_unfold.
    by rewrite String.eqb_refl.
  - change (String c rest +:+ suf) with (String c (rest +:+ suf)).
    rewrite endswith_unfold, IH. by destruct (String.eqb _ _).
Qed.

Lemma excluded_name_not_valid (filename : string) :
  excluded_name filename -> valid_filename_for_upload filename = false.
Proof.
  unfold valid_filename_for_upload, excluded_name.
  intros [-> | [[r ->] | [[r ->] | [[r ->] | [r ->]]]]]; cbn [existsb id].
  - reflexivity.
  - rewrite (startswith_app "." r).
    repeat (rewrite orb_true_l || rewrite orb_true_r). reflexivity.
  - rewrite (startswith_app "@" r).
    repeat (rewrite orb_true_l || rewrite orb_true_r). reflexivity.
  - rewrite (endswith_app r "~").
    repeat (rewrite orb_true_l || rewrite orb_true_r). reflexivity.
  - rewrite (endswith_app r ".pyc").
    repeat (rewrite orb_true_l || rewrite orb_true_r). reflexivity.
Qed.

Lemma elem_of_keys {V : Type} (d : gmap string V) (k : string) :
  k ∈ keys d <-> is_Some (d !! k).
Proof.
  unfold keys. rewrite list_elem_of_fmap. split.
  - intros ([k' v] & -> & Hin). apply elem_of_map_to_list in Hin. by eexists.
  - intros [v Hv]. exists (k, v). split; [done|]. by apply elem_of_map_to_list.
Qed.

Lemma local_filelist_selected (t : gmap string Node) (p : string) :
  p ∈ local_filelist t ->
  exists root dirnames filenames filename,
    (root, dirnames, filenames) ∈ FS.walk t "."
    /\ filename ∈ filenames
    /\ p = Str.drop2 (Path.join root filename)
    /\ valid_dir_for_upload root = true
    /\ valid_filename_for_upload filename = true.
Proof.
  unfold local_filelist. rewrite list_elem_of_In, in_flat_map.
  intros ([[root dirnames] filenames] & Hin & Hp).
  destruct (valid_dir_for_upload root) eqn:Hdir; [| by destruct Hp].
  apply list_elem_of_In, list_elem_of_fmap in Hp as (filename & -> & Hf).
  apply list_elem_of_In, filter_In in Hf as [Hf Hvalid].
  exists root, dirnames, filenames, filename.
  repeat split; try done; by apply list_elem_of_In.
Qed.

Section LocalWalk.

Context {R : Type}.
Variable api : DropboxAPI R.

Lemma emits_from (Q : Call -> Prop) (s0 s s' : Sys R) :
  calls s = calls s0 -> emits Q s s' -> emits Q s0 s'.
Proof. intros E (new & E' & F). exists new. by rewrite <- E. Qed.

(** The second half of [check_local], from the list of files on. *)
Lemma check_local_loops_emit dbx (filelist : list string) :
  keeps (emits (fun c => forall p, uploaded_path c = Some p -> p ∈ filelist))
    (do! for_each filelist (check_state api dbx) in
     do! print [Str.NL +:+ "Checking For Deleted Local Files"] in
     let! st := get_state in
     let oldlist := keys (local_files st) in
     for_each oldlist
       (fun file => if decide (file ∈ filelist) then ret tt
                    else delete_remote api dbx file)).
Proof.
  keeps_split; keeps_quiet.
  - apply keeps_for_each; [apply _|]. intros x Hx s.
    eapply emits_weaken; [| apply check_state_emits].
    intros c Hc p Hp. unfold sends in Hc. congruence.
  - apply keeps_for_each; [apply _|]. intros x Hx.
    keeps_split. intros s.
    eapply emits_weaken; [| apply delete_remote_emits].
    intros c Hc p Hp. unfold sends_nothing in Hc. congruence.
Qed.

Lemma check_local_uploads dbx (s : Sys R) :
  emits (fun c => forall p, uploaded_path c = Some p -> p ∈ local_filelist (fs s))
        s (check_local api dbx s).2.
Proof.
  unfold check_local. unfold bind at 1, print, print_end at 1.
  cbv beta iota. unfold bind at 1, get_fs. cbv beta iota. cbn [fs].
  eapply emits_from; [| apply check_local_loops_emit]. reflexivity.
Qed.

End LocalWalk.

(** [C8] Exclusion filters.  A name that equals the state-file name,
    starts with [.] or [@], or ends with [~] or [.pyc] is rejected by
    [valid_filename_for_upload]; and every file whose bytes the local pass
    sends was met by the walk, in a directory the walk accepts, under a
    name that is not one of those. *)
Theorem excluded_names_never_uploaded :
  (forall filename, excluded_name filename ->
                    valid_filename_for_upload filename = false)
  /\ forall (R : Type) (api : DropboxAPI R) (dbx : Dbx) (s : Sys R) (p : string),
      p ∈ uploaded_paths (new_calls s (check_local api dbx s).2) ->
      exists root dirnames filenames filename,
        (root, dirnames, filenames) ∈ FS.walk (fs s) "."
        /\ filename ∈ filenames
        /\ p = Str.drop2 (Path.join root filename)
        /\ valid_dir_for_upload root = true
        /\ ~ excluded_name filename.
Proof.
  split; [exact excluded_name_not_valid|].
  intros R api dbx s p Hp.
  destruct (emits_new_calls _ _ _ (check_local_uploads api dbx s)) as [_ Hall].
  unfold uploaded_paths in Hp. apply list_elem_of_omap in Hp as (c & Hc & Hup).
  rewrite Forall_forall in Hall. specialize (Hall c Hc p Hup).
  apply local_filelist_selected in Hall
    as (root & dirnames & filenames & filename & Hw & Hf & -> & Hdir & Hvalid).
  exists root, dirnames, filenames, filename. repeat split; try done.
  intros Hex. apply excluded_name_not_valid in Hex. congruence.
Qed.

(** On [filters_fs] the local pass uploads [notes.txt] and [src/main.py],
    and nothing else. *)
Lemma excluded_names_never_uploaded_witness :
  uploaded_paths
    (new_calls (start_sys init_state filters_fs (mock_net [] false) (Some main_dbx))
       (check_local mock_api main_dbx
          (start_sys init_state filters_fs (mock_net [] false) (Some main_dbx))).2)
  = ["notes.txt"; "src/main.py"]
  /\ exists root dirnames filenames filename,
      (root, dirnames, filenames) ∈ FS.walk filters_fs "."
      /\ filename ∈ filenames
      /\ "notes.txt" = Str.drop2 (Path.join root filename)
      /\ valid_dir_for_upload root = true
      /\ ~ excluded_name filename.
Proof.
  split; [vm_compute; reflexivity|].
  apply (proj2 excluded_names_never_uploaded Mock mock_api main_dbx
           (start_sys init_state filters_fs (mock_net [] false) (Some main_dbx))
           "notes.txt").
  vm_compute. left.
Defined.

(** ** What [delete_remote] does *)

(** The call is made; when it raises, the state is kept and the failure
    printed; when it returns and both dictionaries know the path, the
    record is dropped from both; an entry changes only when it returned. *)
Lemma delete_remote_cases :
  forall (R : Type) (api : DropboxAPI R) (dbx : Dbx) (path : string) (s : Sys R),
    let out := delete_remote api dbx path s in
    let announce :=
      String.concat " " [Str.TAB +:+ "Deleting On Dropbox: "; path;
                         " -- File Deleted Locally"] +:+ Str.NL in
    calls out.2 = calls s ++ [CDelete dbx ("/" +:+ path)]
    /\ (forall msg n,
          files_delete api dbx ("/" +:+ path) (net s) = (inl msg, n) ->
          out.1 = Ret tt
          /\ state out.2 = state s
          /\ stdout out.2 =
             (stdout s +:+ announce)
               +:+ String.concat " " [Str.TAB +:+ "!Remote Delete Failed!"] +:+ Str.NL)
    /\ (forall n,
          files_delete api dbx ("/" +:+ path) (net s) = (inr tt, n) ->
          is_Some (local_files (state s) !! path) ->
          is_Some (remote_files (state s) !! path) ->
          out.1 = Ret tt
          /\ local_files (state out.2) = delete path (local_files (state s))
          /\ remote_files (state out.2) = delete path (remote_files (state s))
          /\ stdout out.2 = stdout s +:+ announce)
    /\ (forall q,
          local_files (state out.2) !! q <> local_files (state s) !! q
          \/ remote_files (state out.2) !! q <> remote_files (state s) !! q ->
          q = path
          /\ exists n, files_delete api dbx ("/" +:+ path) (net s) = (inr tt, n)).
Proof.
  intros R api dbx path s out announce. subst out announce.
  unfold delete_remote. run.
  destruct (files_delete api dbx ("/" +:+ path) (net s)) as [[msg|[]] n] eqn:Hdel; run.
  - split; [done|]. split; [|split].
    + intros msg' n' _. done.
    + intros n' [=].
    + intros q [H|H]; by destruct H.
  - destruct (local_files (state s) !! path) as [ml|] eqn:Hl; run;
      [destruct (remote_files (state s) !! path) as [mr|] eqn:Hr; run |];
      (split; [done|]); (split; [intros msg' n' [=] |]);
      (split; [intros n' _ Hl' Hr'; try by destruct Hl'; try by destruct Hr' |]).
    all: intros q [H|H]; destruct (decide (q = path)) as [->|Hne];
      try (by destruct H);
      try (rewrite lookup_delete_ne in H by congruence; by destruct H);
      (split; [done | by exists n]).
Qed.

(** ** Which exceptions can leave a piece of the script *)

Section RaisesOnly.

Context {R : Type}.
Variable E : PyErr -> Prop.

Lemma ro_ret {A : Type} (a : A) : raises_only (R:=R) E (ret a).
Proof. intros s e [=]. Qed.

Lemma ro_raise {A : Type} (e : PyErr) : E e -> raises_only (R:=R) E (raise (A:=A) e).
Proof. intros He s e' [= <-]. exact He. Qed.

Lemma ro_out_of_fuel {A : Type} : raises_only (R:=R) E (out_of_fuel (A:=A)).
Proof. intros s e [=]. Qed.

Lemma ro_get_state : raises_only (R:=R) E get_state.
Proof. intros s e [=]. Qed.

Lemma ro_get_fs : raises_only (R:=R) E get_fs.
Proof. intros s e [=]. Qed.

Lemma ro_set_state f : raises_only (R:=R) E (set_state f).
Proof. intros s e [=]. Qed.

Lemma ro_set_fs t : raises_only (R:=R) E (set_fs t).
Proof. intros s e [=]. Qed.

Lemma ro_print_end args end_ : raises_only (R:=R) E (print_end args end_).
Proof. intros s e [=]. Qed.

Lemma ro_new_meta r t : raises_only (R:=R) E (new_meta r t).
Proof. intros s e [=]. Qed.

Lemma ro_read_global_dbx :
  E (NameError "dbx") -> raises_only (R:=R) E read_global_dbx.
Proof.
  intros He s e. unfold read_global_dbx.
  destruct (global_dbx s); intros [=]. by subst.
Qed.

Lemma ro_os_result {A : Type} (o : option A) :
  E OSError -> raises_only (R:=R) E (os_result o).
Proof. intros He. destruct o; [apply ro_ret | by apply ro_raise]. Qed.

Lemma ro_call_api {A : Type} (c : Call) (f : R -> (string + A) * R) :
  (forall msg, E (ApiError msg)) -> raises_only E (call_api c f).
Proof.
  intros He s e. unfold call_api. destruct (f (net s)) as [[msg|a] n]; intros [=].
  subst. apply He.
Qed.

Lemma ro_bind {A B : Type} (m : M R A) (k : A -> M R B) :
  raises_only E m -> (forall a, raises_only E (k a)) -> raises_only E (bind m k).
Proof.
  intros Hm Hk s e. unfold bind. specialize (Hm s).
  destruct (m s) as [[a|e'|] s1]; simpl in *.
  - apply Hk.
  - intros [= <-]. by apply Hm.
  - intros [=].
Qed.

Lemma ro_try_except {A : Type} (m : M R A) (h : PyErr -> M R A) :
  (forall e, raises_only E (h e)) -> raises_only E (try_except m h).
Proof.
  intros Hh s e. unfold try_except.
  destruct (m s) as [[a|e'|] s1]; simpl; [intros [=] | apply Hh | intros [=]].
Qed.

Lemma ro_for_each {A : Type} (l : list A) (body : A -> M R unit) :
  (forall x, x ∈ l -> raises_only E (body x)) -> raises_only E (for_each l body).
Proof.
  induction l as [|x l IH]; intros Hb; simpl.
  - apply ro_ret.
  - apply ro_bind.
    + apply Hb. by left.
    + intros _. apply IH. intros y Hy. apply Hb. by right.
Qed.

End RaisesOnly.

(** Breaks a [raises_only] goal down to conditions on the exceptions that
    the primitive actions raise. *)
Ltac ro_split :=
  repeat first
    [ match goal with
      | |- raises_only _ (ret _) => apply ro_ret
      | |- raises_only _ (raise _) => apply ro_raise
      | |- raises_only _ out_of_fuel => apply ro_out_of_fuel
      | |- raises_only _ get_state => apply ro_get_state
      | |- raises_only _ get_fs => apply ro_get_fs
      | |- raises_only _ (set_state _) => apply ro_set_state
      | |- raises_only _ (set_fs _) => apply ro_set_fs
      | |- raises_only _ (print_end _ _) => apply ro_print_end
      | |- raises_only _ (new_meta _ _) => apply ro_new_meta
      | |- raises_only _ read_global_dbx => apply ro_read_global_dbx
      | |- raises_only _ (os_result _) => apply ro_os_result
      | |- raises_only _ (call_api _ _) => apply ro_call_api; intros ?
      | |- raises_only _ (bind _ _) => apply ro_bind; [| intros ?]
      | |- raises_only _ (try_except _ _) => apply ro_try_except; intros ?
      | |- raises_only _ (match ?x with _ => _ end) => destruct x
      end
    | progress unfold os_path_exists, os_path_isfile, os_path_getmtime,
        os_path_getsize, os_listdir, os_remove, os_rmdir, os_makedirs, open_rb,
        local_files_get, local_files_del, remote_files_del, print,
        dbx_files_list_folder, dbx_files_list_folder_continue, dbx_files_delete,
        dbx_files_upload, dbx_files_upload_session_start,
        dbx_files_upload_session_append_v2, dbx_files_upload_session_finish,
        dbx_files_download_to_file ].

Section LocalPassErrors.

Context {R : Type}.
Variable api : DropboxAPI R.

Lemma os_error_not_key : not_key_error OSError.
Proof. intros [k [=]]. Qed.

Lemma api_error_not_key msg : not_key_error (ApiError msg).
Proof. intros [k [=]]. Qed.

Lemma upload_loop_no_key_error fuel dbx fr data close sid cur off :
  raises_only not_key_error (upload_loop api fuel dbx fr data close sid cur off).
Proof.
  revert fr data close sid cur off.
  induction fuel as [|fuel IH]; intros; rewrite upload_loop_unfold;
    ro_split; try apply api_error_not_key.
  apply IH.
Qed.

Lemma upload_send_no_key_error dbx path :
  raises_only not_key_error (upload_send api dbx path).
Proof.
  unfold upload_send. ro_split;
    try apply api_error_not_key; try apply os_error_not_key.
  apply upload_loop_no_key_error.
Qed.

Lemma upload_no_key_error dbx path because :
  raises_only not_key_error (upload api dbx path because).
Proof.
  unfold upload. ro_split; try apply os_error_not_key.
  apply upload_send_no_key_error.
Qed.

(** Nothing at all is raised by [delete_remote]. *)
Lemma delete_remote_raises_nothing dbx path :
  raises_only (fun _ => False) (delete_remote api dbx path).
Proof. unfold delete_remote. ro_split. Qed.

End LocalPassErrors.

(** ** What an upload and a check leave behind *)

Section LocalPassSemantics.

Context {R : Type}.
Variable api : DropboxAPI R.

(** What [upload_send] returns was returned by the call that commits the
    file. *)
Lemma upload_send_result dbx path (s : Sys R) result s' :
  upload_send api dbx path s = (Ret result, s') ->
  committed_by api dbx (Path.join "/" path) result.
Proof.
  unfold upload_send. run.
  destruct (FS.getsize (fs s) path) as [size|] eqn:Hsize; run; [| intros [=]].
  destruct (LARGE_FILE <? size)%N; run; rewrite Hsize; run.
  - destruct (read _ _) as [data fr].
    destruct (upload_loop _ _ _ _ _ _ _ _ _ _) as [[[d c]|e|] s1]; run;
      [| intros [=] ..].
    destruct (files_upload_session_finish _ _ _ _ _ _) as [[msg|res] n] eqn:Hfin;
      run; intros [=]. subst. right. by exists d, c, (net s1), n.
  - destruct (read_all _) as [data fr].
    destruct (files_upload _ _ _ _ _ _ _) as [[msg|res] n] eqn:Hup;
      run; intros [=]. subst. left. by exists data, (net s), n.
Qed.

(** An upload that returns has stored one new record under [path] in both
    dictionaries: the revision is the one the service returned, the time
    is the time of the file.  An upload that does not return has stored
    nothing. *)
Lemma upload_inv dbx path because (s : Sys R) r s' :
  upload api dbx path because s = (r, s') ->
  fs s' = fs s
  /\ match r with
     | Ret _ =>
         exists meta,
           FS.getmtime (fs s) path = Some (modified meta)
           /\ state s' = with_remote_files <[path := meta]>
                           (with_local_files <[path := meta]> (state s))
           /\ oid meta = next_oid s
           /\ exists result,
               rev meta = f_rev result
               /\ committed_by api dbx (Path.join "/" path) result
     | _ => state s' = state s
     end.
Proof.
  intros Hrun. unfold upload in Hrun.
  unfold bind at 1, print, print_end at 1 in Hrun. cbv beta iota in Hrun.
  unfold bind at 1 in Hrun.
  match type of Hrun with
  | context [upload_send api dbx path ?s1] =>
      pose proof (upload_send_keeps_machine api dbx path s1) as Hm;
      destruct (upload_send api dbx path s1) as [rs s2] eqn:Hsend
  end.
  unfold unchanged, machine in Hm. cbn [state fs global_dbx next_oid snd] in Hm.
  injection Hm as Hst Hfs Hg Ho.
  destruct rs as [result|e|]; run_in Hrun.
  - rewrite Hfs in Hrun.
    destruct (FS.getmtime (fs s) path) as [t|]; run_in Hrun;
      injection Hrun as <- <-; cbn [fs state]; split; try done.
    exists {| oid := next_oid s2; rev := f_rev result; modified := t |}.
    split; [done|]. split; [by rewrite Hst|]. split; [done|].
    exists result. split; [done|]. by eapply upload_send_result.
  - by injection Hrun as <- <-.
  - by injection Hrun as <- <-.
Qed.

(** A settled path is left alone by [check_state]. *)
Lemma check_state_settled dbx path (s : Sys R) :
  settled s path -> check_state api dbx path s = (Ret tt, s).
Proof.
  intros (m & t & Hl & [mr Hr] & Ht & Hle).
  unfold check_state. run. rewrite Hr. run. rewrite Ht. run. rewrite Hl. run.
  destruct (Z.ltb_spec (modified m) t) as [Hlt|_]; [lia | reflexivity].
Qed.

Lemma check_state_inv dbx path (s : Sys R) r s' :
  check_state api dbx path s = (r, s') ->
  fs s' = fs s
  /\ (forall q, q <> path ->
                local_files (state s') !! q = local_files (state s) !! q
                /\ remote_files (state s') !! q = remote_files (state s) !! q)
  /\ (r = Ret tt -> settled s' path)
  /\ (remote_keys_known s ->
      remote_keys_known s' /\ forall e, r = Raise e -> not_key_error e).
Proof.
  intros Hrun. unfold check_state in Hrun. run_in Hrun.
  assert (Hup : forall because,
             upload api dbx path because s = (r, s') ->
             fs s' = fs s
             /\ (forall q, q <> path ->
                   local_files (state s') !! q = local_files (state s) !! q
                   /\ remote_files (state s') !! q = remote_files (state s) !! q)
             /\ (r = Ret tt -> settled s' path)
             /\ (remote_keys_known s ->
                 remote_keys_known s' /\ forall e, r = Raise e -> not_key_error e)).
  { intros because Hu.
    pose proof (upload_no_key_error api dbx path because s) as Hnk.
    rewrite Hu in Hnk. cbn [fst] in Hnk.
    apply upload_inv in Hu as [Hfs Hst].
    split; [exact Hfs|]. unfold settled, remote_keys_known.
    destruct r as [[]|e|].
    - destruct Hst as (meta & Ht & -> & _). cbn [local_files remote_files
        with_local_files with_remote_files].
      split; [| split].
      + intros q Hq. by rewrite !lookup_insert_ne.
      + intros _. exists meta, (modified meta).
        rewrite !lookup_insert_eq, Hfs. repeat split; eauto. lia.
      + intros Hk. split; [| intros e [=]].
        intros k.
        destruct (decide (k = path)) as [->|Hne].
        * rewrite !lookup_insert_eq. eauto.
        * rewrite !lookup_insert_ne by congruence. apply Hk.
    - rewrite Hst. split; [done|]. split; [intros [=]|].
      intros Hk. split; [done|].
      intros e' [= <-]. by apply Hnk.
    - rewrite Hst. split; [done|]. split; [intros [=]|].
      intros Hk. split; [done|]. intros e' [=]. }
  destruct (remote_files (state s) !! path) as [mr|] eqn:Hr; run_in Hrun;
    [| by eapply Hup].
  destruct (FS.getmtime (fs s) path) as [t|] eqn:Ht; run_in Hrun.
  - destruct (local_files (state s) !! path) as [m|] eqn:Hl; run_in Hrun.
    + destruct (Z.ltb_spec (modified m) t) as [Hlt|Hge]; [by eapply Hup|].
      injection Hrun as <- <-. repeat split; try done.
      intros _. exists m, t. repeat split; eauto.
    + injection Hrun as <- <-. repeat split; try done.
      intros e [= <-]. destruct (H path) as [x Hx]; [eauto | congruence].
  - injection Hrun as <- <-. repeat split; try done.
    intros e [= <-]. apply os_error_not_key.
Qed.

End LocalPassSemantics.

Section LocalPassLoops.

Context {R : Type}.
Variable api : DropboxAPI R.

(** The first loop of [check_local]. *)
Lemma check_states_inv dbx (filelist : list string) (s : Sys R) r s' :
  for_each filelist (check_state api dbx) s = (r, s') ->
  fs s' = fs s
  /\ (r = Ret tt -> forall q, q ∈ filelist \/ settled s q -> settled s' q)
  /\ (remote_keys_known s ->
      remote_keys_known s' /\ forall e, r = Raise e -> not_key_error e).
Proof.
  revert s. induction filelist as [|x l IH]; intros s Hrun; simpl in Hrun.
  - injection Hrun as <- <-. split; [done|]. split.
    + intros _ q [Hq|Hq]; [by apply elem_of_nil in Hq | done].
    + intros Hk. split; [done | intros e [=]].
  - unfold bind in Hrun.
    destruct (check_state api dbx x s) as [r1 s1] eqn:Hx.
    apply check_state_inv in Hx as (Hfs1 & Hframe & Hset & Hkeys).
    destruct r1 as [[]|e|].
    + apply IH in Hrun as (Hfs & Hall & Hk). split; [congruence|]. split.
      * intros Hr q Hq. apply Hall; [done|].
        destruct (decide (q = x)) as [->|Hne]; [right; by apply Hset|].
        destruct Hq as [Hq|Hq].
        -- left. apply elem_of_cons in Hq as [?|?]; [done | done].
        -- right. destruct Hq as (m & t & Hl & Hr' & Ht & Hle).
           destruct (Hframe q Hne) as [El Er].
           exists m, t. rewrite El, Er, Hfs1. done.
      * intros Hknown. destruct (Hkeys Hknown) as [Hk1 _]. by apply Hk.
    + injection Hrun as <- <-. split; [done|]. split; [intros [=]|].
      intros Hknown. destruct (Hkeys Hknown) as [Hk1 He]. split; [done|].
      intros e' [= <-]. by apply He.
    + injection Hrun as <- <-. split; [done|]. split; [intros [=]|].
      intros Hknown. destruct (Hkeys Hknown) as [Hk1 He]. split; [done|].
      intros e' [=].
Qed.

(** When every file of the list is settled, the loop changes nothing. *)
Lemma check_states_settled dbx (filelist : list string) (s : Sys R) :
  (forall q, q ∈ filelist -> settled s q) ->
  for_each filelist (check_state api dbx) s = (Ret tt, s).
Proof.
  induction filelist as [|x l IH]; intros Hall; simpl; [reflexivity|].
  unfold bind. rewrite check_state_settled by (apply Hall; by left).
  apply IH. intros q Hq. apply Hall. by right.
Qed.

(** [delete_remote] always returns; it drops the path from one, both or
    none of the dictionaries and touches nothing else of the state. *)
Lemma delete_remote_effect dbx path (s : Sys R) :
  exists dl dr : bool,
    (delete_remote api dbx path s).1 = Ret tt
    /\ fs (delete_remote api dbx path s).2 = fs s
    /\ state (delete_remote api dbx path s).2
       = with_remote_files (if dr then delete path else id)
           (with_local_files (if dl then delete path else id) (state s)).
Proof.
  unfold delete_remote. run.
  destruct (files_delete api dbx ("/" +:+ path) (net s)) as [[msg|[]] n]; run.
  - exists false, false. by destruct (state s).
  - destruct (local_files (state s) !! path); run.
    + destruct (remote_files (state s) !! path); run.
      * exists true, true. by destruct (state s).
      * exists true, false. by destruct (state s).
    + exists false, false. by destruct (state s).
Qed.

(** The second loop of [check_local]. *)
Lemma delete_loop_inv dbx (filelist oldlist : list string) (s : Sys R) r s' :
  for_each oldlist
    (fun file => if decide (file ∈ filelist) then ret tt
                 else delete_remote api dbx file) s = (r, s') ->
  r = Ret tt
  /\ fs s' = fs s
  /\ local_files (state s') ⊆ local_files (state s)
  /\ remote_files (state s') ⊆ remote_files (state s)
  /\ forall q, q ∈ filelist ->
               local_files (state s') !! q = local_files (state s) !! q
               /\ remote_files (state s') !! q = remote_files (state s) !! q.
Proof.
  revert s. induction oldlist as [|x l IH]; intros s Hrun; simpl in Hrun.
  - by injection Hrun as <- <-.
  - unfold bind in Hrun. destruct (decide (x ∈ filelist)) as [Hin|Hout].
    + cbn in Hrun. by apply IH.
    + destruct (delete_remote_effect dbx x s) as (dl & dr & Hr & Hfs & Hst).
      destruct (delete_remote api dbx x s) as [r1 s1]. cbn [fst snd] in *.
      subst r1. apply IH in Hrun as (-> & Hfs' & Hl & Hrm & Hframe).
      rewrite Hst in *. cbn [local_files remote_files with_local_files
                               with_remote_files] in *.
      split; [done|]. split; [congruence|].
      split; [| split].
      * etransitivity; [exact Hl|]. destruct dl; [apply delete_subseteq | done].
      * etransitivity; [exact Hrm|]. destruct dr; [apply delete_subseteq | done].
      * intros q Hq. destruct (Hframe q Hq) as [-> ->].
        assert (x <> q) by congruence.
        destruct dl, dr; by rewrite ?lookup_delete_ne.
Qed.

End LocalPassLoops.

Section LocalPass.

Context {R : Type}.
Variable api : DropboxAPI R.

(** [check_local], one loop after the other. *)
Lemma check_local_unfold dbx (s : Sys R) :
  check_local api dbx s =
  let s0 := (print [Str.NL +:+ "Checking For New Or Updated Local Files"] s).2 in
  let filelist := local_filelist (fs s) in
  match for_each filelist (check_state api dbx) s0 with
  | (Ret _, sa) =>
      let sb := (print [Str.NL +:+ "Checking For Deleted Local Files"] sa).2 in
      for_each (keys (local_files (state sa)))
        (fun file => if decide (file ∈ filelist) then ret tt
                     else delete_remote api dbx file) sb
  | (Raise e, sa) => (Raise e, sa)
  | (OutOfFuel, sa) => (OutOfFuel, sa)
  end.
Proof.
  unfold check_local. run.
  destruct (for_each _ _ _) as [[[]|e|] sa]; reflexivity.
Qed.

(** A pass that returns leaves every walked file settled. *)
Lemma check_local_settles dbx (s s1 : Sys R) :
  check_local api dbx s = (Ret tt, s1) ->
  fs s1 = fs s /\ forall q, q ∈ local_filelist (fs s) -> settled s1 q.
Proof.
  rewrite check_local_unfold. cbv zeta.
  destruct (for_each _ (check_state api dbx) _) as [ra sa] eqn:Ea.
  apply check_states_inv in Ea as (Hfs & Hall & _).
  destruct ra as [[]|e|]; [| intros [=] ..]. intros Hd.
  apply delete_loop_inv in Hd as (_ & Hfs' & _ & _ & Hframe).
  cbn [fs state snd print print_end] in *.
  split; [congruence|].
  intros q Hq. destruct (Hall eq_refl q (or_introl Hq)) as (m & t & Hl & Hr & Ht & Hle).
  destruct (Hframe q Hq) as [El Er].
  exists m, t. rewrite El, Er, Hfs', Hfs. cbn [fs]. rewrite <- Hfs. done.
Qed.

End LocalPass.

(** ** C3: a failed remote delete leaves the state alone *)

Section Retry.

Context {R : Type}.
Variable api : DropboxAPI R.

(** The first loop of [check_local] forgets no local record. *)
Lemma check_states_keep_local dbx (filelist : list string) (s s' : Sys R) k :
  for_each filelist (check_state api dbx) s = (Ret tt, s') ->
  is_Some (local_files (state s) !! k) -> is_Some (local_files (state s') !! k).
Proof.
  revert s. induction filelist as [|x l IH]; intros s Hrun Hk; simpl in Hrun.
  - by injection Hrun as <-.
  - unfold bind in Hrun.
    destruct (check_state api dbx x s) as [[[]|e|] s1] eqn:Hx; try discriminate.
    apply check_state_inv in Hx as (_ & Hframe & Hset & _).
    apply (IH s1 Hrun). destruct (decide (k = x)) as [->|Hne].
    + destruct (Hset eq_refl) as (m & t & Hm & _). by eexists.
    + destruct (Hframe k Hne) as [-> _]. exact Hk.
Qed.

(** The second loop calls [files_delete] for every file that is not in
    the list. *)
Lemma delete_loop_calls dbx (filelist oldlist : list string) (s : Sys R) r s' :
  for_each oldlist
    (fun file => if decide (file ∈ filelist) then ret tt
                 else delete_remote api dbx file) s = (r, s') ->
  exists new,
    calls s' = calls s ++ new
    /\ forall file, file ∈ oldlist -> file ∉ filelist ->
                    CDelete dbx ("/" +:+ file) ∈ new.
Proof.
  revert s. induction oldlist as [|x l IH]; intros s Hrun; simpl in Hrun.
  - injection Hrun as _ <-. exists []. split; [by rewrite app_nil_r|].
    intros file Hin. by apply elem_of_nil in Hin.
  - unfold bind in Hrun. destruct (decide (x ∈ filelist)) as [Hin|Hout].
    + cbn in Hrun. apply IH in Hrun as (new & Hc & Hall). exists new.
      split; [done|]. intros file Hf Hnot.
      apply elem_of_cons in Hf as [-> | Hf]; [done | by apply Hall].
    + destruct (delete_remote_effect api dbx x s) as (dl & dr & Hr & _).
      pose proof (delete_remote_cases R api dbx x s) as Hcases.
      cbv zeta in Hcases. destruct Hcases as [Hcall _].
      destruct (delete_remote api dbx x s) as [r1 s1]. cbn [fst snd] in *.
      subst r1. apply IH in Hrun as (new & Hc & Hall).
      exists (CDelete dbx ("/" +:+ x) :: new). split.
      * rewrite Hc, Hcall, <- app_assoc. done.
      * intros file Hf Hnot. apply elem_of_cons in Hf as [-> | Hf];
          [by left | right; by apply Hall].
Qed.

(** A local pass that returns has called [files_delete] for every path
    that the state knew locally and that the walk did not meet. *)
Lemma check_local_calls_delete dbx (s s' : Sys R) path :
  check_local api dbx s = (Ret tt, s') ->
  is_Some (local_files (state s) !! path) ->
  path ∉ local_filelist (fs s) ->
  CDelete dbx ("/" +:+ path) ∈ new_calls s s'.
Proof.
  rewrite check_local_unfold. cbv zeta.
  destruct (for_each _ (check_state api dbx) _) as [ra sa] eqn:Ea.
  destruct ra as [[]|e|]; [| intros [=] ..]. intros Hloop Hknown Hnot.
  pose proof (check_states_keep_local _ _ _ _ path Ea Hknown) as Hstill.
  pose proof (keeps_for_each (emits (fun _ => True)) (local_filelist (fs s))
                (check_state api dbx)) as Hgrow.
  specialize (Hgrow ltac:(intros x _ s0; eapply emits_weaken;
                          [| apply check_state_emits]; done)).
  specialize (Hgrow (print [Str.NL +:+ "Checking For New Or Updated Local Files"] s).2).
  rewrite Ea in Hgrow. destruct Hgrow as (newa & Hca & _).
  apply delete_loop_calls in Hloop as (newb & Hcb & Hall).
  cbn [calls snd print print_end] in Hca, Hcb.
  unfold new_calls. rewrite Hcb, Hca, <- app_assoc, drop_app_length.
  apply elem_of_app. right. apply Hall; [| done]. by apply elem_of_keys.
Qed.

End Retry.

(** [C3] Remote-delete failure.  [delete_remote] makes the call;
    when the call raises, [delete_remote] returns normally, the state is
    what it was, and the operator reads the failure after the announcement
    of the deletion.  When the call returns and both dictionaries know the
    path, the record is dropped from both.  An entry of either dictionary
    changes only when the call returned.  After a failure the path is
    still known locally, so a later local pass that returns, on a tree
    where the walk does not meet the path, makes the call again. *)
Theorem remote_delete_failure_keeps_state :
  forall (R : Type) (api : DropboxAPI R) (dbx : Dbx) (path : string) (s : Sys R),
    let out := delete_remote api dbx path s in
    let announce :=
      String.concat " " [Str.TAB +:+ "Deleting On Dropbox: "; path;
                         " -- File Deleted Locally"] +:+ Str.NL in
    calls out.2 = calls s ++ [CDelete dbx ("/" +:+ path)]
    /\ (forall msg n,
          files_delete api dbx ("/" +:+ path) (net s) = (inl msg, n) ->
          out.1 = Ret tt
          /\ state out.2 = state s
          /\ stdout out.2 =
             (stdout s +:+ announce)
               +:+ String.concat " " [Str.TAB +:+ "!Remote Delete Failed!"] +:+ Str.NL)
    /\ (forall n,
          files_delete api dbx ("/" +:+ path) (net s) = (inr tt, n) ->
          is_Some (local_files (state s) !! path) ->
          is_Some (remote_files (state s) !! path) ->
          out.1 = Ret tt
          /\ local_files (state out.2) = delete path (local_files (state s))
          /\ remote_files (state out.2) = delete path (remote_files (state s))
          /\ stdout out.2 = stdout s +:+ announce)
    /\ (forall q,
          local_files (state out.2) !! q <> local_files (state s) !! q
          \/ remote_files (state out.2) !! q <> remote_files (state s) !! q ->
          q = path
          /\ exists n, files_delete api dbx ("/" +:+ path) (net s) = (inr tt, n))
    /\ (forall msg n,
          files_delete api dbx ("/" +:+ path) (net s) = (inl msg, n) ->
          is_Some (local_files (state s) !! path) ->
          forall (dbx' : Dbx) (s2 s3 : Sys R),
            state s2 = state out.2 ->
            path ∉ local_filelist (fs s2) ->
            check_local api dbx' s2 = (Ret tt, s3) ->
            CDelete dbx' ("/" +:+ path) ∈ new_calls s2 s3).
Proof.
  intros R api dbx path s out announce.
  pose proof (delete_remote_cases R api dbx path s) as Hcases.
  cbv zeta in Hcases. destruct Hcases as (Hcall & Hfail & Hok & Honly).
  split; [exact Hcall|]. split; [exact Hfail|]. split; [exact Hok|].
  split; [exact Honly|].
  intros msg n Hraise Hknown dbx' s2 s3 Hstate Hnot Hpass.
  destruct (Hfail msg n Hraise) as (_ & Hsame & _).
  apply (check_local_calls_delete api dbx' s2 s3 path Hpass); [| exact Hnot].
  rewrite Hstate. subst out. by rewrite Hsame.
Qed.

(** The witness of [C3]: the service refuses the deletion of [gone.txt];
    the next local pass asks again. *)
Lemma remote_delete_failure_keeps_state_witness :
  let out := delete_remote mock_api main_dbx "gone.txt" (gone_sys true) in
  files_delete mock_api main_dbx "/gone.txt" (net (gone_sys true))
  = (inl "delete refused", net (gone_sys true))
  /\ out.1 = Ret tt
  /\ state out.2 = gone_state
  /\ CDelete main_dbx "/gone.txt"
       ∈ new_calls out.2 (check_local mock_api main_dbx out.2).2.
Proof.
  intros out. split; [reflexivity|].
  pose proof (remote_delete_failure_keeps_state Mock mock_api main_dbx
                "gone.txt" (gone_sys true)) as H.
  cbv zeta in H. destruct H as (_ & Hfail & _ & _ & Hretry).
  destruct (Hfail "delete refused" (net (gone_sys true)) eq_refl) as (H1 & H2 & _).
  split; [exact H1|]. split; [exact H2|].
  apply (Hretry "delete refused" (net (gone_sys true)) eq_refl).
  - vm_compute. eauto.
  - reflexivity.
  - vm_compute. intros Hin. by apply elem_of_nil in Hin.
  - vm_compute. reflexivity.
Defined.

(** ** C4: the local pass is idempotent *)

Lemma sends_nothing_uploaded_paths (cs : list Call) :
  Forall sends_nothing cs -> uploaded_paths cs = [].
Proof.
  induction 1 as [|c cs Hc _ IH]; [reflexivity|].
  unfold uploaded_paths in *. unfold sends_nothing in Hc.
  change (omap uploaded_path (c :: cs))
    with (match uploaded_path c with
          | Some y => y :: omap uploaded_path cs
          | None => omap uploaded_path cs
          end).
  by rewrite Hc.
Qed.

(** [C4] Local-pass idempotence.  After a local pass that returned, a
    second pass over the same tree returns too, sends no byte of any file,
    leaves the tree alone, changes no record (a record can only disappear,
    through a deletion that is retried), and every walked file keeps the
    record that the first pass left in both dictionaries. *)
Theorem local_pass_idempotent :
  forall (R : Type) (api : DropboxAPI R) (dbx : Dbx) (s s1 : Sys R),
    check_local api dbx s = (Ret tt, s1) ->
    exists s2,
      check_local api dbx s1 = (Ret tt, s2)
      /\ uploaded_paths (new_calls s1 s2) = []
      /\ fs s2 = fs s1
      /\ local_files (state s2) ⊆ local_files (state s1)
      /\ remote_files (state s2) ⊆ remote_files (state s1)
      /\ forall path, path ∈ local_filelist (fs s1) ->
           is_Some (local_files (state s1) !! path)
           /\ is_Some (remote_files (state s1) !! path)
           /\ local_files (state s2) !! path = local_files (state s1) !! path
           /\ remote_files (state s2) !! path = remote_files (state s1) !! path.
Proof.
  intros R api dbx s s1 Hfirst.
  apply check_local_settles in Hfirst as [Hfs Hsettled].
  rewrite <- Hfs in Hsettled.
  rewrite check_local_unfold. cbv zeta.
  set (s0 := (print _ s1).2).
  assert (Hs0 : forall q, q ∈ local_filelist (fs s1) -> settled s0 q).
  { intros q Hq. exact (Hsettled q Hq). }
  rewrite (check_states_settled api dbx _ s0 Hs0).
  set (sb := (print _ s0).2).
  destruct (for_each _ _ sb) as [r2 s2] eqn:Hloop.
  assert (Hemit : emits sends_nothing sb s2).
  { pose proof (keeps_for_each (emits sends_nothing)
                  (keys (local_files (state s0)))
                  (fun file => if decide (file ∈ local_filelist (fs s1)) then ret tt
                               else delete_remote api dbx file)) as Hk.
    specialize (Hk ltac:(intros x _; keeps_split; apply delete_remote_emits) sb).
    by rewrite Hloop in Hk. }
  apply delete_loop_inv in Hloop as (-> & Hfs2 & Hl & Hr & Hframe).
  exists s2. split; [reflexivity|]. split; [| split; [exact Hfs2 | split; [exact Hl|]]].
  - apply (emits_from _ s1) in Hemit; [| reflexivity].
    apply emits_new_calls in Hemit as [_ Hall].
    by apply sends_nothing_uploaded_paths.
  - split; [exact Hr|]. intros path Hpath.
    destruct (Hsettled path Hpath) as (m & t & Hm & Hrm & _).
    destruct (Hframe path Hpath) as [El Er].
    split; [by eexists|]. split; [exact Hrm|]. split; [exact El | exact Er].
Qed.

(** The witness of [C4]: two passes over [filters_fs], from a new state. *)
Lemma local_pass_idempotent_witness :
  let s := start_sys init_state filters_fs (mock_net [] false) (Some main_dbx) in
  let s1 := (check_local mock_api main_dbx s).2 in
  uploaded_paths (new_calls s s1) = ["notes.txt"; "src/main.py"]
  /\ exists s2,
      check_local mock_api main_dbx s1 = (Ret tt, s2)
      /\ uploaded_paths (new_calls s1 s2) = []
      /\ fs s2 = fs s1
      /\ local_files (state s2) ⊆ local_files (state s1)
      /\ remote_files (state s2) ⊆ remote_files (state s1)
      /\ forall path, path ∈ local_filelist (fs s1) ->
           is_Some (local_files (state s1) !! path)
           /\ is_Some (remote_files (state s1) !! path)
           /\ local_files (state s2) !! path = local_files (state s1) !! path
           /\ remote_files (state s2) !! path = remote_files (state s1) !! path.
Proof.
  intros s s1. split; [vm_compute; reflexivity|].
  apply (local_pass_idempotent Mock mock_api main_dbx s s1).
  vm_compute. reflexivity.
Defined.

(** ** C10: [check_state] relies on the dictionaries agreeing on their keys *)

(** [C10] A path known remotely, unknown locally and present in the tree
    makes [check_state] raise [KeyError] on that path, with nothing
    uploaded and nothing changed.  When every key of [remote_files] is a
    key of [local_files], the local pass never raises [KeyError]. *)
Theorem check_state_needs_matching_keys :
  (forall (R : Type) (api : DropboxAPI R) (dbx : Dbx) (path : string) (s : Sys R) m t,
      remote_files (state s) !! path = Some m ->
      local_files (state s) !! path = None ->
      FS.getmtime (fs s) path = Some t ->
      check_state api dbx path s = (Raise (KeyError path), s))
  /\ (forall (R : Type) (api : DropboxAPI R) (dbx : Dbx) (s : Sys R),
        remote_keys_known s ->
        forall k, (check_local api dbx s).1 <> Raise (KeyError k)).
Proof.
  split.
  - intros R api dbx path s m t Hr Hl Ht.
    unfold check_state. run. rewrite Hr. run. rewrite Ht. run. rewrite Hl. run.
    reflexivity.
  - intros R api dbx s Hknown k.
    rewrite check_local_unfold. cbv zeta.
    destruct (for_each _ (check_state api dbx) _) as [ra sa] eqn:Ea.
    apply check_states_inv in Ea as (_ & _ & Hk).
    destruct (Hk Hknown) as [_ Hne].
    destruct ra as [[]|e|]; cbn [fst].
    + destruct (for_each _ _ _) as [r2 s2] eqn:Hloop.
      apply delete_loop_inv in Hloop as (-> & _). intros [=].
    + intros [= ->]. apply (Hne _ eq_refl). by exists k.
    + intros [=].
Qed.

(** The witness of [C10]: [notes.txt] is in the tree and known remotely
    only; the check raises, and so does the local pass. *)
Lemma check_state_needs_matching_keys_witness :
  check_state mock_api main_dbx "notes.txt" remote_only_sys
  = (Raise (KeyError "notes.txt"), remote_only_sys)
  /\ (check_local mock_api main_dbx remote_only_sys).1 = Raise (KeyError "notes.txt")
  /\ forall k, (check_local mock_api main_dbx
                  (start_sys init_state filters_fs (mock_net [] false)
                     (Some main_dbx))).1 <> Raise (KeyError k).
Proof.
  split; [| split].
  - apply (proj1 check_state_needs_matching_keys Mock mock_api main_dbx "notes.txt"
             remote_only_sys {| oid := 0; rev := "r1"; modified := 7 |} 10);
      reflexivity.
  - vm_compute. reflexivity.
  - apply (proj2 check_state_needs_matching_keys Mock mock_api main_dbx).
    intros k [x Hx]. vm_compute in Hx. discriminate.
Defined.

(** ** What a download leaves behind *)

Section Transfers.

Context {R : Type}.
Variable api : DropboxAPI R.

Lemma write_getmtime (t t' : gmap string Node) (p : string) (size : N) (mtime : Z) :
  p <> "." -> FS.write t p size mtime = Some t' -> FS.getmtime t' p = Some mtime.
Proof.
  unfold FS.write, FS.getmtime, FS.lookup. intros Hp.
  apply String.eqb_neq in Hp. rewrite Hp.
  destruct (t !! FS.key p) as [[]|]; try done;
    (destruct (FS.isdir t (FS.parent (FS.key p))); [| done]);
    intros [= <-]; by rewrite lookup_insert_eq.
Qed.

Lemma write_not_root (t : gmap string Node) (size : N) (mtime : Z) :
  FS.write t "." size mtime = None.
Proof. reflexivity. Qed.

(** The end of [download_remote], from the call on. *)
Lemma download_tail_inv dbx path (s s' : Sys R) :
  (let! result := dbx_files_download_to_file api dbx path (Path.join "/" path) in
   let! mtime := os_path_getmtime path in
   let! meta := new_meta (f_rev result) mtime in
   do! set_state (with_local_files <[path := meta]>) in
   set_state (with_remote_files <[path := meta]>)) s = (Ret tt, s') ->
  exists meta d,
    files_download_to_file api dbx path (Path.join "/" path) (net s)
    = (inr d, net s')
    /\ calls s' = calls s ++ [CDownload dbx path (Path.join "/" path)]
    /\ local_files (state s') !! path = Some meta
    /\ remote_files (state s') !! path = Some meta
    /\ rev meta = f_rev (dl_meta d)
    /\ FS.getmtime (fs s') path = Some (modified meta)
    /\ oid meta = next_oid s.
Proof.
  run.
  destruct (files_download_to_file _ _ _ _ _) as [[msg|d] n] eqn:Hd; run;
    [intros [=] |].
  destruct (FS.write (fs s) path (dl_size d) (dl_mtime d)) as [t2|] eqn:Hw; run;
    [| intros [=]].
  assert (Ht : FS.getmtime t2 path = Some (dl_mtime d)).
  { eapply write_getmtime; [| exact Hw]. intros ->.
    by rewrite write_not_root in Hw. }
  rewrite Ht. run. intros [= <-]. cbn [state fs net calls].
  exists {| oid := next_oid s; rev := f_rev (dl_meta d); modified := dl_mtime d |}, d.
  cbn [local_files remote_files with_local_files with_remote_files].
  rewrite !lookup_insert_eq. done.
Qed.

(** [download_remote], with its end kept folded. *)
Lemma download_remote_unfold dbx path because (s : Sys R) :
  download_remote api dbx path because s =
  let s0 := (print [Str.TAB +:+ "Downloading: "; path; or_empty because] s).2 in
  let head := (Path.split path).1 in
  let finish :=
    let! result := dbx_files_download_to_file api dbx path (Path.join "/" path) in
    let! mtime := os_path_getmtime path in
    let! meta := new_meta (f_rev result) mtime in
    do! set_state (with_local_files <[path := meta]>) in
    set_state (with_remote_files <[path := meta]>) in
  if negb (head =? "")%string && negb (FS.exists_ (fs s) head) then
    match FS.makedirs (fs s) head with
    | Some t1 => finish (set_fs t1 s0).2
    | None => (Raise OSError, s0)
    end
  else finish s0.
Proof.
  unfold download_remote. destruct (Path.split path) as [head tail].
  cbv zeta. cbn [fst]. run.
  destruct (negb (head =? "")%string && negb (FS.exists_ (fs s) head)); run;
    [destruct (FS.makedirs (fs s) head); run |]; reflexivity.
Qed.

(** A download that returns has made one call, asked in the state the
    service was in, and has stored one new record under [path] in both
    dictionaries, with the revision that this call returned and the time of
    the file written. *)
Lemma download_remote_answered dbx path because (s s' : Sys R) :
  download_remote api dbx path because s = (Ret tt, s') ->
  exists meta d,
    files_download_to_file api dbx path (Path.join "/" path) (net s)
    = (inr d, net s')
    /\ calls s' = calls s ++ [CDownload dbx path (Path.join "/" path)]
    /\ local_files (state s') !! path = Some meta
    /\ remote_files (state s') !! path = Some meta
    /\ rev meta = f_rev (dl_meta d)
    /\ FS.getmtime (fs s') path = Some (modified meta)
    /\ oid meta = next_oid s.
Proof.
  rewrite download_remote_unfold. cbv zeta.
  destruct (negb _ && negb _).
  - destruct (FS.makedirs (fs s) _) as [t1|]; [| intros [=]].
    intros Hrun. apply download_tail_inv in Hrun. exact Hrun.
  - intros Hrun. apply download_tail_inv in Hrun. exact Hrun.
Qed.

Lemma download_remote_inv dbx path because (s s' : Sys R) :
  download_remote api dbx path because s = (Ret tt, s') ->
  exists meta d n n',
    files_download_to_file api dbx path (Path.join "/" path) n = (inr d, n')
    /\ local_files (state s') !! path = Some meta
    /\ remote_files (state s') !! path = Some meta
    /\ rev meta = f_rev (dl_meta d)
    /\ FS.getmtime (fs s') path = Some (modified meta)
    /\ oid meta = next_oid s.
Proof.
  intros Hrun.
  apply download_remote_answered in Hrun as (meta & d & Hcall & _ & Hrest).
  by exists meta, d, (net s), (net s').
Qed.

End Transfers.

(** ** C2: one-shot and chunked transfers *)

Section ChunkedTransfer.

Context {R : Type}.
Variable api : DropboxAPI R.
Variable dbx : Dbx.
Variable path : string.
Variable size : N.

Variable q : nat.
Hypothesis q_def : q = N.to_nat (size / CHUNK).

Lemma chunk_bounds : (size = chunk_offset q + size mod CHUNK)%N
                     /\ (size mod CHUNK < CHUNK)%N.
Proof.
  unfold chunk_offset. rewrite q_def, N2Nat.id. split.
  - rewrite N.mul_comm. apply N.div_mod'.
  - by apply N.mod_lt.
Qed.

Lemma read_full_chunk (k : nat) :
  (k < q)%nat ->
  read {| fo_path := path; fo_size := size; fo_pos := chunk_offset k |} CHUNK
  = (full_chunk path k,
     {| fo_path := path; fo_size := size; fo_pos := chunk_offset (S k) |}).
Proof.
  intros Hk. destruct chunk_bounds as [Hsize Hr].
  unfold read, full_chunk. cbn [fo_path fo_size fo_pos].
  assert (Hmin : (N.min CHUNK (size - chunk_offset k) = CHUNK)%N).
  { unfold chunk_offset in *. clear q_def.
    generalize dependent (size mod CHUNK)%N. unfold CHUNK. lia. }
  rewrite Hmin. do 2 f_equal. unfold chunk_offset, CHUNK. lia.
Qed.

Lemma read_last_chunk :
  (read {| fo_path := path; fo_size := size; fo_pos := chunk_offset q |} CHUNK).1
  = {| b_src := path; b_off := chunk_offset q; b_len := (size mod CHUNK)%N |}.
Proof.
  destruct chunk_bounds as [Hsize Hr].
  unfold read. cbn [fo_path fo_size fo_pos fst]. f_equal.
  unfold chunk_offset in *. clear q_def.
  generalize dependent (size mod CHUNK)%N. unfold CHUNK. lia.
Qed.

Lemma chunk_offset_S (k : nat) : (chunk_offset k + CHUNK = chunk_offset (S k))%N.
Proof. unfold chunk_offset, CHUNK. lia. Qed.

(** The loop, entered with the [k]-th chunk read and [k] chunks sent:
    it sends the full chunks that remain and hands the rest of the file
    and the cursor to the call that finishes the session. *)
Lemma upload_loop_trace (fuel k : nat) (sid_opt : option string) (s s' : Sys R) d c :
  (k <= q)%nat -> (q - k < fuel)%nat -> (sid_opt = None <-> k = 0%nat) ->
  let fr0 := {| fo_path := path; fo_size := size; fo_pos := chunk_offset k |} in
  upload_loop api fuel dbx (read fr0 CHUNK).2 (read fr0 CHUNK).1
    (b_len (read fr0 CHUNK).1 <? CHUNK)%N sid_opt
    ((fun sid => cursor_at sid k) <$> sid_opt) (chunk_offset k) s
  = (Ret (d, c), s') ->
  exists sid,
    (forall sid0, sid_opt = Some sid0 -> sid0 = sid)
    /\ calls s' = calls s ++ (chunk_call dbx path sid <$> seq k (q - k))
    /\ d = {| b_src := path; b_off := chunk_offset q; b_len := (size mod CHUNK)%N |}
    /\ ((0 < q)%nat -> c = Some (cursor_at sid q))
    /\ match sid_opt with
       | Some _ => appended api dbx path sid k (q - k) (net s) = Some (net s')
       | None =>
           (q = 0%nat /\ net s' = net s)
           \/ exists n1,
               files_upload_session_start api dbx (full_chunk path 0) false (net s)
               = (inr sid, n1)
               /\ appended api dbx path sid 1 (q - 1) n1 = Some (net s')
       end.
Proof.
  revert k sid_opt s. induction fuel as [|fuel IH]; intros k sid_opt s Hk Hfuel Hsid fr0 Hrun;
    [lia|].
  subst fr0. destruct (decide (k = q)) as [->|Hne].
  - rewrite read_last_chunk in Hrun. cbn [b_len] in Hrun.
    destruct chunk_bounds as [_ Hr]. apply N.ltb_lt in Hr. rewrite Hr in Hrun.
    rewrite upload_loop_unfold in Hrun. injection Hrun as <- <- <-.
    exists (default "" sid_opt). rewrite Nat.sub_diag. cbn [seq fmap list_fmap].
    rewrite app_nil_r.
    split; [by intros sid0 ->|]. split; [done|]. split; [done|]. split.
    + intros Hq. destruct sid_opt as [sid0|]; [done|].
      destruct Hsid as [Hsid _]. specialize (Hsid eq_refl). lia.
    + destruct sid_opt as [sid0|]; [done|]. left. split; [| done].
      destruct Hsid as [Hsid _]. by apply Hsid.
  - assert (Hlt : (k < q)%nat) by lia.
    rewrite (read_full_chunk k Hlt) in Hrun. cbn [fst snd b_len full_chunk] in Hrun.
    rewrite N.ltb_irrefl in Hrun. rewrite upload_loop_unfold in Hrun.
    cbv zeta in Hrun. cbn [b_len] in Hrun. rewrite chunk_offset_S in Hrun.
    fold (full_chunk path k) in Hrun.
    destruct (read {| fo_path := path; fo_size := size;
                      fo_pos := chunk_offset (S k) |} CHUNK) as [data' fr'] eqn:Hread.
    assert (Hnext : forall sid s1,
               upload_loop api fuel dbx fr' data' (b_len data' <? CHUNK)%N (Some sid)
                 (Some {| session_id := sid; offset := chunk_offset (S k) |})
                 (chunk_offset (S k)) s1 = (Ret (d, c), s') ->
               calls s' = calls s1 ++ (chunk_call dbx path sid <$> seq (S k) (q - S k))
               /\ d = {| b_src := path; b_off := chunk_offset q;
                         b_len := (size mod CHUNK)%N |}
               /\ ((0 < q)%nat -> c = Some (cursor_at sid q))
               /\ appended api dbx path sid (S k) (q - S k) (net s1) = Some (net s')).
    { intros sid s1 Hloop.
      specialize (IH (S k) (Some sid) s1 ltac:(lia) ltac:(lia) ltac:(done)).
      cbv zeta in IH. rewrite Hread in IH. cbn [fst snd fmap option_fmap option_map] in IH.
      destruct (IH Hloop) as (sid1 & Hsame & Hc & Hd & Hcur & Happ).
      rewrite <- (Hsame sid eq_refl) in *. done. }
    replace (q - k)%nat with (S (q - S k)) by lia. cbn [seq fmap list_fmap].
    destruct sid_opt as [sid0|].
    + assert (Hk0 : k <> 0%nat) by (intros ->; by destruct Hsid as [_ Hs]; specialize (Hs eq_refl)).
      cbn [fmap option_fmap option_map] in Hrun. run_in Hrun.
      destruct (files_upload_session_append_v2 _ _ _ _ _ _) as [[msg|[]] n] eqn:Hcall;
        run_in Hrun; [discriminate|].
      destruct (_ =? 0)%N; run_in Hrun;
        apply Hnext in Hrun as (Hc & Hd & Hcur & Happ); cbn [calls net] in Hc, Happ;
        (exists sid0; split; [by intros ? [= ->] |];
         split; [rewrite Hc, <- app_assoc; cbn [app]; destruct k; done |];
         split; [done|]; split; [done|];
         cbn [appended]; fold (cursor_at sid0 k); by rewrite Hcall).
    + assert (Hk0 : k = 0%nat) by (by apply Hsid). subst k.
      cbn [fmap option_fmap option_map] in Hrun. run_in Hrun.
      destruct (files_upload_session_start _ _ _ _ _) as [[msg|sid] n] eqn:Hcall;
        run_in Hrun; [discriminate|].
      apply Hnext in Hrun as (Hc & Hd & Hcur & Happ); cbn [calls net] in Hc, Happ.
      exists sid. split; [intros ? [=] |].
      split; [rewrite Hc, <- app_assoc; done |]. split; [done|]. split; [done|].
      right. exists n. split; [done | exact Happ].
Qed.

Lemma bind_enough_fuel {A B : Type} (m : M R A) (k : A -> M R B) (s : Sys R) :
  (m s).1 <> OutOfFuel ->
  (forall a s1, (k a s1).1 <> OutOfFuel) ->
  (bind m k s).1 <> OutOfFuel.
Proof.
  intros Hm Hk. unfold bind. destruct (m s) as [[a|e|] s1]; cbn [fst] in *;
    [apply Hk | done | done].
Qed.

(** The fuel given to the loop is enough: one turn per full chunk. *)
Lemma upload_loop_enough_fuel (fuel k : nat) sid_opt cur off (s : Sys R) :
  (k <= q)%nat -> (q - k < fuel)%nat ->
  let fr0 := {| fo_path := path; fo_size := size; fo_pos := chunk_offset k |} in
  (upload_loop api fuel dbx (read fr0 CHUNK).2 (read fr0 CHUNK).1
     (b_len (read fr0 CHUNK).1 <? CHUNK)%N sid_opt cur off s).1 <> OutOfFuel.
Proof.
  revert k sid_opt cur off s.
  induction fuel as [|fuel IH]; intros k sid_opt cur off s Hk Hfuel fr0; [lia|].
  subst fr0. destruct (decide (k = q)) as [->|Hne].
  - rewrite read_last_chunk. cbn [b_len].
    destruct chunk_bounds as [_ Hr]. apply N.ltb_lt in Hr. rewrite Hr.
    by rewrite upload_loop_unfold.
  - assert (Hlt : (k < q)%nat) by lia.
    rewrite (read_full_chunk k Hlt). cbn [fst snd b_len full_chunk].
    rewrite N.ltb_irrefl, upload_loop_unfold. cbv zeta. cbn [b_len].
    specialize (IH (S k)). cbv zeta in IH.
    destruct (read {| fo_path := path; fo_size := size;
                      fo_pos := chunk_offset (S k) |} CHUNK) as [data' fr'].
    cbn [fst snd] in IH.
    apply bind_enough_fuel.
    + destruct sid_opt; run;
        match goal with
        | |- context [files_upload_session_append_v2 ?a ?b ?c ?d ?e ?n] =>
            by destruct (files_upload_session_append_v2 a b c d e n) as [[?|[]] ?]
        | |- context [files_upload_session_start ?a ?b ?c ?d ?n] =>
            by destruct (files_upload_session_start a b c d n) as [[?|?] ?]
        end.
    + intros sid' s1. apply bind_enough_fuel.
      * destruct cur; [destruct (_ =? 0)%N |]; by run.
      * intros _ s2. apply IH; lia.
Qed.

Lemma many_chunks : (LARGE_FILE < size)%N -> (0 < q)%nat.
Proof.
  intros Hlarge. destruct chunk_bounds as [Hsize Hr].
  unfold chunk_offset in Hsize. clear q_def.
  generalize dependent (size mod CHUNK)%N. unfold CHUNK, LARGE_FILE in *. lia.
Qed.

(** The calls of [upload_send]. *)
Lemma upload_send_trace (s s1 : Sys R) result :
  FS.getsize (fs s) path = Some size ->
  upload_send api dbx path s = (Ret result, s1) ->
  ((LARGE_FILE < size)%N ->
   exists sid, calls s1 = calls s ++ session_calls dbx path sid size
               /\ session_answered api dbx path size (net s) sid result (net s1))
  /\ ((size <= LARGE_FILE)%N ->
      calls s1 = calls s ++ [one_shot_call dbx path size]
      /\ files_upload api dbx {| b_src := path; b_off := 0; b_len := size |}
           (Path.join "/" path) overwrite true (net s)
         = (inr result, net s1)).
Proof.
  intros Hsize. unfold upload_send. run. rewrite Hsize. run.
  destruct (N.ltb_spec LARGE_FILE size) as [Hlarge|Hsmall]; run; rewrite Hsize; run.
  - intros Hrun. split; [intros _ | lia].
    change 0%N with (chunk_offset 0) in Hrun.
    destruct (read {| fo_path := path; fo_size := size; fo_pos := chunk_offset 0 |} CHUNK)
      as [data fr] eqn:Hread.
    rewrite <- q_def in Hrun.
    destruct (upload_loop _ _ _ _ _ _ _ _ _ _) as [[[d c]|e|] s2] eqn:Hloop; run_in Hrun;
      [| discriminate ..].
    pose proof (upload_loop_trace (S q) 0 None s s2 d c ltac:(lia) ltac:(lia)
                  ltac:(done)) as Htrace.
    cbv zeta in Htrace. rewrite Hread in Htrace.
    cbn [fst snd fmap option_fmap option_map] in Htrace.
    destruct (Htrace Hloop) as (sid & _ & Hc & -> & Hcur & Hans).
    pose proof (many_chunks Hlarge) as Hq.
    rewrite (Hcur Hq) in Hrun.
    destruct (files_upload_session_finish _ _ _ _ _ _) as [[msg|res] n] eqn:Hfin;
      run_in Hrun; [discriminate|].
    injection Hrun as <- <-. cbn [calls net]. exists sid. split.
    + unfold session_calls, finish_call. cbv zeta. rewrite <- !q_def.
      rewrite Nat.sub_0_r in Hc.
      rewrite Hc, <- app_assoc. done.
    + unfold session_answered. cbv zeta. rewrite <- !q_def.
      destruct Hans as [[Hzero _] | (n1 & Hstart & Happ)]; [lia|].
      exists n1, (net s2). done.
  - intros Hrun. split; [lia | intros _].
    unfold read_all, read in Hrun. cbn [fo_path fo_size fo_pos] in Hrun.
    assert (Hall : N.min (size - 0) (size - 0) = size) by lia.
    rewrite Hall in Hrun.
    destruct (files_upload _ _ _ _ _ _ _) as [[msg|res] n] eqn:Hup; run_in Hrun;
      [discriminate|].
    injection Hrun as <- <-. cbn [calls net]. done.
Qed.

End ChunkedTransfer.

(** An upload that returns made the calls of its transfer and no other. *)
(** A transfer that returns has found the size of the file. *)
Lemma upload_send_size {R : Type} (api : DropboxAPI R) dbx path (s : Sys R) result s1 :
  upload_send api dbx path s = (Ret result, s1) ->
  exists size, FS.getsize (fs s) path = Some size.
Proof.
  unfold upload_send. run.
  destruct (FS.getsize (fs s) path) as [size|]; run; [by exists size | intros [=]].
Qed.

(** An upload that returns, taken apart: the line it prints, the transfer,
    which starts in the state the service was in and whose result gives the
    revision of the record, and the record stored in both dictionaries. *)
Lemma upload_calls {R : Type} (api : DropboxAPI R) dbx path because (s s' : Sys R) :
  upload api dbx path because s = (Ret tt, s') ->
  exists s0 result s1,
    fs s0 = fs s /\ calls s0 = calls s /\ net s0 = net s
    /\ upload_send api dbx path s0 = (Ret result, s1)
    /\ calls s' = calls s1 /\ net s' = net s1
    /\ exists meta,
         local_files (state s') !! path = Some meta
         /\ remote_files (state s') !! path = Some meta
         /\ rev meta = f_rev result
         /\ FS.getmtime (fs s') path = Some (modified meta)
         /\ oid meta = next_oid s.
Proof.
  intros Hrun. unfold upload in Hrun.
  unfold bind at 1, print, print_end at 1 in Hrun. cbv beta iota in Hrun.
  unfold bind at 1 in Hrun.
  match type of Hrun with
  | context [upload_send api dbx path ?s1] =>
      exists s1; pose proof (upload_send_keeps_machine api dbx path s1) as Hm;
      destruct (upload_send api dbx path s1) as [[result|e|] s2] eqn:Hsend
  end; [| discriminate ..].
  unfold unchanged, machine in Hm. cbn [state fs global_dbx next_oid snd] in Hm.
  injection Hm as Hst Hfs Hg Ho.
  exists result, s2. do 4 (split; [done|]).
  run_in Hrun. destruct (FS.getmtime (fs s2) path) as [t|] eqn:Ht; run_in Hrun;
    [| discriminate].
  injection Hrun as <-. cbn [calls net state fs]. do 2 (split; [done|]).
  exists {| oid := next_oid s2; rev := f_rev result; modified := t |}.
  cbn [local_files remote_files with_local_files with_remote_files oid rev modified].
  rewrite !lookup_insert_eq. done.
Qed.

(** Neither the transfer nor the upload stops for lack of fuel. *)
Lemma upload_send_enough_fuel {R : Type} (api : DropboxAPI R) dbx path (s : Sys R) :
  (upload_send api dbx path s).1 <> OutOfFuel.
Proof.
  unfold upload_send. run.
  destruct (FS.getsize (fs s) path) as [size|] eqn:Hsize; run; [| done].
  destruct (LARGE_FILE <? size)%N; run; rewrite Hsize; run.
  - assert (Hsub : forall n : nat, (n - 0 < S n)%nat) by (intros n; lia).
    pose proof (upload_loop_enough_fuel api dbx path size (N.to_nat (size / CHUNK))
                  eq_refl (S (N.to_nat (size / CHUNK))) 0 None None 0%N s
                  (Nat.le_0_l _) (Hsub _)) as Hfuel.
    cbv zeta in Hfuel. change (chunk_offset 0) with 0%N in Hfuel.
    destruct (read {| fo_path := path; fo_size := size; fo_pos := 0 |} CHUNK)
      as [data fr].
    cbn [fst snd] in Hfuel.
    destruct (upload_loop _ _ _ _ _ _ _ _ _ _) as [[[d c]|e|] s1]; run;
      [| done | done].
    by destruct (files_upload_session_finish _ _ _ _ _ _) as [[msg|res] n]; run.
  - destruct (read_all _) as [data fr].
    by destruct (files_upload _ _ _ _ _ _ _) as [[msg|res] n]; run.
Qed.

Lemma upload_enough_fuel {R : Type} (api : DropboxAPI R) dbx path because (s : Sys R) :
  (upload api dbx path because s).1 <> OutOfFuel.
Proof.
  unfold upload. apply bind_enough_fuel; [by run|]. intros _ s0.
  apply bind_enough_fuel; [apply upload_send_enough_fuel|]. intros result s1. run.
  by destruct (FS.getmtime (fs s1) path); run.
Qed.

(** [C2] Large-object transfer.  An upload never stops for lack of fuel
    in its loop.  An upload that returns, of a file of [size] bytes: above
    140,000,000 bytes it makes the calls of a session, that is a start with
    the first chunk of 10,000,000 bytes, an append for each further full
    chunk at the cursor of the bytes sent so far, and a finish with the rest
    of the file, shorter than a chunk, at a cursor that is a multiple of the
    chunk size.  The session of these cursors is the one that the start
    returned when it was asked in the state the service was in before the
    upload; the appends are answered one after the other from the state the
    start left, and the finish leaves the service in the state it is in
    when [upload] returns.  At 140,000,000 bytes or less the upload makes
    one call, a one-shot upload of the whole file that overwrites, asked in
    the state the service was in and leaving it in its final state. *)
Theorem large_object_transfer :
  forall (R : Type) (api : DropboxAPI R) (dbx : Dbx) (path : string)
         (because : option string) (s : Sys R) (size : N),
    FS.getsize (fs s) path = Some size ->
    (upload api dbx path because s).1 <> OutOfFuel
    /\ forall s',
    upload api dbx path because s = (Ret tt, s') ->
    let q := N.to_nat (size / CHUNK) in
    ((LARGE_FILE < size)%N ->
     exists sid n1 nq result,
       files_upload_session_start api dbx (full_chunk path 0) false (net s)
       = (inr sid, n1)
       /\ appended api dbx path sid 1 (q - 1) n1 = Some nq
       /\ files_upload_session_finish api dbx
            {| b_src := path; b_off := chunk_offset q; b_len := (size mod CHUNK)%N |}
            (Some (cursor_at sid q))
            {| ci_path := Path.join "/" path; ci_mode := overwrite; ci_mute := true |}
            nq
          = (inr result, net s')
       /\ new_calls s s'
          = CSessionStart dbx (full_chunk path 0) false
              :: ((fun i => CSessionAppend dbx (full_chunk path i)
                              (Some (cursor_at sid i)) false) <$> seq 1 (q - 1))
              ++ [CSessionFinish dbx
                    {| b_src := path; b_off := chunk_offset q;
                       b_len := (size mod CHUNK)%N |}
                    (Some (cursor_at sid q))
                    {| ci_path := Path.join "/" path; ci_mode := overwrite;
                       ci_mute := true |}]
       /\ (size mod CHUNK < CHUNK)%N
       /\ (chunk_offset q mod CHUNK = 0)%N
       /\ (chunk_offset q + size mod CHUNK = size)%N)
    /\ ((size <= LARGE_FILE)%N ->
        new_calls s s' = [CUpload dbx {| b_src := path; b_off := 0; b_len := size |}
                                  (Path.join "/" path) overwrite true]
        /\ exists result,
            files_upload api dbx {| b_src := path; b_off := 0; b_len := size |}
              (Path.join "/" path) overwrite true (net s)
            = (inr result, net s')).
Proof.
  intros R api dbx path because s size Hsize.
  split; [apply upload_enough_fuel|]. intros s' Hrun q.
  apply upload_calls in Hrun
    as (s0 & result & s1 & Hfs & Hc0 & Hn0 & Hsend & Hc1 & Hn1 & _).
  rewrite <- Hfs in Hsize.
  destruct (upload_send_trace api dbx path size q eq_refl s0 s1 result Hsize Hsend)
    as [Hlarge Hsmall].
  unfold new_calls. rewrite Hc1, Hn1. rewrite Hc0, Hn0 in *. split.
  - intros Hgt. destruct (Hlarge Hgt) as (sid & -> & Hans).
    unfold session_answered in Hans. cbv zeta in Hans. fold q in Hans.
    destruct Hans as (n1 & nq & Hstart & Happ & Hfin).
    rewrite drop_app_length. exists sid, n1, nq, result.
    destruct (chunk_bounds size q eq_refl) as [Hsz Hr].
    pose proof (many_chunks size q eq_refl Hgt) as Hq.
    do 3 (split; [done|]).
    split; [| split; [exact Hr | split]].
    + unfold session_calls, finish_call. cbv zeta. fold q.
      destruct q as [|q']; [lia|].
      replace (S q' - 1)%nat with q' by lia.
      cbn [seq fmap list_fmap chunk_call app].
      f_equal. f_equal. rewrite <- (fmap_S_seq 0), <- !list_fmap_compose.
      reflexivity.
    + unfold chunk_offset. apply N.Div0.mod_mul.
    + by rewrite <- Hsz.
  - intros Hle. destruct (Hsmall Hle) as [-> Hup].
    rewrite drop_app_length. split; [done | by exists result].
Qed.

(** The witness of [C2]: a file of 140,000,001 bytes goes through a
    session of fourteen full chunks and one last byte. *)
Lemma large_object_transfer_witness :
  FS.getsize (fs big_sys) "big.bin" = Some 140000001%N
  /\ length (new_calls big_sys (upload mock_api main_dbx "big.bin" None big_sys).2)
     = 15%nat
  /\ (files_upload_session_start mock_api main_dbx (full_chunk "big.bin" 0) false
        (net big_sys)).1 = inr "session-1"
  /\ exists sid n1,
      files_upload_session_start mock_api main_dbx (full_chunk "big.bin" 0) false
        (net big_sys) = (inr sid, n1)
      /\ new_calls big_sys (upload mock_api main_dbx "big.bin" None big_sys).2
         = CSessionStart main_dbx (full_chunk "big.bin" 0) false
             :: ((fun i => CSessionAppend main_dbx (full_chunk "big.bin" i)
                             (Some (cursor_at sid i)) false) <$> seq 1 13)
             ++ [CSessionFinish main_dbx
                   {| b_src := "big.bin"; b_off := 140000000; b_len := 1 |}
                   (Some (cursor_at sid 14))
                   {| ci_path := "/big.bin"; ci_mode := overwrite; ci_mute := true |}].
Proof.
  split; [reflexivity|]. split; [vm_compute; reflexivity|].
  split; [reflexivity|].
  destruct (large_object_transfer Mock mock_api main_dbx "big.bin" None big_sys
              140000001%N eq_refl) as [_ Htrace].
  destruct (Htrace (upload mock_api main_dbx "big.bin" None big_sys).2)
    as [Hlarge _].
  - vm_compute. reflexivity.
  - destruct Hlarge as (sid & n1 & nq & result & Hstart & _ & _ & Hcalls & _);
      [reflexivity|].
    exists sid, n1. split; [exact Hstart | exact Hcalls].
Defined.

(** ** C7: one record for both views of a synchronised path *)

(** [C7] Synced-record sharing.  When [upload] returns, both dictionaries
    hold under the path one and the same new record.  Its revision is the
    one returned by the call of this run that committed the file: the
    one-shot upload, or the finish of the session, asked in the state the
    service was in when [upload] was called and leaving it in the state it
    is in when [upload] returns.  Its time is the time of the file.  When
    [download_remote] returns, likewise, with the revision returned by the
    one call it made, [files_download_to_file], asked in the state the
    service was in. *)
Theorem synced_record_is_shared :
  forall (R : Type) (api : DropboxAPI R) (dbx : Dbx) (path : string)
         (because : option string) (s s' : Sys R),
    (upload api dbx path because s = (Ret tt, s') ->
     exists meta result size,
       FS.getsize (fs s) path = Some size
       /\ transfer_answered api dbx path size (net s) result (net s')
       /\ local_files (state s') !! path = Some meta
       /\ remote_files (state s') !! path = Some meta
       /\ rev meta = f_rev result
       /\ FS.getmtime (fs s') path = Some (modified meta)
       /\ oid meta = next_oid s)
    /\ (download_remote api dbx path because s = (Ret tt, s') ->
        exists meta d,
          files_download_to_file api dbx path (Path.join "/" path) (net s)
          = (inr d, net s')
          /\ new_calls s s' = [CDownload dbx path (Path.join "/" path)]
          /\ local_files (state s') !! path = Some meta
          /\ remote_files (state s') !! path = Some meta
          /\ rev meta = f_rev (dl_meta d)
          /\ FS.getmtime (fs s') path = Some (modified meta)
          /\ oid meta = next_oid s).
Proof.
  intros R api dbx path because s s'. split.
  - intros Hrun.
    apply upload_calls in Hrun
      as (s0 & result & s1 & Hfs & _ & Hn0 & Hsend & _ & Hn1 & meta & Hmeta).
    destruct (upload_send_size api dbx path s0 result s1 Hsend) as [size Hsize].
    destruct (upload_send_trace api dbx path size _ eq_refl s0 s1 result Hsize Hsend)
      as [Hlarge Hsmall].
    exists meta, result, size. rewrite <- Hfs, <- Hn0, Hn1.
    split; [exact Hsize|]. split; [| exact Hmeta].
    unfold transfer_answered.
    destruct (N.ltb_spec LARGE_FILE size) as [Hgt|Hle].
    + destruct (Hlarge Hgt) as (sid & _ & Hans). by exists sid.
    + by destruct (Hsmall Hle) as [_ Hup].
  - intros Hrun.
    apply download_remote_answered in Hrun as (meta & d & Hcall & Hcalls & Hrest).
    exists meta, d. split; [exact Hcall|]. split; [| exact Hrest].
    unfold new_calls. by rewrite Hcalls, drop_app_length.
Qed.

(** The witness of [C7]: an upload of [notes.txt] to a service that has
    handed out three revisions, which records the fourth, and a download of
    [Photos/img.png] into an empty tree. *)
Lemma synced_record_is_shared_witness :
  (exists meta result size,
      FS.getsize (fs later_sys) "notes.txt" = Some size
      /\ transfer_answered mock_api main_dbx "notes.txt" size (net later_sys) result
           (net (upload mock_api main_dbx "notes.txt" None later_sys).2)
      /\ local_files (state (upload mock_api main_dbx "notes.txt" None later_sys).2)
           !! "notes.txt" = Some meta
      /\ remote_files (state (upload mock_api main_dbx "notes.txt" None later_sys).2)
           !! "notes.txt" = Some meta
      /\ rev meta = f_rev result
      /\ FS.getmtime (fs (upload mock_api main_dbx "notes.txt" None later_sys).2)
           "notes.txt" = Some (modified meta)
      /\ oid meta = next_oid later_sys)
  /\ rev <$> (local_files (state (upload mock_api main_dbx "notes.txt" None
                                    later_sys).2) !! "notes.txt")
     = Some "rev3"
  /\ (exists meta d,
        files_download_to_file mock_api main_dbx "Photos/img.png"
          (Path.join "/" "Photos/img.png") (net fresh_sys)
        = (inr d, net (download_remote mock_api main_dbx "Photos/img.png"
                         None fresh_sys).2)
        /\ new_calls fresh_sys
             (download_remote mock_api main_dbx "Photos/img.png" None fresh_sys).2
           = [CDownload main_dbx "Photos/img.png" (Path.join "/" "Photos/img.png")]
        /\ local_files (state (download_remote mock_api main_dbx "Photos/img.png"
                                 None fresh_sys).2) !! "Photos/img.png" = Some meta
        /\ remote_files (state (download_remote mock_api main_dbx "Photos/img.png"
                                  None fresh_sys).2) !! "Photos/img.png" = Some meta
        /\ rev meta = f_rev (dl_meta d)
        /\ FS.getmtime (fs (download_remote mock_api main_dbx "Photos/img.png"
                              None fresh_sys).2) "Photos/img.png"
           = Some (modified meta)
        /\ oid meta = next_oid fresh_sys).
Proof.
  split; [| split].
  - apply (proj1 (synced_record_is_shared Mock mock_api main_dbx "notes.txt" None
                    later_sys _)).
    vm_compute. reflexivity.
  - vm_compute. reflexivity.
  - apply (proj2 (synced_record_is_shared Mock mock_api main_dbx "Photos/img.png"
                    None fresh_sys _)).
    vm_compute. reflexivity.
Defined.

(** ** C9: the downloads of the remote pass go through the module-level [dbx] *)

Section GlobalClient.

Context {R : Type}.
Variable api : DropboxAPI R.
Variable dbx_arg : Dbx.

Global Instance via_global_preorder : PreOrder (via_global (R:=R) dbx_arg).
Proof.
  split.
  - intros s. split; [done | reflexivity].
  - intros s1 s2 s3 [G12 E12] [G23 E23]. split; [congruence|].
    rewrite G12 in E23. by etransitivity.
Qed.

Lemma via_global_quiet (s s' : Sys R) :
  global_dbx s' = global_dbx s -> calls s' = calls s -> via_global dbx_arg s s'.
Proof. intros Hg Hc. split; [done | by apply emits_same_calls]. Qed.

(** Closes the goals about primitive actions that make no call. *)
Ltac via_global_quiet := try (intros ?; apply via_global_quiet; reflexivity).

Lemma os_makedirs_via_global p : keeps (via_global (R:=R) dbx_arg) (os_makedirs p).
Proof. keeps_split; via_global_quiet. Qed.

Lemma make_local_dir_via_global p : keeps (via_global (R:=R) dbx_arg) (make_local_dir p).
Proof. unfold make_local_dir. keeps_split; via_global_quiet. Qed.

Lemma delete_local_via_global p : keeps (via_global (R:=R) dbx_arg) (delete_local p).
Proof. unfold delete_local. keeps_split; via_global_quiet. Qed.

(** A download on the client that the module names. *)
Lemma download_via_global d p because (s : Sys R) :
  global_dbx s = Some d ->
  via_global dbx_arg s (download_remote api d p because s).2.
Proof.
  intros Hg. rewrite download_remote_unfold. cbv zeta.
  set (finish := bind _ _).
  assert (Hfin : forall s0, global_dbx s0 = Some d -> via_global dbx_arg s0 (finish s0).2).
  { intros s0 Hg0. subst finish. run.
    destruct (files_download_to_file _ _ _ _ _) as [[msg|dl] n]; run.
    - split; [done|]. eapply emits_one_call; [| reflexivity]. by rewrite Hg0.
    - destruct (FS.write _ _ _ _) as [t2|]; run.
      + destruct (FS.getmtime t2 p); run;
          (split; [done|]; eapply emits_one_call; [| reflexivity]; by rewrite Hg0).
      + split; [done|]. eapply emits_one_call; [| reflexivity]. by rewrite Hg0. }
  destruct (negb _ && negb _).
  - destruct (FS.makedirs (fs s) _) as [t1|].
    + etransitivity; [| apply Hfin; exact Hg].
      by apply via_global_quiet.
    + by apply via_global_quiet.
  - etransitivity; [| apply Hfin; exact Hg]. by apply via_global_quiet.
Qed.

Lemma read_then_download_via_global p because :
  keeps (via_global dbx_arg)
    (let! dbx := read_global_dbx in download_remote api dbx p because).
Proof.
  intros s. unfold bind, read_global_dbx.
  destruct (global_dbx s) as [d|] eqn:Hg; [| by apply via_global_quiet].
  by apply download_via_global.
Qed.

Lemma process_remote_entry_via_global entry current :
  keeps (via_global dbx_arg) (process_remote_entry api entry current).
Proof.
  unfold process_remote_entry.
  apply keeps_bind; [apply _ | apply keeps_get_state; apply _ | intros st].
  destruct (resolve_entry _ _) as [entry_path path_key].
  destruct entry as [m|m|name path_lower].
  - apply keeps_bind; [apply _ | | intros _; apply keeps_ret; apply _].
    destruct (local_files st !! entry_path) as [known|].
    + destruct (negb _); [apply read_then_download_via_global |].
      apply keeps_ret; apply _.
    + apply read_then_download_via_global.
  - keeps_split; via_global_quiet. apply make_local_dir_via_global.
  - apply keeps_ret; apply _.
Qed.

Lemma process_remote_entries_via_global entries current :
  keeps (via_global dbx_arg) (process_remote_entries api entries current).
Proof.
  revert current. induction entries as [|entry entries IH]; intros current; simpl.
  - apply keeps_ret; apply _.
  - apply keeps_bind; [apply _ | apply process_remote_entry_via_global | apply IH].
Qed.

Lemma list_call_via_global {A : Type} (c : Call) (f : R -> (string + A) * R) :
  (forall g, remote_pass_call dbx_arg g c) ->
  keeps (via_global dbx_arg) (call_api c f).
Proof.
  intros Hc s. unfold call_api. destruct (f (net s)) as [r n]. cbn [snd].
  split; [done|]. eapply emits_one_call; [apply Hc | reflexivity].
Qed.

Lemma consume_pages_via_global fuel results current :
  keeps (via_global dbx_arg) (consume_pages api fuel dbx_arg results current).
Proof.
  revert results current. induction fuel as [|fuel IH]; intros results current.
  - apply keeps_out_of_fuel; apply _.
  - change (consume_pages api (S fuel) dbx_arg results current)
      with (let! current' := process_remote_entries api (entries results) current in
            if negb (has_more results) then ret current'
            else
              let! results' := dbx_files_list_folder_continue api dbx_arg
                                 (cursor results) in
              consume_pages api fuel dbx_arg results' current').
    apply keeps_bind; [apply _ | apply process_remote_entries_via_global |].
    intros current'. destruct (negb _); [apply keeps_ret; apply _|].
    apply keeps_bind; [apply _ | by apply list_call_via_global | intros ?; apply IH].
Qed.

Lemma execute_delta_via_global key_order fuel :
  keeps (via_global dbx_arg) (execute_delta api key_order fuel dbx_arg).
Proof.
  unfold execute_delta, consume_listing.
  apply keeps_bind; [apply _ | | intros current].
  - apply keeps_bind; [apply _ | by apply list_call_via_global |].
    intros results. apply consume_pages_via_global.
  - apply keeps_bind; [apply _ | apply keeps_get_state; apply _ | intros st].
    apply keeps_for_each; [apply _|]. intros path _. unfold delete_if_gone.
    destruct (decide _); [apply keeps_ret; apply _|].
    apply keeps_bind; [apply _ | apply keeps_get_state; apply _ | intros st'].
    destruct (local_files st' !! path); [| apply keeps_ret; apply _].
    apply delete_local_via_global.
Qed.

(** Without a module-level [dbx], an entry to download stops the pass. *)
Lemma process_remote_entry_unbound entry current (s : Sys R) :
  global_dbx s = None ->
  needs_download (state s) entry ->
  process_remote_entry api entry current s = (Raise (NameError "dbx"), s).
Proof.
  intros Hg (m & -> & Hneed). unfold process_remote_entry. run.
  destruct (resolve_entry _ _) as [entry_path path_key]. cbn [fst] in Hneed.
  run. destruct (local_files (state s) !! entry_path) as [known|]; run.
  - destruct (String.eqb_spec (f_rev m) (rev known)) as [Heq|Hne]; [done|].
    cbn [negb]. run. rewrite Hg. reflexivity.
  - rewrite Hg. reflexivity.
Qed.

End GlobalClient.

(** [C9] The client of the downloads.  Whatever client [execute_delta] is
    called with, the calls it makes are listings on that client and
    downloads on the client that the module-level name [dbx] holds; and
    where the module binds no [dbx], an entry that has to be downloaded
    ends in [NameError], with nothing downloaded and nothing changed. *)
Theorem remote_pass_downloads_via_global_dbx :
  forall (R : Type) (api : DropboxAPI R),
    (forall (key_order : gmap string Meta -> list string) (fuel : nat)
            (dbx_arg : Dbx) (s : Sys R),
        Forall (remote_pass_call dbx_arg (global_dbx s))
               (new_calls s (execute_delta api key_order fuel dbx_arg s).2))
    /\ (forall (entry : Metadata) (current : gset string) (s : Sys R),
          global_dbx s = None ->
          needs_download (state s) entry ->
          process_remote_entry api entry current s = (Raise (NameError "dbx"), s)).
Proof.
  intros R api. split.
  - intros key_order fuel dbx_arg s.
    destruct (execute_delta_via_global api dbx_arg key_order fuel s) as [_ Hemit].
    by apply emits_new_calls in Hemit as [_ Hall].
  - apply process_remote_entry_unbound.
Qed.

(** The witness of [C9]: the pass is called with [other_dbx]; the listing
    goes through [other_dbx], the download through [main_dbx]; in a
    module without [dbx] the same listing ends the pass in [NameError]. *)
Lemma remote_pass_downloads_via_global_dbx_witness :
  new_calls bound_sys (execute_delta mock_api keys 5 other_dbx bound_sys).2
  = [CListFolder other_dbx "" true; CDownload main_dbx "notes.txt" "/notes.txt"]
  /\ Forall (remote_pass_call other_dbx (Some main_dbx))
            (new_calls bound_sys (execute_delta mock_api keys 5 other_dbx bound_sys).2)
  /\ process_remote_entry mock_api notes_entry ∅ unbound_sys
     = (Raise (NameError "dbx"), unbound_sys)
  /\ (execute_delta mock_api keys 5 other_dbx unbound_sys).1 = Raise (NameError "dbx").
Proof.
  split; [vm_compute; reflexivity|]. split; [| split].
  - apply (proj1 (remote_pass_downloads_via_global_dbx Mock mock_api) keys 5%nat
             other_dbx bound_sys).
  - apply (proj2 (remote_pass_downloads_via_global_dbx Mock mock_api)).
    + reflexivity.
    + exists {| f_name := "notes.txt"; f_path_lower := "/notes.txt"; f_rev := "r9" |}.
      split; [reflexivity|]. vm_compute. exact I.
  - vm_compute. reflexivity.
Defined.

(** ** C5: the casing of a remote path *)

Section CaseResolution.

Context {R : Type}.
Variable api : DropboxAPI R.

Lemma resolve_photos_folder (pcm : gmap string string) :
  resolve_entry pcm photos_folder
  = (match pcm !! "photos" with
     | Some cased => Path.join "" cased
     | None => "Photos"
     end, "photos").
Proof. reflexivity. Qed.

Lemma resolve_img_file (pcm : gmap string string) (r : string) :
  resolve_entry pcm (img_file r)
  = (let dir := match pcm !! "photos" with
                | Some cased => Path.join "" cased
                | None => Path.join "" "img.png"
                end in
     match pcm !! "photos/img.png" with
     | Some cased => Path.join dir cased
     | None => Path.join dir "img.png"
     end, "photos/img.png").
Proof. reflexivity. Qed.

Lemma make_local_dir_keeps_case_map p :
  keeps (unchanged (fun s : Sys R => path_case_map (state s))) (make_local_dir p).
Proof. unfold make_local_dir. keeps_split; keeps_quiet. Qed.

(** A folder entry records its name, whatever happens next. *)
Lemma process_folder_case_map (m : FolderMetadata) current (s : Sys R) :
  path_case_map (state (process_remote_entry api (IsFolder m) current s).2)
  = <[(resolve_entry (path_case_map (state s)) (IsFolder m)).2 := d_name m]>
      (path_case_map (state s)).
Proof.
  unfold process_remote_entry. run.
  destruct (resolve_entry _ _) as [entry_path path_key]. cbn [snd]. run.
  destruct (FS.exists_ (fs s) entry_path); cbn [negb]; run; [reflexivity|].
  match goal with
  | |- context [make_local_dir entry_path ?s0] =>
      pose proof (make_local_dir_keeps_case_map entry_path s0) as Hk;
      destruct (make_local_dir entry_path s0) as [[[]|e|] s1]
  end; unfold unchanged in Hk; cbn [snd state path_case_map with_path_case_map] in Hk;
    run; exact Hk.
Qed.

(** A file entry that is processed to the end is added to the set of
    current remote paths, under its resolved path. *)
Lemma process_file_adds (m : FileMetadata) current (s : Sys R) c s' :
  process_remote_entry api (IsFile m) current s = (Ret c, s') ->
  c = {[ (resolve_entry (path_case_map (state s)) (IsFile m)).1 ]} ∪ current.
Proof.
  unfold process_remote_entry. unfold bind at 1, get_state. cbv beta iota.
  destruct (resolve_entry _ _) as [entry_path path_key]. cbn [fst].
  unfold bind at 1.
  match goal with
  | |- (let (_, _) := ?m s in _) = _ -> _ => destruct (m s) as [[[]|e|] s1]
  end; intros [=]; by subst.
Qed.

End CaseResolution.

(** [C5] Path case resolution.  Where no casing is recorded for the key
    [photos/img.png]: once the folder entry named [Photos], of lower-cased
    path [/photos], has been processed, the map sends [photos] to [Photos]
    and the file entry named [img.png], of lower-cased path
    [/photos/img.png], resolves to [Photos/img.png]; and when the two
    entries are processed in that order, [Photos/img.png] is in the set of
    current remote paths. *)
Theorem photos_case_resolution :
  forall (R : Type) (api : DropboxAPI R) (current : gset string) (s : Sys R)
         (r : string),
    path_case_map (state s) !! "photos/img.png" = None ->
    let s1 := (process_remote_entry api photos_folder current s).2 in
    path_case_map (state s1) !! "photos" = Some "Photos"
    /\ (resolve_entry (path_case_map (state s1)) (img_file r)).1 = "Photos/img.png"
    /\ forall c s',
         process_remote_entries api [photos_folder; img_file r] current s = (Ret c, s') ->
         "Photos/img.png" ∈ c.
Proof.
  intros R api current s r Hfree s1.
  assert (Hmap : path_case_map (state s1)
                 = <["photos" := "Photos"]> (path_case_map (state s))).
  { subst s1. unfold photos_folder. rewrite process_folder_case_map.
    by rewrite resolve_photos_folder. }
  assert (Hres : (resolve_entry (path_case_map (state s1)) (img_file r)).1
                 = "Photos/img.png").
  { rewrite resolve_img_file, Hmap. cbv zeta.
    rewrite lookup_insert_eq, lookup_insert_ne by done. by rewrite Hfree. }
  split; [by rewrite Hmap, lookup_insert_eq|]. split; [exact Hres|].
  intros c s'. cbn [process_remote_entries]. unfold bind at 1. subst s1.
  destruct (process_remote_entry api photos_folder current s) as [[c1|e|] s1];
    [| intros [=] ..].
  cbn [snd] in *. unfold bind at 1.
  destruct (process_remote_entry api (img_file r) c1 s1) as [[c2|e|] s2] eqn:Hfile;
    [| intros [=] ..].
  intros [= <- <-]. unfold img_file in Hfile, Hres.
  apply process_file_adds in Hfile. rewrite Hfile, Hres.
  set_solver.
Qed.

(** The witness of [C5]: the two entries, processed from a new state in an
    empty tree. *)
Lemma photos_case_resolution_witness :
  path_case_map (state fresh_sys) !! "photos/img.png" = None
  /\ (process_remote_entries mock_api [photos_folder; img_file "r1"] ∅ fresh_sys).1
     = Ret {[ "Photos/img.png" ]}
  /\ FS.isfile (fs (process_remote_entries mock_api [photos_folder; img_file "r1"]
                      ∅ fresh_sys).2) "Photos/img.png" = true
  /\ "Photos/img.png" ∈ ({[ "Photos/img.png" ]} : gset string).
Proof.
  split; [reflexivity|]. split; [vm_compute; reflexivity|].
  split; [vm_compute; reflexivity|].
  destruct (photos_case_resolution Mock mock_api ∅ fresh_sys "r1" eq_refl)
    as (_ & _ & Hin).
  apply (Hin {[ "Photos/img.png" ]}
             (process_remote_entries mock_api [photos_folder; img_file "r1"]
                ∅ fresh_sys).2).
  vm_compute. reflexivity.
Defined.

(** ** C6: a folder entry where a local file sits *)

Section FolderOverFile.

Context {R : Type}.
Variable api : DropboxAPI R.

(** A folder entry whose path exists locally, as a file or as a
    directory, only records its name. *)
Lemma folder_entry_on_existing_path (m : FolderMetadata) current (s : Sys R) :
  FS.exists_ (fs s) (resolve_entry (path_case_map (state s)) (IsFolder m)).1 = true ->
  (process_remote_entry api (IsFolder m) current s).1 = Ret current
  /\ fs (process_remote_entry api (IsFolder m) current s).2 = fs s
  /\ local_files (state (process_remote_entry api (IsFolder m) current s).2)
     = local_files (state s).
Proof.
  unfold process_remote_entry. run.
  destruct (resolve_entry _ _) as [entry_path path_key]. cbn [fst]. run.
  intros ->. cbn [negb]. run. done.
Qed.

Lemma isfile_exists (t : gmap string Node) (p : string) :
  FS.isfile t p = true -> FS.exists_ t p = true.
Proof. unfold FS.isfile, FS.exists_. by destruct (FS.lookup t p) as [[]|]. Qed.

(** Called on a path where a file sits, [make_local_dir] removes the file
    and then raises: no directory is made. *)
Lemma make_local_dir_on_file (p : string) (s : Sys R) :
  FS.isfile (fs s) p = true ->
  exists e,
    (make_local_dir p s).1 = Raise e
    /\ (e = AttributeError "makedir" \/ e = KeyError p)
    /\ fs (make_local_dir p s).2 = delete (FS.key p) (fs s)
    /\ FS.exists_ (fs (make_local_dir p s).2) p = false.
Proof.
  intros Hfile. pose proof (isfile_exists _ _ Hfile) as Hex.
  unfold make_local_dir. run. rewrite Hex. cbn [negb]. run. rewrite Hfile. run.
  assert (Hrm : FS.remove (fs s) p = Some (delete (FS.key p) (fs s))).
  { unfold FS.remove. unfold FS.isfile in Hfile.
    by destruct (FS.lookup (fs s) p) as [[]|]. }
  assert (Hgone : FS.exists_ (delete (FS.key p) (fs s)) p = false).
  { unfold FS.exists_, FS.lookup. unfold FS.isfile, FS.lookup in Hfile.
    destruct (String.eqb p "."); [done|]. by rewrite lookup_delete_eq. }
  rewrite Hrm. run.
  destruct (local_files (state s) !! p); run; eexists; eauto.
Qed.

End FolderOverFile.

(** [C6], on the code.  A regular file sits at [Photos], with a record in
    [local_files], and the listing delivers the folder [Photos].  The
    remote pass records the casing and does nothing else: the file is
    still there, no directory is made, the record is kept.  Called on its
    own at that path, [make_local_dir] removes the file and the record and
    then stops on [os.makedir], which does not exist: there is no
    directory either. *)
Theorem folder_over_file_not_replaced :
  let out := process_remote_entry mock_api photos_folder ∅ blocked_sys in
  let direct := make_local_dir "Photos" blocked_sys in
  out.1 = Ret ∅
  /\ path_case_map (state out.2) !! "photos" = Some "Photos"
  /\ FS.isfile (fs out.2) "Photos" = true
  /\ FS.isdir (fs out.2) "Photos" = false
  /\ local_files (state out.2) !! "Photos" = Some blocked_meta
  /\ direct.1 = Raise (AttributeError "makedir")
  /\ FS.exists_ (fs direct.2) "Photos" = false
  /\ local_files (state direct.2) !! "Photos" = None.
Proof. vm_compute. repeat split; reflexivity. Qed.

(** ** C1: remote deletions are propagated to the local tree *)

Section RemoteDeletion.

Context {R : Type}.

Lemma isfile_weaken (t t' : gmap string Node) (p : string) :
  t' ⊆ t -> FS.isfile t' p = true -> FS.isfile t p = true.
Proof.
  intros Hsub. unfold FS.isfile, FS.lookup.
  destruct (String.eqb p "."); [done|].
  destruct (t' !! FS.key p) as [[sz mt|]|] eqn:Hl; try done.
  by rewrite (lookup_weaken _ _ _ _ Hl Hsub).
Qed.

(** The tree once [os.remove(path)] has been tried. *)
Lemma remove_tried (t : gmap string Node) (p : string) :
  exists t',
    (match FS.remove t p with Some t1 => t1 | None => t end) = t'
    /\ t' ⊆ t
    /\ FS.isfile t' p = false
    /\ forall k, k <> FS.key p -> t' !! k = t !! k.
Proof.
  unfold FS.remove, FS.isfile. destruct (FS.lookup t p) as [[sz mt|]|] eqn:Hl.
  - exists (delete (FS.key p) t). split; [done|]. split; [apply delete_subseteq|].
    split; [| by intros k Hk; rewrite lookup_delete_ne].
    unfold FS.lookup in *. destruct (String.eqb p "."); [done|].
    by rewrite lookup_delete_eq.
  - exists t. by rewrite Hl.
  - exists t. by rewrite Hl.
Qed.

(** [delete_local], when it returns: both records are gone, no file is
    left at the path, the parent directory is not left behind empty, and
    nothing but the file and that directory has changed in the tree. *)
Lemma delete_local_inv (path : string) (s s' : Sys R) :
  delete_local path s = (Ret tt, s') ->
  let dir := if String.eqb (Path.dirname path) "" then "." else Path.dirname path in
  is_Some (local_files (state s) !! path)
  /\ is_Some (remote_files (state s) !! path)
  /\ state s' = with_remote_files (delete path)
                  (with_local_files (delete path) (state s))
  /\ fs s' ⊆ fs s
  /\ FS.isfile (fs s') path = false
  /\ (FS.exists_ (fs s') dir = true ->
      exists x l, FS.listdir (fs s') dir = Some (x :: l))
  /\ (forall k, k <> FS.key path -> k <> FS.key dir -> fs s' !! k = fs s !! k).
Proof.
  intros Hrun dir. unfold delete_local in Hrun. run_in Hrun. cbv zeta in Hrun.
  fold dir in Hrun.
  destruct (remove_tried (fs s) path) as (t & Ht & Hsub & Hnofile & Hframe).
  destruct (FS.remove (fs s) path) as [t1|]; run_in Hrun; subst t.
  all: destruct (local_files (state s) !! path) as [ml|]; run_in Hrun; [| discriminate].
  all: destruct (remote_files (state s) !! path) as [mr|]; run_in Hrun; [| discriminate].
  all: match type of Hrun with
       | context [FS.exists_ ?t ?d] =>
           destruct (FS.exists_ t d) eqn:Hex; run_in Hrun;
           [ destruct (FS.listdir t d) as [[|x l]|] eqn:Hls; run_in Hrun;
             [ destruct (FS.rmdir t d) as [t2|] eqn:Hrm; run_in Hrun | | ] | ]
       end.
  all: try discriminate.
  all: injection Hrun as <-; cbn [state fs].
  all: split; [by eauto|]; split; [by eauto|]; split; [done|].
  all: first
    [ unfold FS.rmdir in Hrm; destruct (String.eqb dir ".") eqn:Hdot; [discriminate|];
      rewrite Hls in Hrm; injection Hrm as <-;
      split; [etransitivity; [apply delete_subseteq | exact Hsub] |];
      split; [match goal with
              | |- FS.isfile ?t' ?p = false =>
                  destruct (FS.isfile t' p) eqn:Hf; [| done];
                  apply (isfile_weaken _ _ _ (delete_subseteq _ _)) in Hf; congruence
              end |];
      split; [unfold FS.exists_, FS.lookup; rewrite Hdot, lookup_delete_eq; done |];
      intros k Hk Hd; rewrite lookup_delete_ne by done; by apply Hframe
    | split; [exact Hsub |]; split; [exact Hnofile |];
      split; [intros _; by eauto | intros k Hk _; by apply Hframe]
    | split; [exact Hsub |]; split; [exact Hnofile |];
      split; [intros Hyes; congruence | intros k Hk _; by apply Hframe] ].
Qed.

(** [delete_local] on a path that both dictionaries know, whatever the
    tree holds there.  [os.remove] may fail, as it does when there is no
    file at the path: the handler discards its [OSError] and both records
    are dropped all the same.  The one exception that can come out is the
    [OSError] of the directory step, after the records have been dropped. *)
Lemma delete_local_known (path : string) (s : Sys R) :
  is_Some (local_files (state s) !! path) ->
  is_Some (remote_files (state s) !! path) ->
  let dir := if String.eqb (Path.dirname path) "" then "." else Path.dirname path in
  let t := match FS.remove (fs s) path with Some t1 => t1 | None => fs s end in
  let out := delete_local path s in
  state out.2 = with_remote_files (delete path)
                  (with_local_files (delete path) (state s))
  /\ FS.isfile (fs out.2) path = false
  /\ (out.1 = Ret tt
      \/ out.1 = Raise OSError
         /\ FS.exists_ t dir = true
         /\ (FS.listdir t dir = None
             \/ FS.listdir t dir = Some [] /\ FS.rmdir t dir = None))
  /\ (FS.exists_ t dir = false \/ (exists x l, FS.listdir t dir = Some (x :: l)) ->
      out.1 = Ret tt /\ fs out.2 = t).
Proof.
  intros [ml Hl] [mr Hr] dir t out. subst out.
  destruct (remove_tried (fs s) path) as (t' & Ht & Hsub & Hnofile & Hframe).
  fold t in Ht. subst t'. unfold delete_local. run. cbv zeta. fold dir.
  subst t.
  destruct (FS.remove (fs s) path) as [t1|]; run; rewrite ?Hl; run; rewrite ?Hr; run.
  all: match goal with
       | |- context [FS.exists_ ?t ?d] =>
           destruct (FS.exists_ t d) eqn:Hex; run;
           [ destruct (FS.listdir t d) as [[|x l]|] eqn:Hls; run;
             [ destruct (FS.rmdir t d) as [t2|] eqn:Hrm; run | | ] | ]
       end.
  all: split; [done|].
  all: first
    [ unfold FS.rmdir in Hrm; destruct (String.eqb dir "."); [discriminate|];
      rewrite Hls in Hrm; injection Hrm as <-;
      split; [match goal with
              | |- FS.isfile ?t' ?p = false =>
                  destruct (FS.isfile t' p) eqn:Hf; [| done];
                  apply (isfile_weaken _ _ _ (delete_subseteq _ _)) in Hf; congruence
              end |];
      split; [by left | intros [[=] | (x & l & [=])]]
    | split; [exact Hnofile|];
      split; [by left | done]
    | split; [exact Hnofile|];
      split; [right; by eauto | intros [[=] | (x0 & l0 & [=])]] ].
Qed.

(** One turn of the last loop of [execute_delta]. *)
Lemma delete_if_gone_inv (current : gset string) (x : string) (s s' : Sys R) :
  delete_if_gone current x s = (Ret tt, s') ->
  ((x ∈ current \/ local_files (state s) !! x = None) /\ s' = s)
  \/ ((x ∉ current) /\ delete_local x s = (Ret tt, s')).
Proof.
  unfold delete_if_gone. destruct (decide (x ∈ current)) as [Hin|Hout].
  - intros [= <-]. left. split; [by left | done].
  - run. destruct (local_files (state s) !! x) as [m|] eqn:Hl.
    + intros Hrun. right. split; [done | exact Hrun].
    + intros [= <-]. left. split; [by right | done].
Qed.

(** The last loop of [execute_delta], when it returns. *)
Lemma delete_gone_loop (current : gset string) (l : list string) (s s' : Sys R) :
  for_each l (delete_if_gone current) s = (Ret tt, s') ->
  fs s' ⊆ fs s
  /\ local_files (state s') ⊆ local_files (state s)
  /\ remote_files (state s') ⊆ remote_files (state s)
  /\ (forall path,
        path ∈ l -> path ∉ current -> is_Some (local_files (state s) !! path) ->
        FS.isfile (fs s') path = false
        /\ local_files (state s') !! path = None
        /\ remote_files (state s') !! path = None)
  /\ (forall path,
        path ∈ current \/ local_files (state s) !! path = None ->
        local_files (state s') !! path = local_files (state s) !! path
        /\ remote_files (state s') !! path = remote_files (state s) !! path).
Proof.
  revert s. induction l as [|x l IH]; intros s Hrun; simpl in Hrun.
  - injection Hrun as <-. split; [done|]. split; [done|]. split; [done|].
    split; [| done]. intros path Hin. by apply elem_of_nil in Hin.
  - unfold bind in Hrun.
    destruct (delete_if_gone current x s) as [[[]|e|] sx] eqn:Hx; try discriminate.
    apply IH in Hrun as (Hfs & Hl & Hr & Hdel & Hkeep).
    apply delete_if_gone_inv in Hx as [[Hskip ->] | [Hout Hx]].
    + split; [done|]. split; [done|]. split; [done|]. split; [| done].
      intros path Hin Hnot Hsome. apply elem_of_cons in Hin as [-> | Hin].
      * destruct Hskip as [Hc | Hn]; [done|]. rewrite Hn in Hsome. by destruct Hsome.
      * by apply Hdel.
    + apply delete_local_inv in Hx as (Hlx & Hrx & Hst & Hfsx & Hnofile & _ & _).
      rewrite Hst in *. cbn [local_files remote_files with_local_files
                               with_remote_files] in *.
      split; [by etransitivity|].
      split; [etransitivity; [exact Hl | apply delete_subseteq]|].
      split; [etransitivity; [exact Hr | apply delete_subseteq]|].
      split.
      * intros path Hin Hnot Hsome. destruct (decide (path = x)) as [-> | Hne].
        -- split; [| split].
           ++ destruct (FS.isfile (fs s') x) eqn:Hf; [| done].
              apply (isfile_weaken _ _ _ Hfs) in Hf. congruence.
           ++ eapply lookup_weaken_None; [| exact Hl]. apply lookup_delete_eq.
           ++ eapply lookup_weaken_None; [| exact Hr]. apply lookup_delete_eq.
        -- apply elem_of_cons in Hin as [? | Hin]; [done|].
           apply Hdel; [done | done |]. by rewrite lookup_delete_ne.
      * intros path Hpath.
        assert (Hne : x <> path).
        { intros ->. destruct Hpath as [Hc | Hn]; [done|].
          rewrite Hn in Hlx. by destruct Hlx. }
        destruct (Hkeep path) as [El Er].
        { destruct Hpath as [Hc | Hn]; [by left | right].
          by rewrite lookup_delete_ne. }
        rewrite El, Er. by rewrite !lookup_delete_ne.
Qed.

End RemoteDeletion.

(** [execute_delta], once the listing has been consumed. *)
Lemma execute_delta_after_listing {R : Type} (api : DropboxAPI R) key_order fuel dbx
  (s s1 : Sys R) (current : gset string) :
  consume_listing api fuel dbx s = (Ret current, s1) ->
  execute_delta api key_order fuel dbx s
  = for_each (key_order (remote_files (state s1))) (delete_if_gone current) s1.
Proof. intros Hlist. unfold execute_delta, bind. by rewrite Hlist. Qed.

(** The claim [C1] as stated does not hold: [notes.txt] is known remotely
    only, the listing is empty, and the pass leaves the record and the
    file where they are. *)
Lemma remote_deletion_as_stated_fails : ~ remote_deletion_as_stated.
Proof.
  intros Hclaim.
  pose (s1 := (consume_listing mock_api 5 main_dbx remote_only_sys).2).
  pose (s' := (execute_delta mock_api keys 5 main_dbx remote_only_sys).2).
  assert (Hlist : consume_listing mock_api 5 main_dbx remote_only_sys = (Ret ∅, s1))
    by (vm_compute; reflexivity).
  assert (Hrun : execute_delta mock_api keys 5 main_dbx remote_only_sys = (Ret tt, s'))
    by (vm_compute; reflexivity).
  assert (Hknown : is_Some (remote_files (state s1) !! "notes.txt"))
    by (vm_compute; eauto).
  assert (Hfile : FS.isfile (fs s') "notes.txt" = true)
    by (vm_compute; reflexivity).
  clearbody s1 s'.
  assert (Horder : lists_the_keys keys) by (intros d; reflexivity).
  destruct (Hclaim Mock mock_api keys 5%nat main_dbx remote_only_sys s1 s' ∅ Horder
              Hlist Hrun "notes.txt" Hknown (not_elem_of_empty _)) as (Hgone & _ & _).
  clear Hlist Hrun Hclaim. congruence.
Qed.

(** [C1], amended.  In whatever order the keys of [remote_files] are
    visited: after the listing has been consumed and the pass has
    returned, every path that is in [remote_files] and in [local_files]
    and that the listing did not deliver has no file on disk any more and
    no record in either dictionary; a path that [local_files] does not
    know keeps its record in [remote_files].  Each local deletion that
    returns leaves no file at the path, does not leave the parent
    directory behind empty, and changes nothing else in the tree.  A
    missing file is not an error: a local deletion of a path that both
    dictionaries know drops both records whether or not [os.remove]
    succeeds, the only exception it lets out is the [OSError] of the
    directory step, and where the parent directory is missing or holds
    something else it returns, with the tree as [os.remove] left it. *)
Theorem remote_deletion_propagates :
  forall (R : Type) (api : DropboxAPI R),
    (forall (key_order : gmap string Meta -> list string) (fuel : nat) (dbx : Dbx)
            (s s1 s' : Sys R) (current : gset string),
        lists_the_keys key_order ->
        consume_listing api fuel dbx s = (Ret current, s1) ->
        execute_delta api key_order fuel dbx s = (Ret tt, s') ->
        (forall path,
            is_Some (remote_files (state s1) !! path) ->
            path ∉ current ->
            is_Some (local_files (state s1) !! path) ->
            FS.isfile (fs s') path = false
            /\ local_files (state s') !! path = None
            /\ remote_files (state s') !! path = None)
        /\ (forall path,
              local_files (state s1) !! path = None ->
              remote_files (state s') !! path = remote_files (state s1) !! path))
    /\ (forall (path : string) (sa sb : Sys R),
          delete_local path sa = (Ret tt, sb) ->
          let dir := if String.eqb (Path.dirname path) "" then "."
                     else Path.dirname path in
          FS.isfile (fs sb) path = false
          /\ (FS.exists_ (fs sb) dir = true ->
              exists x l, FS.listdir (fs sb) dir = Some (x :: l))
          /\ (forall k, k <> FS.key path -> k <> FS.key dir ->
                        fs sb !! k = fs sa !! k))
    /\ (forall (path : string) (sa : Sys R),
          is_Some (local_files (state sa) !! path) ->
          is_Some (remote_files (state sa) !! path) ->
          let dir := if String.eqb (Path.dirname path) "" then "."
                     else Path.dirname path in
          let t := match FS.remove (fs sa) path with
                   | Some t1 => t1
                   | None => fs sa
                   end in
          let out := delete_local path sa in
          local_files (state out.2) !! path = None
          /\ remote_files (state out.2) !! path = None
          /\ FS.isfile (fs out.2) path = false
          /\ (out.1 = Ret tt
              \/ out.1 = Raise OSError
                 /\ FS.exists_ t dir = true
                 /\ (FS.listdir t dir = None
                     \/ FS.listdir t dir = Some [] /\ FS.rmdir t dir = None))
          /\ (FS.exists_ t dir = false
              \/ (exists x l, FS.listdir t dir = Some (x :: l)) ->
              out.1 = Ret tt /\ fs out.2 = t)).
Proof.
  intros R api. split; [| split].
  - intros key_order fuel dbx s s1 s' current Horder Hlist Hrun.
    rewrite (execute_delta_after_listing api key_order fuel dbx s s1 current Hlist)
      in Hrun.
    apply delete_gone_loop in Hrun as (_ & _ & _ & Hdel & Hkeep).
    split.
    + intros path Hremote Hnot Hlocal. apply Hdel; [| done | done].
      rewrite (Horder (remote_files (state s1))). by apply elem_of_keys.
    + intros path Hnone. by destruct (Hkeep path (or_intror Hnone)).
  - intros path sa sb Hd dir.
    apply delete_local_inv in Hd as (_ & _ & _ & _ & Hf & Hdir & Hframe).
    done.
  - intros path sa Hl Hr dir t out.
    destruct (delete_local_known path sa Hl Hr) as (Hst & Hf & Hout & Hquiet).
    fold dir t out in Hst, Hf, Hout, Hquiet.
    rewrite Hst. cbn [local_files remote_files with_local_files with_remote_files].
    rewrite !lookup_delete_eq. done.
Qed.

(** The witness of [C1].  [old/gone.txt] is no longer listed: the pass
    removes the file, its records, and the directory [old] that it leaves
    empty, and keeps [keep.txt].  Where the file is already missing from
    the tree, the pass returns all the same, drops the records and leaves
    the tree as it was. *)
Lemma remote_deletion_propagates_witness :
  let s1 := (consume_listing mock_api 5 main_dbx shrunk_sys).2 in
  let s' := (execute_delta mock_api keys 5 main_dbx shrunk_sys).2 in
  let m' := (execute_delta mock_api keys 5 main_dbx missing_sys).2 in
  ((execute_delta mock_api keys 5 main_dbx shrunk_sys).1 = Ret tt
   /\ fs s' = {[ "keep.txt" := File 5 10 ]}
   /\ local_files (state s') = {[ "keep.txt" := keep_meta ]}
   /\ FS.isfile (fs s') "old/gone.txt" = false
   /\ local_files (state s') !! "old/gone.txt" = None
   /\ remote_files (state s') !! "old/gone.txt" = None)
  /\ (FS.remove (fs missing_sys) "old/gone.txt" = None
      /\ (execute_delta mock_api keys 5 main_dbx missing_sys).1 = Ret tt
      /\ fs m' = missing_fs
      /\ local_files (state m') !! "old/gone.txt" = None
      /\ remote_files (state m') !! "old/gone.txt" = None
      /\ (delete_local "old/gone.txt" missing_sys).1 = Ret tt
      /\ fs (delete_local "old/gone.txt" missing_sys).2 = missing_fs).
Proof.
  intros s1 s' m'.
  assert (Horder : lists_the_keys keys) by (intros d; reflexivity).
  split.
  - split; [vm_compute; reflexivity|].
    split; [vm_compute; reflexivity|]. split; [vm_compute; reflexivity|].
    destruct (proj1 (remote_deletion_propagates Mock mock_api) keys 5%nat main_dbx
                shrunk_sys s1 s' {[ "keep.txt" ]} Horder) as (Hdel & _).
    + vm_compute. reflexivity.
    + vm_compute. reflexivity.
    + apply (Hdel "old/gone.txt").
      * vm_compute. eauto.
      * intros Hin. apply elem_of_singleton in Hin. discriminate Hin.
      * vm_compute. eauto.
  - split; [vm_compute; reflexivity|].
    split; [vm_compute; reflexivity|]. split; [vm_compute; reflexivity|].
    pose proof (proj2 (proj2 (remote_deletion_propagates Mock mock_api))) as Hknown.
    destruct (proj1 (remote_deletion_propagates Mock mock_api) keys 5%nat main_dbx
                missing_sys (consume_listing mock_api 5 main_dbx missing_sys).2 m'
                {[ "keep.txt" ]} Horder) as (Hdel & _).
    + vm_compute. reflexivity.
    + vm_compute. reflexivity.
    + destruct (Hdel "old/gone.txt") as (_ & Hl & Hr).
      * vm_compute. eauto.
      * intros Hin. apply elem_of_singleton in Hin. discriminate Hin.
      * vm_compute. eauto.
      * split; [exact Hl|]. split; [exact Hr|].
        destruct (Hknown "old/gone.txt" missing_sys) as (_ & _ & _ & _ & Hquiet).
        -- vm_compute. eauto.
        -- vm_compute. eauto.
        -- apply Hquiet. right. vm_compute. eauto.
Defined.

(** * Further properties of the script *)

(** ** [upload], seen from outside *)

Section UploadFrame.

Context {R : Type}.
Variable api : DropboxAPI R.

Lemma upload_keeps_global dbx path because :
  keeps (unchanged (R:=R) global_dbx) (upload api dbx path because).
Proof.
  unfold upload. keeps_split; keeps_quiet.
  eapply keeps_weaken; [| apply upload_send_keeps_machine].
  unfold unchanged, machine. by intros s s' [=].
Qed.

Lemma upload_loop_on_client fuel dbx fr data close sid cur off :
  keeps (emits (local_pass_call dbx))
        (upload_loop api fuel dbx fr data close sid cur off).
Proof.
  revert fr data close sid cur off.
  induction fuel as [|fuel IH]; intros; rewrite upload_loop_unfold;
    keeps_split; keeps_quiet; try (apply keeps_emits_call_api; done).
  apply IH.
Qed.

Lemma upload_on_client dbx path because :
  keeps (emits (local_pass_call dbx)) (upload api dbx path because).
Proof.
  unfold upload, upload_send. keeps_split; keeps_quiet;
    try (apply keeps_emits_call_api; done).
  apply upload_loop_on_client.
Qed.

End UploadFrame.

(** [X1] [upload] is all or nothing.  Whatever it
    does, the tree, the module-level [dbx] and the case map are what they
    were, every call it made sends bytes of the file [path] on the client
    it was given, and the records of the other paths are untouched; when
    it does not return, neither dictionary has changed at all. *)
Theorem upload_all_or_nothing :
  forall (R : Type) (api : DropboxAPI R) (dbx : Dbx) (path : string)
         (because : option string) (s : Sys R),
    let out := upload api dbx path because s in
    fs out.2 = fs s
    /\ global_dbx out.2 = global_dbx s
    /\ path_case_map (state out.2) = path_case_map (state s)
    /\ (out.1 <> Ret tt -> state out.2 = state s)
    /\ (forall q, q <> path ->
          local_files (state out.2) !! q = local_files (state s) !! q
          /\ remote_files (state out.2) !! q = remote_files (state s) !! q)
    /\ Forall (fun c => sends path c /\ call_client c = dbx) (new_calls s out.2).
Proof.
  intros R api dbx path because s out.
  pose proof (upload_keeps_global api dbx path because s) as Hg.
  pose proof (upload_emits api dbx path because s) as He.
  pose proof (upload_on_client api dbx path because s) as Hc.
  fold out in Hg, He, Hc.
  destruct (upload api dbx path because s) as [r s'] eqn:Hrun.
  apply upload_inv in Hrun as [Hfs Hst]. subst out. cbn [fst snd] in *.
  split; [exact Hfs|]. split; [exact Hg|].
  apply emits_new_calls in He as [Hcalls Hsends].
  apply emits_new_calls in Hc as [_ Hon].
  assert (Hall : Forall (fun c => sends path c /\ call_client c = dbx) (new_calls s s')).
  { apply Forall_forall. intros c Hin. split.
    - by eapply Forall_forall in Hsends.
    - eapply Forall_forall in Hon; [| done]. apply Hon. }
  destruct r as [[]|e|].
  - destruct Hst as (meta & _ & -> & _).
    cbn [path_case_map local_files remote_files with_local_files with_remote_files].
    split; [done|]. split; [done|]. split; [| done].
    intros q Hq. by rewrite !lookup_insert_ne.
  - rewrite Hst. done.
  - rewrite Hst. done.
Qed.

(** [X2] [upload] announces itself before it looks
    at the file.  For a path that is not a regular file it prints its line,
    raises [OSError], and has made no call and changed no record. *)
Theorem upload_of_missing_file :
  forall (R : Type) (api : DropboxAPI R) (dbx : Dbx) (path : string)
         (because : option string) (s : Sys R),
    FS.getsize (fs s) path = None ->
    let out := upload api dbx path because s in
    out.1 = Raise OSError
    /\ calls out.2 = calls s
    /\ net out.2 = net s
    /\ state out.2 = state s
    /\ fs out.2 = fs s
    /\ stdout out.2
       = stdout s +:+ printed [Str.TAB +:+ "Uploading: "; path; or_empty because].
Proof.
  intros R api dbx path because s Hsize out. subst out.
  unfold upload, upload_send. run. rewrite Hsize. run. done.
Qed.

Lemma upload_of_missing_file_witness :
  FS.getsize (fs fresh_sys) "nothing.txt" = None
  /\ (upload mock_api main_dbx "nothing.txt" None fresh_sys).1 = Raise OSError
  /\ calls (upload mock_api main_dbx "nothing.txt" None fresh_sys).2 = [].
Proof.
  split; [reflexivity|].
  pose proof (upload_of_missing_file Mock mock_api main_dbx "nothing.txt" None
                fresh_sys eq_refl) as H.
  cbv zeta in H. destruct H as (H1 & H2 & _). split; [exact H1 | exact H2].
Defined.

(** ** The local pass and its client *)

Section EnoughFuel.

Context {R : Type}.

Lemma ef_bind {A B : Type} (m : M R A) (k : A -> M R B) :
  enough_fuel m -> (forall a, enough_fuel (k a)) -> enough_fuel (bind m k).
Proof.
  intros Hm Hk s. specialize (Hm s). unfold bind.
  destruct (m s) as [[a|e|] s1]; cbn [fst] in *; [apply Hk | done | done].
Qed.

Lemma ef_try_except {A : Type} (m : M R A) (h : PyErr -> M R A) :
  enough_fuel m -> (forall e, enough_fuel (h e)) -> enough_fuel (try_except m h).
Proof.
  intros Hm Hh s. specialize (Hm s). unfold try_except.
  destruct (m s) as [[a|e|] s1]; cbn [fst] in *; [done | apply Hh | done].
Qed.

Lemma ef_for_each {A : Type} (l : list A) (body : A -> M R unit) :
  (forall x, x ∈ l -> enough_fuel (body x)) -> enough_fuel (for_each l body).
Proof.
  induction l as [|x l IH]; intros Hb; simpl; [done|].
  apply ef_bind; [apply Hb; left | intros _; apply IH].
  intros y Hy. apply Hb. by right.
Qed.

Lemma ef_call_api {A : Type} (c : Call) (f : R -> (string + A) * R) :
  enough_fuel (call_api c f).
Proof. intros s. unfold call_api. by destruct (f (net s)) as [[msg|a] n]. Qed.

Lemma ef_os_result {A : Type} (o : option A) : enough_fuel (R:=R) (os_result o).
Proof. by destruct o. Qed.

Lemma ef_read_global_dbx : enough_fuel (R:=R) read_global_dbx.
Proof. intros s. unfold read_global_dbx. by destruct (global_dbx s). Qed.

End EnoughFuel.

Ltac ef_split :=
  repeat first
    [ match goal with
      | |- enough_fuel (ret _) => done
      | |- enough_fuel (raise _) => done
      | |- enough_fuel get_state => done
      | |- enough_fuel get_fs => done
      | |- enough_fuel (set_state _) => done
      | |- enough_fuel (set_fs _) => done
      | |- enough_fuel (print_end _ _) => done
      | |- enough_fuel (new_meta _ _) => done
      | |- enough_fuel read_global_dbx => apply ef_read_global_dbx
      | |- enough_fuel (os_result _) => apply ef_os_result
      | |- enough_fuel (call_api _ _) => apply ef_call_api
      | |- enough_fuel (bind _ _) => apply ef_bind; [| intros ?]
      | |- enough_fuel (try_except _ _) => apply ef_try_except; [| intros ?]
      | |- enough_fuel (match ?x with _ => _ end) => destruct x
      end
    | progress unfold os_path_exists, os_path_isfile, os_path_getmtime,
        os_path_getsize, os_listdir, os_remove, os_rmdir, os_makedirs, open_rb,
        local_files_get, local_files_del, remote_files_del, print,
        dbx_files_list_folder, dbx_files_list_folder_continue, dbx_files_delete,
        dbx_files_upload, dbx_files_upload_session_start,
        dbx_files_upload_session_append_v2, dbx_files_upload_session_finish,
        dbx_files_download_to_file ].

Section LocalPassClient.

Context {R : Type}.
Variable api : DropboxAPI R.

Lemma os_error_local : local_pass_error OSError.
Proof. by left. Qed.
Lemma key_error_local k : local_pass_error (KeyError k).
Proof. right. left. by exists k. Qed.
Lemma api_error_local msg : local_pass_error (ApiError msg).
Proof. right. right. by exists msg. Qed.

Lemma upload_loop_errors fuel dbx fr data close sid cur off :
  raises_only local_pass_error (upload_loop api fuel dbx fr data close sid cur off).
Proof.
  revert fr data close sid cur off.
  induction fuel as [|fuel IH]; intros; rewrite upload_loop_unfold;
    ro_split; try apply api_error_local.
  apply IH.
Qed.

Lemma upload_errors dbx path because :
  raises_only local_pass_error (upload api dbx path because).
Proof.
  unfold upload, upload_send. ro_split;
    try apply api_error_local; try apply os_error_local.
  apply upload_loop_errors.
Qed.

Lemma check_state_errors dbx path :
  raises_only local_pass_error (check_state api dbx path).
Proof.
  unfold check_state. ro_split;
    try apply os_error_local; try apply key_error_local; apply upload_errors.
Qed.

Lemma ro_weaken {A : Type} (E E' : PyErr -> Prop) (m : M R A) :
  (forall e, E e -> E' e) -> raises_only E m -> raises_only E' m.
Proof. intros Hsub Hm s e He. eapply Hsub, Hm, He. Qed.

Lemma check_local_errors dbx :
  raises_only local_pass_error (check_local api dbx).
Proof.
  unfold check_local. ro_split.
  - apply ro_for_each. intros x _. apply check_state_errors.
  - apply ro_for_each. intros x _. ro_split.
    eapply ro_weaken; [| apply delete_remote_raises_nothing]. done.
Qed.

Lemma upload_loop_fuel_any fuel dbx fr data close sid cur off :
  keeps (unchanged (fun s : Sys R => (global_dbx s, path_case_map (state s))))
        (upload_loop api fuel dbx fr data close sid cur off).
Proof.
  eapply keeps_weaken; [| apply upload_loop_keeps_machine].
  unfold unchanged, machine. intros s s' [= -> _ -> _]. done.
Qed.

Lemma check_local_keeps_names dbx :
  keeps (unchanged (fun s : Sys R => (global_dbx s, path_case_map (state s))))
        (check_local api dbx).
Proof.
  assert (Hup : forall path because,
             keeps (unchanged (fun s : Sys R => (global_dbx s, path_case_map (state s))))
                   (upload api dbx path because)).
  { intros. unfold upload, upload_send. keeps_split; keeps_quiet;
      try (apply keeps_unchanged_call_api; done).
    apply upload_loop_fuel_any. }
  unfold check_local. keeps_split; keeps_quiet.
  - apply keeps_for_each; [apply _|]. intros x _.
    unfold check_state. keeps_split; keeps_quiet; apply Hup.
  - apply keeps_for_each; [apply _|]. intros x _.
    unfold delete_remote. keeps_split; keeps_quiet.
    apply keeps_unchanged_call_api; done.
Qed.

Lemma check_local_on_client dbx :
  keeps (emits (local_pass_call dbx)) (check_local api dbx).
Proof.
  unfold check_local. keeps_split; keeps_quiet.
  - apply keeps_for_each; [apply _|]. intros x _.
    unfold check_state. keeps_split; keeps_quiet; apply upload_on_client.
  - apply keeps_for_each; [apply _|]. intros x _.
    unfold delete_remote. keeps_split; keeps_quiet.
    by apply keeps_emits_call_api.
Qed.

Lemma check_local_enough_fuel dbx : enough_fuel (check_local api dbx).
Proof.
  unfold check_local. ef_split.
  - apply ef_for_each. intros x _. unfold check_state. ef_split;
      intros s; apply upload_enough_fuel.
  - apply ef_for_each. intros x _. unfold delete_remote. ef_split.
Qed.

End LocalPassClient.

(** [X3] The local pass works on the client
    it was given and never on the module-level [dbx]: every call it makes
    is a transfer of local bytes or a deletion on its argument.  It leaves
    the tree, the case map and the module-level name alone, it always
    comes to an end, and what it raises is an [OSError], a [KeyError] or
    an error of the service. *)
Theorem local_pass_stays_on_its_client :
  forall (R : Type) (api : DropboxAPI R) (dbx : Dbx) (s : Sys R),
    let out := check_local api dbx s in
    Forall (local_pass_call dbx) (new_calls s out.2)
    /\ fs out.2 = fs s
    /\ path_case_map (state out.2) = path_case_map (state s)
    /\ global_dbx out.2 = global_dbx s
    /\ out.1 <> OutOfFuel
    /\ forall e, out.1 = Raise e -> local_pass_error e.
Proof.
  intros R api dbx s out.
  pose proof (check_local_on_client api dbx s) as Hc.
  pose proof (check_local_keeps_fs api dbx s) as Hfs.
  pose proof (check_local_keeps_names api dbx s) as Hn.
  pose proof (check_local_enough_fuel api dbx s) as Hf.
  pose proof (check_local_errors api dbx s) as He.
  fold out in Hc, Hfs, Hn, Hf, He.
  apply emits_new_calls in Hc as [_ Hc].
  unfold unchanged in Hfs, Hn. injection Hn as Hg Hp.
  repeat split; done.
Qed.

(** ** [download_remote] and [delete_local], step by step *)

Lemma mkdir_grows (t t' : gmap string Node) (p : string) :
  FS.mkdir t p = Some t' -> t ⊆ t'.
Proof.
  unfold FS.mkdir, FS.exists_, FS.lookup.
  destruct (String.eqb p ""); [done|]. cbn [orb].
  destruct (String.eqb p "."); [done|].
  destruct (t !! FS.key p) eqn:Hk; [done|].
  destruct (FS.isdir t (FS.parent (FS.key p))); [| done].
  intros [= <-]. by apply insert_subseteq.
Qed.

Lemma makedirs_go_grows (fuel : nat) (t t' : gmap string Node) (name : string) :
  FS.makedirs_go fuel t name = Some t' -> t ⊆ t'.
Proof.
  revert t t' name. induction fuel as [|fuel IH]; intros t t' name; [done|].
  cbn [FS.makedirs_go].
  destruct (Path.split name) as [head tail].
  destruct (if String.eqb tail "" then Path.split head else (head, tail)) as [h tl].
  destruct (negb (String.eqb h "") && negb (String.eqb tl "") && negb (FS.exists_ t h)).
  - destruct (FS.makedirs_go fuel t h) as [t1|] eqn:Hgo; [| done].
    apply IH in Hgo. destruct (String.eqb tl ".").
    + intros [= <-]. done.
    + intros Hmk. apply mkdir_grows in Hmk. by etransitivity.
  - apply mkdir_grows.
Qed.

Lemma makedirs_grows (t t' : gmap string Node) (name : string) :
  FS.makedirs t name = Some t' -> t ⊆ t'.
Proof. apply makedirs_go_grows. Qed.

Lemma write_inv (t t' : gmap string Node) (p : string) (size : N) (mtime : Z) :
  FS.write t p size mtime = Some t' -> t' = <[FS.key p := File size mtime]> t.
Proof.
  unfold FS.write.
  destruct (FS.lookup t p) as [[]|];
    try done; (destruct (FS.isdir t (FS.parent (FS.key p))); [| done]);
    by intros [= <-].
Qed.

Section DownloadFrame.

Context {R : Type}.
Variable api : DropboxAPI R.

(** The end of [download_remote], from the call on, whatever it does. *)
Lemma download_tail_cases dbx path (s : Sys R) :
  let finish :=
    let! result := dbx_files_download_to_file api dbx path (Path.join "/" path) in
    let! mtime := os_path_getmtime path in
    let! meta := new_meta (f_rev result) mtime in
    do! set_state (with_local_files <[path := meta]>) in
    set_state (with_remote_files <[path := meta]>) in
  calls (finish s).2 = calls s ++ [CDownload dbx path (Path.join "/" path)]
  /\ global_dbx (finish s).2 = global_dbx s
  /\ stdout (finish s).2 = stdout s
  /\ path_case_map (state (finish s).2) = path_case_map (state s)
  /\ ((finish s).1 <> Ret tt -> state (finish s).2 = state s)
  /\ (forall q, q <> path ->
        local_files (state (finish s).2) !! q = local_files (state s) !! q
        /\ remote_files (state (finish s).2) !! q = remote_files (state s) !! q)
  /\ (forall k, k <> FS.key path -> fs (finish s).2 !! k = fs s !! k)
  /\ ((finish s).1 = Ret tt -> FS.isfile (fs (finish s).2) path = true)
  /\ (forall msg n,
        files_download_to_file api dbx path (Path.join "/" path) (net s) = (inl msg, n) ->
        (finish s).1 = Raise (ApiError msg) /\ fs (finish s).2 = fs s).
Proof.
  cbv zeta. run.
  destruct (files_download_to_file _ _ _ _ _) as [[msg|d] n] eqn:Hd; run.
  { repeat split; try done. congruence. }
  destruct (FS.write (fs s) path (dl_size d) (dl_mtime d)) as [t2|] eqn:Hw; run.
  2: { repeat split; try done. }
  assert (Ht : FS.getmtime t2 path = Some (dl_mtime d)).
  { eapply write_getmtime; [| exact Hw]. intros ->.
    by rewrite write_not_root in Hw. }
  rewrite Ht. run.
  apply write_inv in Hw as Heq.
  split; [done|]. split; [done|]. split; [done|]. split; [done|].
  split; [done|].
  split; [intros q Hq; by rewrite !lookup_insert_ne |].
  split; [intros k Hk; rewrite Heq; by rewrite lookup_insert_ne |].
  split; [| intros msg n' [=]].
  intros _. unfold FS.getmtime in Ht. unfold FS.isfile.
  by destruct (FS.lookup t2 path) as [[]|].
Qed.

End DownloadFrame.

Lemma download_remote_frame :
  forall (R : Type) (api : DropboxAPI R) (dbx : Dbx) (path : string)
         (because : option string) (s : Sys R),
    let out := download_remote api dbx path because s in
    (new_calls s out.2 = []
     \/ new_calls s out.2 = [CDownload dbx path (Path.join "/" path)])
    /\ (out.1 = Ret tt ->
        new_calls s out.2 = [CDownload dbx path (Path.join "/" path)]
        /\ FS.isfile (fs out.2) path = true)
    /\ (out.1 <> Ret tt -> state out.2 = state s)
    /\ path_case_map (state out.2) = path_case_map (state s)
    /\ global_dbx out.2 = global_dbx s
    /\ (forall q, q <> path ->
          local_files (state out.2) !! q = local_files (state s) !! q
          /\ remote_files (state out.2) !! q = remote_files (state s) !! q)
    /\ (forall k n, k <> FS.key path -> fs s !! k = Some n -> fs out.2 !! k = Some n).
Proof.
  intros R api dbx path because s out. subst out.
  rewrite download_remote_unfold. cbv zeta.
  set (s0 := (print [Str.TAB +:+ "Downloading: "; path; or_empty because] s).2).
  assert (Hnew : forall s1 : Sys R, calls s1 = calls s ++ [CDownload dbx path (Path.join "/" path)] ->
                   new_calls s s1 = [CDownload dbx path (Path.join "/" path)]).
  { intros s1 Hc. unfold new_calls. rewrite Hc. by rewrite drop_app_length. }
  assert (Hnone : forall s1 : Sys R, calls s1 = calls s -> new_calls s s1 = []).
  { intros s1 Hc. unfold new_calls. rewrite Hc. by rewrite drop_all. }
  destruct (negb _ && negb _).
  - destruct (FS.makedirs (fs s) _) as [t1|] eqn:Hmk.
    + apply makedirs_grows in Hmk.
      destruct (download_tail_cases api dbx path (set_fs t1 s0).2)
        as (Hc & Hg & _ & Hp & Hst & Hq & Hk & Hf & _).
      cbv zeta in Hc, Hg, Hp, Hst, Hq, Hk, Hf.
      split; [right; by apply Hnew|].
      split; [intros Hret; split; [by apply Hnew | by apply Hf]|].
      split; [exact Hst|]. split; [exact Hp|]. split; [exact Hg|].
      split; [exact Hq|].
      intros k n Hne Hsome. rewrite Hk by done. cbn [set_fs snd fs].
      by eapply lookup_weaken.
    + cbn [fst snd]. split; [left; by apply Hnone|].
      split; [intros [=]|]. repeat split; done.
  - destruct (download_tail_cases api dbx path s0)
      as (Hc & Hg & _ & Hp & Hst & Hq & Hk & Hf & _).
    cbv zeta in Hc, Hg, Hp, Hst, Hq, Hk, Hf.
    split; [right; by apply Hnew|].
    split; [intros Hret; split; [by apply Hnew | by apply Hf]|].
    split; [exact Hst|]. split; [exact Hp|]. split; [exact Hg|].
    split; [exact Hq|].
    intros k n Hne Hsome. by rewrite Hk.
Qed.

(** [X4] [download_remote] makes at most
    one call, [files_download_to_file(path, '/' + path)] on the client it
    was given, and exactly that call when it returns, with a regular file
    then at [path].  When it does not return, neither dictionary has
    changed.  It never touches the case map, the records of other paths,
    or any other entry of the tree (directories may be added). *)
Theorem download_remote_all_or_nothing :
  forall (R : Type) (api : DropboxAPI R) (dbx : Dbx) (path : string)
         (because : option string) (s : Sys R),
    let out := download_remote api dbx path because s in
    (new_calls s out.2 = []
     \/ new_calls s out.2 = [CDownload dbx path (Path.join "/" path)])
    /\ (out.1 = Ret tt ->
        new_calls s out.2 = [CDownload dbx path (Path.join "/" path)]
        /\ FS.isfile (fs out.2) path = true)
    /\ (out.1 <> Ret tt -> state out.2 = state s)
    /\ path_case_map (state out.2) = path_case_map (state s)
    /\ global_dbx out.2 = global_dbx s
    /\ (forall q, q <> path ->
          local_files (state out.2) !! q = local_files (state s) !! q
          /\ remote_files (state out.2) !! q = remote_files (state s) !! q)
    /\ (forall k n, k <> FS.key path -> fs s !! k = Some n -> fs out.2 !! k = Some n).
Proof. exact download_remote_frame. Qed.

(** [X5] The missing directories of a
    download are made before the request.  When they cannot be made,
    [OSError] is raised and no call is made; when they are made and the
    service then refuses the download, the error of the service is raised,
    no record is written, and the new directories stay in the tree. *)
Theorem failed_download_leaves_directories :
  forall (R : Type) (api : DropboxAPI R) (dbx : Dbx) (path : string)
         (because : option string) (s : Sys R) (head tail : string),
    Path.split path = (head, tail) ->
    head <> "" ->
    FS.exists_ (fs s) head = false ->
    let out := download_remote api dbx path because s in
    (FS.makedirs (fs s) head = None ->
     out.1 = Raise OSError /\ calls out.2 = calls s /\ fs out.2 = fs s
     /\ state out.2 = state s)
    /\ (forall t1 msg n,
          FS.makedirs (fs s) head = Some t1 ->
          files_download_to_file api dbx path (Path.join "/" path) (net s)
          = (inl msg, n) ->
          out.1 = Raise (ApiError msg)
          /\ fs out.2 = t1
          /\ fs s ⊆ t1
          /\ state out.2 = state s).
Proof.
  intros R api dbx path because s head tail Hsplit Hhead Hex out. subst out.
  rewrite download_remote_unfold. cbv zeta. rewrite Hsplit. cbn [fst].
  apply String.eqb_neq in Hhead. rewrite Hhead, Hex. cbn [negb andb].
  split.
  - intros ->. done.
  - intros t1 msg n Hmk Hd. rewrite Hmk.
    set (s0 := (print [Str.TAB +:+ "Downloading: "; path; or_empty because] s).2).
    destruct (download_tail_cases api dbx path (set_fs t1 s0).2)
      as (_ & _ & _ & _ & Hst & _ & _ & _ & Hfail).
    cbv zeta in Hst, Hfail.
    destruct (Hfail msg n Hd) as [Hr Hfs].
    split; [exact Hr|]. split; [exact Hfs|].
    split; [by apply makedirs_grows in Hmk|].
    apply Hst. rewrite Hr. done.
Qed.

Lemma failed_download_leaves_directories_witness :
  let s := start_sys init_state ∅
             {| mock_pages := []; mock_delete_fails := false; mock_revs := 0 |}
             (Some main_dbx) in
  let refusing : DropboxAPI Mock :=
    {| files_list_folder := files_list_folder mock_api;
       files_list_folder_continue := files_list_folder_continue mock_api;
       files_download_to_file := fun _ _ _ n => (inl "no route", n);
       files_delete := files_delete mock_api;
       files_upload := files_upload mock_api;
       files_upload_session_start := files_upload_session_start mock_api;
       files_upload_session_append_v2 := files_upload_session_append_v2 mock_api;
       files_upload_session_finish := files_upload_session_finish mock_api |} in
  (download_remote refusing main_dbx "Photos/img.png" None s).1
  = Raise (ApiError "no route")
  /\ fs (download_remote refusing main_dbx "Photos/img.png" None s).2
     = {[ "Photos" := Dir ]}.
Proof.
  intros s refusing.
  destruct (failed_download_leaves_directories Mock refusing main_dbx
              "Photos/img.png" None s "Photos" "img.png" eq_refl
              ltac:(discriminate) eq_refl) as [_ H].
  destruct (H {[ "Photos" := Dir ]} "no route" (net s)) as (H1 & H2 & _).
  - vm_compute. reflexivity.
  - reflexivity.
  - split; [exact H1 | exact H2].
Defined.

Section DeleteLocal.

Context {R : Type}.

Lemma after_remove_spec (t : gmap string Node) (p : string) :
  after_remove t p ⊆ t
  /\ FS.isfile (after_remove t p) p = false
  /\ (forall k, k <> FS.key p -> after_remove t p !! k = t !! k).
Proof.
  destruct (remove_tried t p) as (t' & Heq & H1 & H2 & H3).
  unfold after_remove. rewrite Heq. done.
Qed.

Lemma rmdir_inv (t t' : gmap string Node) (d : string) :
  FS.rmdir t d = Some t' ->
  t' = delete (FS.key d) t /\ t !! FS.key d = Some Dir.
Proof.
  unfold FS.rmdir. destruct (String.eqb d ".") eqn:Hdot; [done|].
  destruct (FS.listdir t d) as [[|x l]|] eqn:Hls; try done.
  intros [= <-]. split; [done|].
  unfold FS.listdir, FS.isdir, FS.lookup in Hls. rewrite Hdot in Hls.
  by destruct (t !! FS.key d) as [[]|].
Qed.

(** [delete_local], whatever it does to the records, is confined to the
    machine it runs on, to the records of its path, and to the file and one
    directory of the tree. *)
Lemma delete_local_frame (path : string) (s : Sys R) :
  let out := delete_local path s in
  calls out.2 = calls s
  /\ net out.2 = net s
  /\ global_dbx out.2 = global_dbx s
  /\ path_case_map (state out.2) = path_case_map (state s)
  /\ (forall q, q <> path ->
        local_files (state out.2) !! q = local_files (state s) !! q
        /\ remote_files (state out.2) !! q = remote_files (state s) !! q)
  /\ fs out.2 ⊆ fs s
  /\ (forall k a b, k <> FS.key path -> fs s !! k = Some (File a b) ->
                    fs out.2 !! k = Some (File a b)).
Proof.
  cbv zeta. unfold delete_local. run. cbv zeta.
  destruct (after_remove_spec (fs s) path) as (Hsub & _ & Hframe).
  unfold after_remove in Hsub, Hframe.
  destruct (FS.remove (fs s) path) as [t1|]; run.
  all: destruct (local_files (state s) !! path) as [ml|]; run.
  all: try (destruct (remote_files (state s) !! path) as [mr|]; run).
  all: try match goal with
       | |- context [FS.exists_ ?t ?d] =>
           destruct (FS.exists_ t d) eqn:Hex; run;
           [ destruct (FS.listdir t d) as [[|x l]|] eqn:Hls; run;
             [ destruct (FS.rmdir t d) as [t2|] eqn:Hrm; run | | ] | ]
       end.
  all: split; [done|]; split; [done|]; split; [done|]; split; [done|].
  all: split; [intros q Hq; rewrite ?lookup_delete_ne by done; done |].
  all: try (apply rmdir_inv in Hrm as [-> Hdir]).
  all: split;
    [ first [ exact Hsub | done
            | etransitivity; [apply delete_subseteq | exact Hsub] ] |].
  all: intros k a b Hk Hfile.
  all: try (destruct (decide (k = FS.key (if String.eqb (Path.dirname path) "" then "."
                                          else Path.dirname path))) as [-> | Hne];
            [ first [ rewrite (lookup_weaken _ _ _ _ Hdir Hsub) in Hfile
                    | rewrite Hdir in Hfile ]; discriminate
            | rewrite lookup_delete_ne by done ]).
  all: first [ by rewrite Hframe | done ].
Qed.

End DeleteLocal.

(** [X6] [delete_local] removes
    the file before it touches the dictionaries.  Called for a path that
    [local_files] does not hold, it raises [KeyError] with the file already
    gone; called for a path that only [local_files] holds, it raises
    [KeyError] with the file gone and the local record dropped, the remote
    dictionary being as it was. *)
Theorem delete_local_removes_before_it_forgets :
  forall (R : Type) (path : string) (s : Sys R),
    let out := delete_local path s in
    fs out.2 ⊆ fs s
    /\ (local_files (state s) !! path = None ->
        out.1 = Raise (KeyError path)
        /\ state out.2 = state s
        /\ fs out.2 = after_remove (fs s) path
        /\ FS.isfile (fs out.2) path = false)
    /\ (is_Some (local_files (state s) !! path) ->
        remote_files (state s) !! path = None ->
        out.1 = Raise (KeyError path)
        /\ local_files (state out.2) = delete path (local_files (state s))
        /\ remote_files (state out.2) = remote_files (state s)
        /\ fs out.2 = after_remove (fs s) path
        /\ FS.isfile (fs out.2) path = false).
Proof.
  intros R path s out.
  split; [apply (delete_local_frame path s)|].
  destruct (after_remove_spec (fs s) path) as (_ & Hnofile & _).
  subst out. unfold delete_local. run. unfold after_remove in *.
  split.
  - intros Hl. destruct (FS.remove (fs s) path) as [t1|]; run; rewrite Hl; run; done.
  - intros [ml Hl] Hr.
    destruct (FS.remove (fs s) path) as [t1|]; run; rewrite Hl; run; rewrite Hr; run;
      done.
Qed.

Lemma delete_local_removes_before_it_forgets_witness :
  let s := start_sys init_state notes_fs (mock_net [] false) (Some main_dbx) in
  (delete_local "notes.txt" s).1 = Raise (KeyError "notes.txt")
  /\ fs (delete_local "notes.txt" s).2 = ∅.
Proof.
  intros s.
  destruct (delete_local_removes_before_it_forgets Mock "notes.txt" s)
    as (_ & H & _).
  destruct (H eq_refl) as (H1 & _ & H2 & _).
  split; [exact H1|]. rewrite H2. vm_compute. reflexivity.
Defined.

(** [X7] [delete_local] looks at the
    directory of the path once the records are dropped, and [os.rmdir]
    refuses the current directory: when the path lies at the top and its
    deletion leaves the top empty, [OSError] is raised, with the file and
    both records already gone. *)
Theorem delete_local_cannot_remove_the_root :
  forall (R : Type) (path : string) (s : Sys R),
    dir_of path = "." ->
    is_Some (local_files (state s) !! path) ->
    is_Some (remote_files (state s) !! path) ->
    FS.listdir (after_remove (fs s) path) "." = Some [] ->
    let out := delete_local path s in
    out.1 = Raise OSError
    /\ local_files (state out.2) = delete path (local_files (state s))
    /\ remote_files (state out.2) = delete path (remote_files (state s))
    /\ fs out.2 = after_remove (fs s) path.
Proof.
  intros R path s Hdir [ml Hl] [mr Hr] Hls out. subst out.
  unfold dir_of in Hdir. unfold delete_local. run. cbv zeta. rewrite Hdir.
  unfold after_remove in *.
  destruct (FS.remove (fs s) path) as [t1|]; run; rewrite Hl; run; rewrite Hr; run;
    change (FS.exists_ _ ".") with true; run; rewrite Hls; run;
    change (FS.rmdir _ ".") with (@None (gmap string Node)); run; done.
Qed.

Lemma delete_local_cannot_remove_the_root_witness :
  let known : Meta := {| oid := 0; rev := "r1"; modified := 10 |} in
  let s := start_sys {| path_case_map := ∅;
                        local_files := {[ "notes.txt" := known ]};
                        remote_files := {[ "notes.txt" := known ]} |}
                     notes_fs (mock_net [] false) (Some main_dbx) in
  (delete_local "notes.txt" s).1 = Raise OSError
  /\ local_files (state (delete_local "notes.txt" s).2) !! "notes.txt" = None
  /\ fs (delete_local "notes.txt" s).2 = ∅.
Proof.
  intros known s.
  destruct (delete_local_cannot_remove_the_root Mock "notes.txt" s)
    as (H1 & H2 & _ & H4).
  - reflexivity.
  - by exists known.
  - by exists known.
  - vm_compute. reflexivity.
  - split; [exact H1|]. split.
    + rewrite H2. apply lookup_delete_eq.
    + rewrite H4. vm_compute. reflexivity.
Defined.

(** [X8] Whatever [delete_local] does, it makes
    no call and leaves the remote side, the module-level [dbx], the case
    map and the records of the other paths alone; the tree only shrinks,
    and every regular file other than the one at [path] stays as it was. *)
Theorem delete_local_is_confined :
  forall (R : Type) (path : string) (s : Sys R),
    let out := delete_local path s in
    calls out.2 = calls s
    /\ net out.2 = net s
    /\ global_dbx out.2 = global_dbx s
    /\ path_case_map (state out.2) = path_case_map (state s)
    /\ (forall q, q <> path ->
          local_files (state out.2) !! q = local_files (state s) !! q
          /\ remote_files (state out.2) !! q = remote_files (state s) !! q)
    /\ fs out.2 ⊆ fs s
    /\ (forall k a b, k <> FS.key path -> fs s !! k = Some (File a b) ->
                      fs out.2 !! k = Some (File a b)).
Proof. intros R path s. apply delete_local_frame. Qed.

(** ** Strings and paths *)

Section StringFacts.

Lemma str_app_nil_l (s : string) : "" +:+ s = s.
Proof. reflexivity. Qed.

Lemma str_app_cons (c : ascii) (a b : string) : String c a +:+ b = String c (a +:+ b).
Proof. reflexivity. Qed.

Lemma str_app_nil_r (s : string) : s +:+ "" = s.
Proof. induction s as [|c s IH]; [done|]. by rewrite str_app_cons, IH. Qed.

Lemma str_app_assoc (a b c : string) : (a +:+ b) +:+ c = a +:+ (b +:+ c).
Proof. induction a as [|x a IH]; [done|]. by rewrite !str_app_cons, IH. Qed.

Lemma rev_app_spec (s1 s2 : string) :
  String.rev_app s1 s2 = String.rev s1 +:+ s2.
Proof.
  unfold String.rev. revert s2.
  induction s1 as [|c s1 IH]; intros s2; [done|].
  cbn [String.rev_app]. rewrite IH, (IH (String c "")), str_app_assoc. done.
Qed.

Lemma str_rev_cons (c : ascii) (s : string) :
  String.rev (String c s) = String.rev s +:+ String c "".
Proof. unfold String.rev at 1. cbn [String.rev_app]. apply rev_app_spec. Qed.

Lemma str_rev_app (a b : string) : String.rev (a +:+ b) = String.rev b +:+ String.rev a.
Proof.
  induction a as [|c a IH]; [by rewrite str_app_nil_l, str_app_nil_r|].
  by rewrite str_app_cons, !str_rev_cons, IH, str_app_assoc.
Qed.

Lemma str_rev_involutive (s : string) : String.rev (String.rev s) = s.
Proof.
  induction s as [|c s IH]; [done|].
  by rewrite str_rev_cons, str_rev_app, IH.
Qed.

Lemma contains_app (sep : ascii) (a b : string) :
  contains sep (a +:+ b) = contains sep a || contains sep b.
Proof.
  induction a as [|c a IH]; [done|].
  rewrite str_app_cons. cbn [contains]. by rewrite IH, orb_assoc.
Qed.

Lemma contains_rev (sep : ascii) (s : string) :
  contains sep (String.rev s) = contains sep s.
Proof.
  induction s as [|c s IH]; [done|].
  rewrite str_rev_cons, contains_app, IH. cbn [contains].
  by rewrite orb_false_r, orb_comm.
Qed.

(** Splitting at a separator splits the list of fields. *)
Lemma split_go_app (sep : ascii) (cur a b : string) :
  Str.split_go sep cur (a +:+ String sep b)
  = Str.split_go sep cur a ++ Str.split_go sep "" b.
Proof.
  revert cur. induction a as [|c a IH]; intros cur.
  - rewrite str_app_nil_l. cbn [Str.split_go]. by rewrite Ascii.eqb_refl.
  - rewrite str_app_cons. cbn [Str.split_go]. destruct (Ascii.eqb c sep).
    + by rewrite IH.
    + apply IH.
Qed.

Lemma split_app (sep : ascii) (a b : string) :
  Str.split sep (a +:+ String sep b) = Str.split sep a ++ Str.split sep b.
Proof. apply split_go_app. Qed.

Lemma split_go_free (sep : ascii) (cur s : string) :
  contains sep s = false -> Str.split_go sep cur s = [String.rev cur +:+ s].
Proof.
  revert cur. induction s as [|c s IH]; intros cur Hs.
  - cbn [Str.split_go]. by rewrite str_app_nil_r.
  - cbn [contains] in Hs. apply orb_false_iff in Hs as [Hc Hs].
    cbn [Str.split_go]. rewrite Hc, IH by done.
    by rewrite str_rev_cons, str_app_assoc.
Qed.

Lemma split_free (sep : ascii) (s : string) :
  contains sep s = false -> Str.split sep s = [s].
Proof. intros Hs. unfold Str.split. by rewrite split_go_free. Qed.

Lemma split_go_nonempty (sep : ascii) (cur s : string) :
  Str.split_go sep cur s <> [].
Proof.
  revert cur. induction s as [|c s IH]; intros cur; cbn [Str.split_go]; [done|].
  destruct (Ascii.eqb c sep); [done | apply IH].
Qed.

Lemma split_nonempty (sep : ascii) (s : string) : Str.split sep s <> [].
Proof. apply split_go_nonempty. Qed.

(** The fields hold no separator. *)
Lemma split_go_fields (sep : ascii) (cur s : string) (f : string) :
  contains sep cur = false ->
  f ∈ Str.split_go sep cur s -> contains sep f = false.
Proof.
  revert cur. induction s as [|c s IH]; intros cur Hcur; cbn [Str.split_go].
  - intros ->%list_elem_of_singleton. by rewrite contains_rev.
  - destruct (Ascii.eqb c sep) eqn:Hc.
    + intros [-> | Hin]%elem_of_cons; [by rewrite contains_rev|].
      exact (IH "" eq_refl Hin).
    + apply IH. cbn [contains]. by rewrite Hc, Hcur.
Qed.

Lemma split_fields (sep : ascii) (s f : string) :
  f ∈ Str.split sep s -> contains sep f = false.
Proof. by apply split_go_fields. Qed.

Lemma span_sep_free (sep : ascii) (s : string) :
  contains sep s = false -> Str.span_sep sep s = (s, "").
Proof.
  induction s as [|c s IH]; [done|]. cbn [contains Str.span_sep].
  intros [Hc Hs]%orb_false_iff. by rewrite Hc, IH.
Qed.

Lemma span_sep_app (sep : ascii) (a b : string) :
  contains sep a = false ->
  Str.span_sep sep (a +:+ String sep b) = (a, String sep b).
Proof.
  induction a as [|c a IH].
  - intros _. rewrite str_app_nil_l. cbn [Str.span_sep]. by rewrite Ascii.eqb_refl.
  - cbn [contains]. intros [Hc Ha]%orb_false_iff.
    rewrite str_app_cons. cbn [Str.span_sep]. by rewrite Hc, IH.
Qed.

Lemma span_sep_fst_free (sep : ascii) (s : string) :
  contains sep (Str.span_sep sep s).1 = false.
Proof.
  induction s as [|c s IH]; [done|]. cbn [Str.span_sep].
  destruct (Ascii.eqb c sep) eqn:Hc; [done|].
  destruct (Str.span_sep sep s) as [a b]. cbn [fst contains] in *.
  by rewrite Hc, IH.
Qed.

Lemma basename_free (p : string) : contains Str.SLASH (Path.basename p) = false.
Proof.
  unfold Path.basename, Path.split.
  pose proof (span_sep_fst_free Str.SLASH (String.rev p)) as H.
  destruct (Str.span_sep Str.SLASH (String.rev p)) as [tail_r head_r].
  cbn [fst snd] in *. by rewrite contains_rev.
Qed.

Lemma basename_of_free (f : string) :
  contains Str.SLASH f = false -> Path.basename f = f.
Proof.
  intros Hf. unfold Path.basename, Path.split.
  rewrite span_sep_free by (by rewrite contains_rev).
  cbn [snd]. apply str_rev_involutive.
Qed.

Lemma basename_app (x f : string) :
  contains Str.SLASH f = false -> Path.basename (x +:+ "/" +:+ f) = f.
Proof.
  intros Hf. unfold Path.basename, Path.split.
  rewrite str_rev_app, str_rev_app. change (String.rev "/") with "/".
  rewrite str_app_assoc.
  change ("/" +:+ String.rev x) with (String Str.SLASH (String.rev x)).
  rewrite span_sep_app by (by rewrite contains_rev).
  cbn [snd]. apply str_rev_involutive.
Qed.

Lemma startswith_slash_free (d : string) :
  contains Str.SLASH d = false -> Str.startswith d "/" = false.
Proof.
  destruct d as [|c d]; [done|]. cbn [contains].
  intros [Hc _]%orb_false_iff. unfold Str.startswith. cbn [String.prefix].
  destruct (ascii_dec c "/") as [->|Hne]; [done|].
  unfold Str.SLASH in Hc. change (ascii_of_nat 47) with "/"%char in Hc.
  destruct (Ascii.ascii_dec "/" c) as [<-|?]; done.
Qed.

Lemma endswith_inv (s suf : string) :
  Str.endswith s suf = true -> exists pre, s = pre +:+ suf.
Proof.
  induction s as [|c s IH]; rewrite endswith_unfold.
  - destruct (String.eqb_spec "" suf) as [<-|]; [| done]. by exists "".
  - destruct (String.eqb_spec (String c s) suf) as [<-|].
    + by exists "".
    + intros [pre ->]%IH. by exists (String c pre).
Qed.

(** [os.path.join] with a second part that holds no slash. *)
Lemma join_free (top d : string) :
  contains Str.SLASH d = false ->
  Path.join top d = top +:+ d /\ (top = "" \/ exists pre, top = pre +:+ "/")
  \/ Path.join top d = top +:+ "/" +:+ d /\ top <> ""
     /\ Str.endswith top "/" = false.
Proof.
  intros Hd. unfold Path.join. rewrite startswith_slash_free by done.
  destruct (String.eqb_spec top "") as [->|Hne]; cbn [orb].
  - left. split; [done | by left].
  - destruct (Str.endswith top "/") eqn:He.
    + left. split; [done|]. right. by apply endswith_inv.
    + right. done.
Qed.

End StringFacts.

(** ** What the walk selects *)

Section WalkFacts.

Lemma listdir_names_free (t : gmap string Node) (d : string) (names : list string)
  (n : string) :
  FS.listdir t d = Some names -> n ∈ names -> contains Str.SLASH n = false.
Proof.
  unfold FS.listdir. destruct (FS.isdir t d); [| done].
  intros [= <-] Hin. apply list_elem_of_fmap in Hin as (k & -> & _).
  apply basename_free.
Qed.

Lemma dot_not_slashed (pre : string) : "." <> pre +:+ "/".
Proof. destruct pre as [|c [|c2 pre]]; rewrite ?str_app_cons, ?str_app_nil_l; done. Qed.

Lemma under_top_join (top d : string) :
  under_top top -> contains Str.SLASH d = false -> under_top (Path.join top d).
Proof.
  intros Htop Hd.
  destruct (join_free top d Hd) as [[-> Hend] | (-> & Hne & _)].
  - destruct Htop as [-> | [x ->]].
    + destruct Hend as [? | [pre Hpre]]; [done|]. by apply dot_not_slashed in Hpre.
    + right. exists (x +:+ d). by rewrite str_app_assoc.
  - destruct Htop as [-> | [x ->]].
    + right. by exists d.
    + right. exists (x +:+ "/" +:+ d). by rewrite str_app_assoc.
Qed.

Lemma walk_go_roots (fuel : nat) (t : gmap string Node) (top root : string)
  (ds fns : list string) :
  under_top top ->
  (root, ds, fns) ∈ FS.walk_go fuel t top ->
  under_top root /\ forall f, f ∈ fns -> contains Str.SLASH f = false.
Proof.
  revert top. induction fuel as [|fuel IH]; intros top Htop; cbn [FS.walk_go].
  - by intros ?%elem_of_nil.
  - destruct (FS.listdir t top) as [names|] eqn:Hls; [| by intros ?%elem_of_nil].
    intros [Hhead | Hin]%elem_of_cons.
    + injection Hhead as -> -> ->. split; [done|].
      intros f Hf. apply list_elem_of_In, filter_In in Hf as [Hf _].
      eapply listdir_names_free; [exact Hls | by apply list_elem_of_In].
    + apply list_elem_of_In, in_flat_map in Hin as (d & Hd & Hin).
      apply filter_In in Hd as [Hd _].
      eapply IH; [| apply list_elem_of_In, Hin].
      apply under_top_join; [done|].
      eapply listdir_names_free; [exact Hls | by apply list_elem_of_In].
Qed.

Lemma existsb_none {A : Type} (f : A -> bool) (l : list A) :
  negb (existsb f l) = true -> forall x, x ∈ l -> f x = false.
Proof.
  intros H x Hin. apply negb_true_iff in H.
  destruct (f x) eqn:Hx; [| done].
  assert (existsb f l = true); [| congruence].
  apply existsb_exists. exists x. split; [by apply list_elem_of_In | done].
Qed.

(** What [valid_dir_for_upload] accepts. *)
Lemma valid_dir_inv (dir : string) :
  valid_dir_for_upload dir = true ->
  (forall part, part ∈ Str.split Str.SLASH dir ->
                part = "." \/ Str.startswith part "." = false)
  /\ (forall p0 p1 rest, Str.split Str.SLASH dir = p0 :: p1 :: rest ->
        Str.startswith p1 "site" = false /\ p1 <> "temp" /\ p1 <> "Examples").
Proof.
  unfold valid_dir_for_upload. cbv zeta.
  set (path := Str.split Str.SLASH dir).
  destruct (match path with
            | _ :: p1 :: _ =>
                Str.startswith p1 "site" || bool_decide (p1 ∈ ["temp"; "Examples"])
            | _ => false
            end) eqn:Hres; [done|].
  intros Hhid. split.
  - intros part Hin. pose proof (existsb_none _ _ Hhid part Hin) as Hp.
    cbv beta in Hp. apply andb_false_iff in Hp as [Hp | Hp]; [left | by right].
    apply negb_false_iff in Hp. by apply String.eqb_eq.
  - intros p0 p1 rest Heq. rewrite Heq in Hres.
    apply orb_false_iff in Hres as [Hsite Hres]. split; [done|].
    apply bool_decide_eq_false in Hres.
    split; intros ->; apply Hres; set_solver.
Qed.

Lemma slashed_tail (x pre : string) :
  "./" +:+ x = pre +:+ "/" -> x = "" \/ exists x', x = x' +:+ "/".
Proof.
  change ("./" +:+ x) with (String "." (String "/" x)).
  destruct pre as [|c [|c2 pre]]; rewrite ?str_app_cons, ?str_app_nil_l; [done | |].
  - intros [= ? <-]. by left.
  - intros [= ? ? ->]. right. by exists pre.
Qed.

End WalkFacts.

Lemma local_filelist_filtered :
  forall (t : gmap string Node) (p : string),
    p ∈ local_filelist t ->
    exists dirs filename,
      Str.split Str.SLASH p = dirs ++ [filename]
      /\ valid_filename_for_upload filename = true
      /\ (forall d, d ∈ dirs -> d = "." \/ Str.startswith d "." = false)
      /\ (forall d rest, dirs = d :: rest ->
            Str.startswith d "site" = false /\ d <> "temp" /\ d <> "Examples").
Proof.
  intros t p Hp.
  apply local_filelist_selected in Hp
    as (root & dirnames & filenames & filename & Hwalk & Hin & -> & Hvd & Hvf).
  unfold FS.walk in Hwalk.
  apply walk_go_roots in Hwalk as [Hroot Hfree]; [| by left].
  specialize (Hfree filename Hin).
  apply valid_dir_inv in Hvd as [Hparts Htop].
  assert (Hsingle : Str.split Str.SLASH filename = [filename])
    by (by apply split_free).
  destruct (join_free root filename Hfree) as [[-> Hend] | (-> & Hne & _)];
    destruct Hroot as [-> | [x ->]].
  - destruct Hend as [? | [pre Hpre]]; [done|]. by apply dot_not_slashed in Hpre.
  - destruct Hend as [? | [pre Hpre]]; [done|].
    apply slashed_tail in Hpre as [-> | [x' ->]].
    + exists [], filename. split; [exact Hsingle|]. split; [done|].
      split; [intros d Hd; by apply elem_of_nil in Hd | intros d rest Heq; discriminate Heq].
    + exists (Str.split Str.SLASH x'), filename.
      change (Str.split Str.SLASH ("./" +:+ x' +:+ "/"))
        with (Str.split Str.SLASH ("." +:+ String Str.SLASH (x' +:+ String Str.SLASH "")))
        in Hparts, Htop.
      rewrite !split_app in Hparts, Htop.
      change (Str.split Str.SLASH ".") with ["."] in Hparts, Htop.
      change (Str.split Str.SLASH "") with [""] in Hparts, Htop.
      split.
      { change (Str.drop2 (("./" +:+ x' +:+ "/") +:+ filename))
          with ((x' +:+ "/") +:+ filename).
        rewrite str_app_assoc.
        change ("/" +:+ filename) with (String Str.SLASH filename).
        by rewrite split_app, Hsingle. }
      split; [done|]. split.
      * intros d Hd. apply Hparts. apply elem_of_cons. right.
        apply elem_of_app. by left.
      * intros d rest Heq. eapply (Htop "." d (rest ++ [""])).
        rewrite Heq. done.
  - exists [], filename. split; [exact Hsingle|]. split; [done|].
    split; [intros d Hd; by apply elem_of_nil in Hd | intros d rest Heq; discriminate Heq].
  - exists (Str.split Str.SLASH x), filename.
    change (Str.split Str.SLASH ("./" +:+ x))
      with (Str.split Str.SLASH ("." +:+ String Str.SLASH x)) in Hparts, Htop.
    rewrite split_app in Hparts, Htop.
    change (Str.split Str.SLASH ".") with ["."] in Hparts, Htop.
    split.
    { change (Str.drop2 (("./" +:+ x) +:+ "/" +:+ filename))
        with (x +:+ String Str.SLASH filename).
      by rewrite split_app, Hsingle. }
    split; [done|]. split.
    * intros d Hd. apply Hparts. apply elem_of_cons. by right.
    * intros d rest Heq. eapply (Htop "." d rest). rewrite Heq. done.
Qed.

(** [X9] Every path that the local pass
    hands to [check_state] splits at its slashes into directories and a
    file name such that the file name passes [valid_filename_for_upload],
    no directory other than [.] starts with a dot, and the first directory
    is neither a [site...] directory nor [temp] nor [Examples]. *)
Theorem walked_paths_pass_the_filters :
  forall (t : gmap string Node) (p : string),
    p ∈ local_filelist t ->
    exists dirs filename,
      Str.split Str.SLASH p = dirs ++ [filename]
      /\ valid_filename_for_upload filename = true
      /\ (forall d, d ∈ dirs -> d = "." \/ Str.startswith d "." = false)
      /\ (forall d rest, dirs = d :: rest ->
            Str.startswith d "site" = false /\ d <> "temp" /\ d <> "Examples").
Proof. exact local_filelist_filtered. Qed.

Lemma walked_paths_pass_the_filters_witness :
  "src/main.py" ∈ local_filelist filters_fs
  /\ exists dirs filename,
      Str.split Str.SLASH "src/main.py" = dirs ++ [filename]
      /\ valid_filename_for_upload filename = true
      /\ (forall d, d ∈ dirs -> d = "." \/ Str.startswith d "." = false)
      /\ (forall d rest, dirs = d :: rest ->
            Str.startswith d "site" = false /\ d <> "temp" /\ d <> "Examples").
Proof.
  assert (Hin : "src/main.py" ∈ local_filelist filters_fs).
  { assert (Hl : local_filelist filters_fs = ["notes.txt"; "src/main.py"])
      by (vm_compute; reflexivity).
    rewrite Hl. apply elem_of_cons. right. apply elem_of_cons. by left. }
  split; [exact Hin|].
  exact (walked_paths_pass_the_filters filters_fs "src/main.py" Hin).
Defined.

(** ** Rejected directories, rejected paths *)

(** [X10] [os.walk] is not
    pruned, so every directory below a rejected one is visited: each of
    them is rejected too. *)
Theorem valid_dir_for_upload_covers_subdirectories :
  forall (dir sub : string),
    valid_dir_for_upload dir = false ->
    valid_dir_for_upload (dir +:+ "/" +:+ sub) = false.
Proof.
  intros dir sub. unfold valid_dir_for_upload. cbv zeta.
  change ("/" +:+ sub) with (String Str.SLASH sub). rewrite split_app.
  pose proof (split_nonempty Str.SLASH dir) as Hd.
  destruct (Str.split Str.SLASH dir) as [|p0 [|p1 rest]]; [done | |].
  - cbn [app existsb].
    destruct (negb (String.eqb p0 ".") && Str.startswith p0 "."); [| done].
    intros _. cbn [orb negb].
    by destruct (match Str.split Str.SLASH sub with
                 | [] => false
                 | p1 :: _ => Str.startswith p1 "site"
                              || bool_decide (p1 ∈ ["temp"; "Examples"])
                 end).
  - cbn [app].
    destruct (Str.startswith p1 "site" || bool_decide (p1 ∈ ["temp"; "Examples"]));
      [done|].
    rewrite !negb_false_iff. intros He.
    apply existsb_exists in He as (x & Hx & Hf).
    apply existsb_exists. exists x. split; [| done].
    change (p0 :: p1 :: rest ++ Str.split Str.SLASH sub)
      with ((p0 :: p1 :: rest) ++ Str.split Str.SLASH sub).
    apply in_or_app. by left.
Qed.

Lemma valid_dir_for_upload_covers_subdirectories_witness :
  valid_dir_for_upload "./.git" = false
  /\ valid_dir_for_upload ("./.git" +:+ "/" +:+ "objects/ab") = false.
Proof.
  split; [reflexivity|].
  apply valid_dir_for_upload_covers_subdirectories. reflexivity.
Defined.

Section Excluded.

Context {R : Type}.
Variable api : DropboxAPI R.

(** A path that the filters reject is not in the list of the walk. *)
Lemma rejected_not_walked (t : gmap string Node) (path : string)
  (dirs : list string) (filename : string) :
  Str.split Str.SLASH path = dirs ++ [filename] ->
  valid_filename_for_upload filename = false
  \/ (exists d, d ∈ dirs /\ d <> "." /\ Str.startswith d "." = true)
  \/ (exists d rest, dirs = d :: rest
        /\ (Str.startswith d "site" = true \/ d = "temp" \/ d = "Examples")) ->
  path ∉ local_filelist t.
Proof.
  intros Hsplit Hrej Hin.
  apply local_filelist_filtered in Hin
    as (dirs' & filename' & Hsplit' & Hvf & Hparts & Htop).
  rewrite Hsplit in Hsplit'. apply app_inj_tail in Hsplit' as [<- <-].
  destruct Hrej as [Hno | [(d & Hd & Hdot & Hhid) | (d & rest & -> & Hres)]].
  - congruence.
  - destruct (Hparts d Hd); congruence.
  - destruct (Htop d rest eq_refl) as (Hsite & Htemp & Hex).
    destruct Hres as [? | [? | ?]]; congruence.
Qed.

End Excluded.

(** [X11] A path that
    [local_files] knows and the filters reject, by its file name or by
    one of its directories, is not in the list of the walk, whether it is
    in the tree or not: a local pass that returns has called
    [files_delete] for it.  A file with such a name that the remote pass
    has downloaded is in this case. *)
Theorem local_pass_deletes_what_the_filters_reject :
  forall (R : Type) (api : DropboxAPI R) (dbx : Dbx) (s s' : Sys R)
         (path : string) (dirs : list string) (filename : string),
    check_local api dbx s = (Ret tt, s') ->
    is_Some (local_files (state s) !! path) ->
    Str.split Str.SLASH path = dirs ++ [filename] ->
    valid_filename_for_upload filename = false
    \/ (exists d, d ∈ dirs /\ d <> "." /\ Str.startswith d "." = true)
    \/ (exists d rest, dirs = d :: rest
          /\ (Str.startswith d "site" = true \/ d = "temp" \/ d = "Examples")) ->
    CDelete dbx ("/" +:+ path) ∈ new_calls s s'.
Proof.
  intros R api dbx s s' path dirs filename Hrun Hknown Hsplit Hrej.
  eapply check_local_calls_delete; [exact Hrun | exact Hknown |].
  by eapply rejected_not_walked.
Qed.

Lemma local_pass_deletes_what_the_filters_reject_witness :
  let known : Meta := {| oid := 0; rev := "r1"; modified := 1 |} in
  let s := start_sys {| path_case_map := ∅;
                        local_files := {[ ".hidden" := known ]};
                        remote_files := {[ ".hidden" := known ]} |}
                     filters_fs (mock_net [] false) (Some main_dbx) in
  FS.isfile (fs s) ".hidden" = true
  /\ CDelete main_dbx "/.hidden"
       ∈ new_calls s (check_local mock_api main_dbx s).2.
Proof.
  intros known s. split; [vm_compute; reflexivity|].
  assert (Hrun : check_local mock_api main_dbx s
                 = (Ret tt, (check_local mock_api main_dbx s).2))
    by (vm_compute; reflexivity).
  assert (Hknown : is_Some (local_files (state s) !! ".hidden"))
    by (exists known; vm_compute; reflexivity).
  exact (local_pass_deletes_what_the_filters_reject Mock mock_api main_dbx s
           (check_local mock_api main_dbx s).2 ".hidden" [] ".hidden"
           Hrun Hknown eq_refl (or_introl eq_refl)).
Defined.

(** ** How the path of an entry is rebuilt *)

Section Resolution.

Lemma concat_single (sep x : string) : String.concat sep [x] = x.
Proof. reflexivity. Qed.

Lemma concat_cons2 (sep x y : string) (l : list string) :
  String.concat sep (x :: y :: l) = x +:+ sep +:+ String.concat sep (y :: l).
Proof. reflexivity. Qed.

Lemma concat_split_go (cur s : string) :
  String.concat "/" (Str.split_go Str.SLASH cur s) = String.rev cur +:+ s.
Proof.
  revert cur. induction s as [|c s IH]; intros cur; cbn [Str.split_go].
  - by rewrite concat_single, str_app_nil_r.
  - destruct (Ascii.eqb_spec c Str.SLASH) as [->|Hne].
    + pose proof (split_go_nonempty Str.SLASH "" s) as Hnil.
      specialize (IH "").
      destruct (Str.split_go Str.SLASH "" s) as [|x l] eqn:Hs; [done|].
      rewrite concat_cons2, IH. done.
    + rewrite IH, str_rev_cons, str_app_assoc. done.
Qed.

(** Joining the fields of a split gives the string back. *)
Lemma concat_split (s : string) :
  String.concat "/" (Str.split Str.SLASH s) = s.
Proof. apply concat_split_go. Qed.

Lemma segment_not_slashed (a p : string) :
  segment p -> Str.endswith (a +:+ p) "/" = false.
Proof.
  intros [Hne Hfree]. destruct (Str.endswith (a +:+ p) "/") eqn:He; [| done].
  apply endswith_inv in He as [pre He].
  apply (f_equal String.rev) in He. rewrite !str_rev_app in He.
  change (String.rev "/") with "/" in He.
  rewrite <- contains_rev in Hfree.
  destruct (String.rev p) as [|c r] eqn:Hr.
  - apply (f_equal String.rev) in Hr. rewrite str_rev_involutive in Hr. done.
  - rewrite !str_app_cons, str_app_nil_l in He. injection He as -> _.
    cbn [contains] in Hfree. by rewrite Ascii.eqb_refl in Hfree.
Qed.

Lemma join_segment (a p : string) :
  segment p ->
  Path.join a p = if String.eqb a "" then p
                  else if Str.endswith a "/" then a +:+ p else a +:+ "/" +:+ p.
Proof.
  intros [_ Hfree]. unfold Path.join. rewrite startswith_slash_free by done.
  destruct (String.eqb_spec a "") as [->|]; [done|]. cbn [orb]. done.
Qed.

(** Joining segments one after the other puts one slash between them. *)
Lemma fold_join_segments (parts : list string) (acc : string) :
  Forall segment parts ->
  (acc = "" \/ Str.endswith acc "/" = false) ->
  fold_left Path.join parts acc
  = match parts with
    | [] => acc
    | _ :: _ => if String.eqb acc "" then String.concat "/" parts
                else acc +:+ "/" +:+ String.concat "/" parts
    end.
Proof.
  intros Hparts. revert acc.
  induction Hparts as [|p parts Hp Hparts IH]; intros acc Hacc; [done|].
  cbn [fold_left]. rewrite IH.
  2: { right. rewrite join_segment by done.
       destruct (String.eqb acc ""); [apply (segment_not_slashed "" p Hp)|].
       destruct (Str.endswith acc "/");
         [apply segment_not_slashed | rewrite <- str_app_assoc; apply segment_not_slashed];
         done. }
  rewrite join_segment by done.
  assert (Hjoin_ne : forall x, x +:+ p <> "").
  { intros x Hx. destruct Hp as [Hp _]. destruct x; [done | discriminate Hx]. }
  destruct parts as [|q parts'].
  - rewrite concat_single.
    destruct (String.eqb_spec acc "") as [->|Hne]; [done|].
    destruct Hacc as [? | ->]; done.
  - rewrite (concat_cons2 "/" p q parts').
    destruct (String.eqb_spec acc "") as [->|Hne].
    + destruct (String.eqb_spec p "") as [->|_]; [by destruct Hp|]. done.
    + destruct Hacc as [? | ->]; [done|].
      destruct (String.eqb_spec (acc +:+ "/" +:+ p) "") as [He|_].
      * rewrite <- str_app_assoc in He. by apply Hjoin_ne in He.
      * by rewrite !str_app_assoc.
Qed.

Lemma resolve_parts_key (pcm : gmap string string) (name : string)
  (parts : list string) (entry_path path_key : string) :
  (resolve_parts pcm name parts entry_path path_key).2
  = fold_left Path.join parts path_key.
Proof.
  revert entry_path path_key.
  induction parts as [|p parts IH]; intros entry_path path_key; [done|].
  cbn [resolve_parts fold_left]. apply IH.
Qed.

Lemma resolve_parts_unmapped (name : string) (parts : list string)
  (entry_path path_key : string) :
  (resolve_parts ∅ name parts entry_path path_key).1
  = fold_left Path.join (replicate (length parts) name) entry_path.
Proof.
  revert entry_path path_key.
  induction parts as [|p parts IH]; intros entry_path path_key; [done|].
  cbn [resolve_parts length replicate fold_left]. rewrite lookup_empty. apply IH.
Qed.

End Resolution.

(** [X12] For an entry whose
    lower-cased path is made of segments (none empty), the key rebuilt by
    the loop of [__process_remote_entries] is that path without its
    leading slash, whatever the case map holds: a folder entry records its
    name under exactly this key. *)
Theorem folder_casing_is_keyed_by_lower_path :
  forall (R : Type) (api : DropboxAPI R) (pcm : gmap string string)
         (entry : Metadata),
    Forall segment (Str.split Str.SLASH (Str.drop1 (entry_path_lower entry))) ->
    (resolve_entry pcm entry).2 = Str.drop1 (entry_path_lower entry)
    /\ forall (m : FolderMetadata) (current : gset string) (s : Sys R),
         entry = IsFolder m ->
         path_case_map (state (process_remote_entry api entry current s).2)
         = <[Str.drop1 (d_path_lower m) := d_name m]> (path_case_map (state s)).
Proof.
  intros R api pcm entry Hparts.
  assert (Hkey : forall pcm', (resolve_entry pcm' entry).2
                              = Str.drop1 (entry_path_lower entry)).
  { intros pcm'. unfold resolve_entry. rewrite resolve_parts_key.
    rewrite fold_join_segments; [| done | by left].
    pose proof (split_nonempty Str.SLASH (Str.drop1 (entry_path_lower entry))) as Hne.
    pose proof (concat_split (Str.drop1 (entry_path_lower entry))) as Hc.
    destruct (Str.split Str.SLASH (Str.drop1 (entry_path_lower entry))); [done|].
    exact Hc. }
  split; [apply Hkey|].
  intros m current s ->. rewrite process_folder_case_map, Hkey. done.
Qed.

Lemma folder_casing_is_keyed_by_lower_path_witness :
  (resolve_entry ∅ photos_folder).2 = "photos"
  /\ path_case_map (state (process_remote_entry mock_api photos_folder ∅ fresh_sys).2)
     = <["photos" := "Photos"]> (path_case_map (state fresh_sys)).
Proof.
  assert (Hseg : Forall segment
                   (Str.split Str.SLASH (Str.drop1 (entry_path_lower photos_folder)))).
  { change (Forall segment ["photos"]).
    apply List.Forall_cons; [split; [discriminate | reflexivity] | apply List.Forall_nil]. }
  destruct (folder_casing_is_keyed_by_lower_path Mock mock_api ∅ photos_folder Hseg)
    as [H1 H2].
  split; [exact H1|]. exact (H2 _ ∅ fresh_sys eq_refl).
Defined.

(** [X13] With nothing in the case map,
    each segment of the path of an entry is replaced by the name of the
    entry itself: an entry [n] levels deep resolves to its own name
    repeated [n] times. *)
Theorem unmapped_entry_repeats_its_name :
  forall (entry : Metadata),
    segment (entry_name entry) ->
    (resolve_entry ∅ entry).1
    = String.concat "/"
        (replicate (length (Str.split Str.SLASH (Str.drop1 (entry_path_lower entry))))
                   (entry_name entry)).
Proof.
  intros entry Hname. unfold resolve_entry. rewrite resolve_parts_unmapped.
  pose proof (split_nonempty Str.SLASH (Str.drop1 (entry_path_lower entry))) as Hne.
  destruct (Str.split Str.SLASH (Str.drop1 (entry_path_lower entry))) as [|p l];
    [done|].
  rewrite fold_join_segments; [done | | by left].
  apply Forall_forall. intros x Hx. apply elem_of_replicate in Hx as [-> _]. done.
Qed.

Lemma unmapped_entry_repeats_its_name_witness :
  segment "img.png"
  /\ (resolve_entry ∅ (img_file "r1")).1 = "img.png/img.png".
Proof.
  assert (Hseg : segment (entry_name (img_file "r1")))
    by (split; [discriminate | reflexivity]).
  split; [exact Hseg|].
  exact (unmapped_entry_repeats_its_name (img_file "r1") Hseg).
Defined.

(** ** The two halves of the remote pass *)

Section NothingLost.

Context {R : Type}.
Variable api : DropboxAPI R.

Global Instance nothing_lost_preorder : PreOrder (nothing_lost (R:=R)).
Proof.
  split.
  - intros s. repeat split; eauto.
  - intros s1 s2 s3 (L12 & R12 & D12 & F12) (L23 & R23 & D23 & F23).
    split; [eauto|]. split; [eauto|]. split; [eauto|].
    intros k a b Hk. destruct (F12 k a b Hk) as (a' & b' & Hk'). eauto.
Qed.

Lemma nothing_lost_same (s s' : Sys R) :
  local_files (state s') = local_files (state s) ->
  remote_files (state s') = remote_files (state s) ->
  fs s' = fs s ->
  nothing_lost s s'.
Proof. intros Hl Hr Hf. unfold nothing_lost. rewrite Hl, Hr, Hf. repeat split; eauto. Qed.

Lemma nothing_lost_grown (s s' : Sys R) :
  local_files (state s') = local_files (state s) ->
  remote_files (state s') = remote_files (state s) ->
  fs s ⊆ fs s' ->
  nothing_lost s s'.
Proof.
  intros Hl Hr Hf. unfold nothing_lost. rewrite Hl, Hr.
  split; [eauto|]. split; [eauto|]. split.
  - intros k Hk. by eapply lookup_weaken.
  - intros k a b Hk. exists a, b. by eapply lookup_weaken.
Qed.

Lemma write_keeps_kinds (t t' : gmap string Node) (p : string) (size : N) (mtime : Z) :
  FS.write t p size mtime = Some t' ->
  (forall k, t !! k = Some Dir -> t' !! k = Some Dir)
  /\ (forall k a b, t !! k = Some (File a b) -> exists a' b', t' !! k = Some (File a' b')).
Proof.
  intros Hw. pose proof (write_inv _ _ _ _ _ Hw) as ->.
  unfold FS.write, FS.lookup in Hw.
  destruct (String.eqb p ".") eqn:Hdot; [done|].
  split.
  - intros k Hk. destruct (decide (k = FS.key p)) as [->|Hne].
    + by rewrite Hk in Hw.
    + by rewrite lookup_insert_ne.
  - intros k a b Hk. destruct (decide (k = FS.key p)) as [->|Hne].
    + rewrite lookup_insert_eq. eauto.
    + rewrite lookup_insert_ne by done. eauto.
Qed.

Lemma download_remote_loses_nothing dbx path because :
  keeps nothing_lost (download_remote api dbx path because).
Proof.
  intros s. rewrite download_remote_unfold. cbv zeta.
  set (s0 := (print [Str.TAB +:+ "Downloading: "; path; or_empty because] s).2).
  set (finish := bind _ _).
  assert (Hfin : forall s1 : Sys R, nothing_lost s1 (finish s1).2).
  { intros s1. subst finish. run.
    destruct (files_download_to_file _ _ _ _ _) as [[msg|d] n]; run;
      [by apply nothing_lost_same|].
    destruct (FS.write (fs s1) path (dl_size d) (dl_mtime d)) as [t2|] eqn:Hw; run;
      [| by apply nothing_lost_same].
    apply write_keeps_kinds in Hw as [Hd Hf].
    destruct (FS.getmtime t2 path); run.
    - split; [| split; [| split]];
        cbn [state fs local_files remote_files with_local_files with_remote_files];
        try done.
      + intros k Hk. destruct (decide (k = path)) as [->|Hne].
        * rewrite lookup_insert_eq. eauto.
        * by rewrite lookup_insert_ne.
      + intros k Hk. destruct (decide (k = path)) as [->|Hne].
        * rewrite lookup_insert_eq. eauto.
        * by rewrite lookup_insert_ne.
    - split; [| split; [| split]]; cbn [state fs]; done. }
  destruct (negb _ && negb _).
  - destruct (FS.makedirs (fs s) _) as [t1|] eqn:Hmk.
    + etransitivity; [| apply Hfin].
      apply nothing_lost_grown; [done | done |]. by apply makedirs_grows in Hmk.
    + by apply nothing_lost_same.
  - etransitivity; [| apply Hfin]. by apply nothing_lost_same.
Qed.

(** A folder entry: the casing is recorded, and the directory is made when
    nothing is at its path. *)
Lemma folder_entry_cases (m : FolderMetadata) current (s : Sys R) :
  let out := process_remote_entry api (IsFolder m) current s in
  local_files (state out.2) = local_files (state s)
  /\ remote_files (state out.2) = remote_files (state s)
  /\ fs s ⊆ fs out.2
  /\ calls out.2 = calls s
  /\ global_dbx out.2 = global_dbx s
  /\ (out.1 = Ret current \/ out.1 = Raise OSError).
Proof.
  cbv zeta. unfold process_remote_entry. run.
  destruct (resolve_entry _ _) as [entry_path path_key]. run.
  destruct (FS.exists_ (fs s) entry_path) eqn:Hex; cbn [negb]; run.
  { repeat split; try done. by left. }
  unfold make_local_dir. run. rewrite Hex. cbn [negb]. run.
  destruct (FS.makedirs (fs s) entry_path) as [t1|] eqn:Hmk; run.
  - repeat split; try done; [by apply makedirs_grows in Hmk | by left].
  - repeat split; try done. by right.
Qed.

Lemma process_remote_entry_loses_nothing entry current :
  keeps nothing_lost (process_remote_entry api entry current).
Proof.
  destruct entry as [m|m|name path_lower].
  - unfold process_remote_entry.
    apply keeps_bind; [apply _ | apply keeps_get_state; apply _ | intros st].
    destruct (resolve_entry _ _) as [entry_path path_key].
    apply keeps_bind; [apply _ | | intros _; apply keeps_ret; apply _].
    destruct (local_files st !! entry_path) as [known|];
      [destruct (negb _); [| apply keeps_ret; apply _] |];
      (apply keeps_bind;
       [apply _ | apply keeps_read_global_dbx; apply _
       | intros d; apply download_remote_loses_nothing]).
  - intros s. destruct (folder_entry_cases m current s) as (Hl & Hr & Hf & _).
    by apply nothing_lost_grown.
  - intros s. unfold process_remote_entry. run.
    destruct (resolve_entry _ _) as [entry_path path_key]. reflexivity.
Qed.

Lemma process_remote_entries_lose_nothing entries current :
  keeps nothing_lost (process_remote_entries api entries current).
Proof.
  revert current. induction entries as [|entry entries IH]; intros current; simpl.
  - apply keeps_ret; apply _.
  - apply keeps_bind; [apply _ | apply process_remote_entry_loses_nothing | apply IH].
Qed.

Lemma consume_pages_lose_nothing fuel dbx results current :
  keeps nothing_lost (consume_pages api fuel dbx results current).
Proof.
  revert results current. induction fuel as [|fuel IH]; intros results current.
  - apply keeps_out_of_fuel; apply _.
  - change (consume_pages api (S fuel) dbx results current)
      with (let! current' := process_remote_entries api (entries results) current in
            if negb (has_more results) then ret current'
            else
              let! results' := dbx_files_list_folder_continue api dbx
                                 (cursor results) in
              consume_pages api fuel dbx results' current').
    apply keeps_bind; [apply _ | apply process_remote_entries_lose_nothing |].
    intros current'. destruct (negb _); [apply keeps_ret; apply _|].
    apply keeps_bind; [apply _ | | intros ?; apply IH].
    intros s. unfold dbx_files_list_folder_continue, call_api.
    destruct (files_list_folder_continue _ _ _ _) as [r n]. by apply nothing_lost_same.
Qed.

Lemma consume_listing_loses_nothing fuel dbx :
  keeps nothing_lost (consume_listing api fuel dbx).
Proof.
  unfold consume_listing.
  apply keeps_bind; [apply _ | | intros ?; apply consume_pages_lose_nothing].
  intros s. unfold dbx_files_list_folder, call_api.
  destruct (files_list_folder _ _ _ _ _) as [r n]. by apply nothing_lost_same.
Qed.

End NothingLost.

(** [X14] While the remote pass lists and
    processes the entries, nothing is lost: what the two dictionaries knew
    they still know, every directory of the tree is still a directory and
    every regular file still a regular file.  When the listing raises, the
    pass raises the same, in the state the listing left: the deletion loop
    has not run. *)
Theorem listing_phase_loses_nothing :
  forall (R : Type) (api : DropboxAPI R)
         (key_order : gmap string Meta -> list string) (fuel : nat) (dbx : Dbx)
         (s : Sys R),
    let listed := consume_listing api fuel dbx s in
    nothing_lost s listed.2
    /\ forall e, listed.1 = Raise e ->
                 execute_delta api key_order fuel dbx s = (Raise e, listed.2).
Proof.
  intros R api key_order fuel dbx s listed. split.
  - apply consume_listing_loses_nothing.
  - intros e He. subst listed. unfold execute_delta, bind at 1.
    destruct (consume_listing api fuel dbx s) as [[c|e'|] s1]; cbn [fst snd] in *;
      congruence.
Qed.

Section DeletionLoop.

Context {R : Type}.

(** One turn of the deletion loop, whatever it does. *)
Lemma delete_if_gone_frame (current : gset string) (x : string) (s : Sys R) :
  let out := delete_if_gone current x s in
  calls out.2 = calls s
  /\ (forall path, path ∈ current ->
        local_files (state out.2) !! path = local_files (state s) !! path
        /\ remote_files (state out.2) !! path = remote_files (state s) !! path)
  /\ (forall p, is_Some (local_files (state out.2) !! p) ->
                is_Some (local_files (state s) !! p))
  /\ (forall k a b, fs s !! k = Some (File a b) ->
        fs out.2 !! k = Some (File a b)
        \/ (k = FS.key x /\ (x ∉ current) /\ is_Some (local_files (state s) !! x))).
Proof.
  cbv zeta. unfold delete_if_gone.
  destruct (decide (x ∈ current)) as [Hin|Hout]; [by (repeat split; eauto)|].
  run. destruct (local_files (state s) !! x) as [mx|] eqn:Hx;
    [| by (repeat split; eauto)].
  destruct (delete_local_frame x s) as (Hc & _ & _ & _ & Hq & _ & Hf).
  cbv zeta in Hc, Hq, Hf.
  split; [exact Hc|]. split; [| split].
  - intros path Hpath. apply Hq. intros ->. done.
  - intros p Hp. destruct (decide (p = x)) as [->|Hne]; [by rewrite Hx|].
    destruct (Hq p Hne) as [<- _]. done.
  - intros k a b Hk. destruct (decide (k = FS.key x)) as [->|Hne].
    + right. split; [done|]. split; [done|]. by eexists.
    + left. by apply Hf.
Qed.

Lemma for_each_cons_run {A : Type} (body : A -> M R unit) (x : A) (l : list A)
  (s : Sys R) :
  for_each (x :: l) body s
  = match body x s with
    | (Ret _, sx) => for_each l body sx
    | (Raise e, sx) => (Raise e, sx)
    | (OutOfFuel, sx) => (OutOfFuel, sx)
    end.
Proof. reflexivity. Qed.

(** The deletion loop, whatever it does. *)
Lemma delete_gone_loop_frame (current : gset string) (l : list string) (s : Sys R) :
  let out := for_each l (delete_if_gone current) s in
  calls out.2 = calls s
  /\ (forall path, path ∈ current ->
        local_files (state out.2) !! path = local_files (state s) !! path
        /\ remote_files (state out.2) !! path = remote_files (state s) !! path)
  /\ (forall p, is_Some (local_files (state out.2) !! p) ->
                is_Some (local_files (state s) !! p))
  /\ (forall k a b, fs s !! k = Some (File a b) ->
        fs out.2 !! k = Some (File a b)
        \/ exists path, path ∈ l /\ k = FS.key path /\ (path ∉ current)
             /\ is_Some (local_files (state s) !! path)).
Proof.
  cbv zeta. revert s. induction l as [|x l IH]; intros s.
  - cbn [for_each]. repeat split; eauto.
  - rewrite for_each_cons_run.
    destruct (delete_if_gone_frame current x s) as (Hc & Hq & Hmono & Hf).
    cbv zeta in Hc, Hq, Hmono, Hf.
    assert (Hstep : forall k a b, fs s !! k = Some (File a b) ->
              fs (delete_if_gone current x s).2 !! k = Some (File a b)
              \/ exists path, path ∈ x :: l /\ k = FS.key path /\ (path ∉ current)
                   /\ is_Some (local_files (state s) !! path)).
    { intros k a b Hk. destruct (Hf k a b Hk) as [? | (-> & ? & ?)]; [by left|].
      right. exists x. split; [by left | done]. }
    destruct (delete_if_gone current x s) as [[[]|e|] sx]; cbn [fst snd] in *;
      [| by (split; [exact Hc | split; [exact Hq | split; [exact Hmono | exact Hstep]]]) ..].
    destruct (IH sx) as (Hc' & Hq' & Hmono' & Hf').
    split; [congruence|]. split; [| split].
    + intros path Hpath. destruct (Hq path Hpath) as [<- <-]. by apply Hq'.
    + intros p Hp. by apply Hmono, Hmono'.
    + intros k a b Hk. destruct (Hstep k a b Hk) as [Hkeep | Hgone]; [| by right].
      destruct (Hf' k a b Hkeep) as [? | (path & Hin & -> & Hnot & Hsome)];
        [by left|].
      right. exists path. split; [by right|]. split; [done|]. split; [done|].
      by apply Hmono.
Qed.

End DeletionLoop.

(** [X15] Once the listing has been consumed, the
    rest of the remote pass makes no call, keeps the records of every path
    that the listing delivered, and takes a regular file out of the tree
    only if it is the file of a path that both dictionaries knew and that
    the listing did not deliver, whether the pass then returns or not. *)
Theorem deletion_loop_is_safe :
  forall (R : Type) (api : DropboxAPI R)
         (key_order : gmap string Meta -> list string) (fuel : nat) (dbx : Dbx)
         (s s1 : Sys R) (current : gset string),
    lists_the_keys key_order ->
    consume_listing api fuel dbx s = (Ret current, s1) ->
    let out := execute_delta api key_order fuel dbx s in
    calls out.2 = calls s1
    /\ (forall path, path ∈ current ->
          local_files (state out.2) !! path = local_files (state s1) !! path
          /\ remote_files (state out.2) !! path = remote_files (state s1) !! path)
    /\ (forall k a b, fs s1 !! k = Some (File a b) ->
          fs out.2 !! k = Some (File a b)
          \/ exists path, k = FS.key path /\ (path ∉ current)
               /\ is_Some (remote_files (state s1) !! path)
               /\ is_Some (local_files (state s1) !! path)).
Proof.
  intros R api key_order fuel dbx s s1 current Horder Hlist out. subst out.
  rewrite (execute_delta_after_listing api key_order fuel dbx s s1 current Hlist).
  destruct (delete_gone_loop_frame current (key_order (remote_files (state s1))) s1)
    as (Hc & Hq & _ & Hf).
  cbv zeta in Hc, Hq, Hf.
  split; [exact Hc|]. split; [exact Hq|].
  intros k a b Hk. destruct (Hf k a b Hk) as [? | (path & Hin & -> & Hnot & Hsome)];
    [by left|].
  right. exists path. split; [done|]. split; [done|]. split; [| done].
  rewrite (Horder (remote_files (state s1))) in Hin. by apply elem_of_keys.
Qed.

Lemma deletion_loop_is_safe_witness :
  let s1 := (consume_listing mock_api 5 main_dbx shrunk_sys).2 in
  let out := execute_delta mock_api keys 5 main_dbx shrunk_sys in
  calls out.2 = calls s1
  /\ fs out.2 !! "keep.txt" = Some (File 5 10)
  /\ local_files (state out.2) !! "keep.txt" = Some keep_meta.
Proof.
  intros s1 out.
  assert (Hlist : consume_listing mock_api 5 main_dbx shrunk_sys
                  = (Ret ({[ "keep.txt" ]} ∪ ∅), s1))
    by (vm_compute; reflexivity).
  assert (Horder : lists_the_keys keys) by (intros d; reflexivity).
  destruct (deletion_loop_is_safe Mock mock_api keys 5 main_dbx shrunk_sys s1
              ({[ "keep.txt" ]} ∪ ∅) Horder Hlist) as (Hc & Hq & _).
  split; [exact Hc|].
  split; [vm_compute; reflexivity|].
  destruct (Hq "keep.txt") as [Hl _].
  - apply elem_of_union. left. by apply elem_of_singleton.
  - fold out in Hl. rewrite Hl. vm_compute. reflexivity.
Defined.

(** ** The two dictionaries as one *)

Section Mirror.

Context {R : Type}.
Variable api : DropboxAPI R.

Global Instance stays_mirrored_preorder : PreOrder (stays_mirrored (R:=R)).
Proof.
  split.
  - intros s H. exact H.
  - intros s1 s2 s3 H12 H23 H1. by apply H23, H12.
Qed.

Lemma stays_mirrored_same (s s' : Sys R) :
  local_files (state s') = local_files (state s) ->
  remote_files (state s') = remote_files (state s) ->
  stays_mirrored s s'.
Proof. unfold stays_mirrored, mirrored. by intros -> ->. Qed.

Lemma mirrored_keys_known (s : Sys R) : mirrored s -> remote_keys_known s.
Proof. intros Hm k. by rewrite Hm. Qed.

Lemma upload_stays_mirrored dbx path because :
  keeps stays_mirrored (upload api dbx path because).
Proof.
  intros s. destruct (upload api dbx path because s) as [r s'] eqn:Hrun.
  apply upload_inv in Hrun as [_ Hst]. cbn [snd].
  destruct r as [[]|e|]; [| by (apply stays_mirrored_same; rewrite Hst) ..].
  unfold stays_mirrored, mirrored.
  destruct Hst as (meta & _ & -> & _).
  cbn [local_files remote_files with_local_files with_remote_files].
  by intros ->.
Qed.

Lemma delete_remote_stays_mirrored dbx path :
  keeps stays_mirrored (delete_remote api dbx path).
Proof.
  intros s Hm. unfold mirrored in *.
  assert (Hr : remote_files (state s) !! path = local_files (state s) !! path)
    by (by rewrite Hm).
  unfold delete_remote. run.
  destruct (files_delete _ _ _ _) as [[msg|[]] n]; run; [done|].
  destruct (local_files (state s) !! path) as [ml|] eqn:Hl; run; [| done].
  rewrite Hr. run. by rewrite Hm.
Qed.

Lemma check_local_stays_mirrored dbx :
  keeps stays_mirrored (check_local api dbx).
Proof.
  unfold check_local.
  keeps_split; try (intros ?; apply stays_mirrored_same; reflexivity).
  - apply keeps_for_each; [apply _|]. intros x _.
    unfold check_state.
    keeps_split; try (intros ?; apply stays_mirrored_same; reflexivity);
      apply upload_stays_mirrored.
  - apply keeps_for_each; [apply _|]. intros x _.
    keeps_split. apply delete_remote_stays_mirrored.
Qed.

Lemma check_local_no_key_error dbx (s : Sys R) k :
  mirrored s -> (check_local api dbx s).1 <> Raise (KeyError k).
Proof.
  intros Hm. apply mirrored_keys_known in Hm.
  rewrite check_local_unfold. cbv zeta.
  destruct (for_each _ (check_state api dbx) _) as [ra sa] eqn:Ea.
  apply check_states_inv in Ea as (_ & _ & Hk).
  destruct (Hk Hm) as [_ Hne].
  destruct ra as [[]|e|]; cbn [fst].
  - destruct (for_each _ _ _) as [r2 s2] eqn:Hloop.
    apply delete_loop_inv in Hloop as (-> & _). intros [=].
  - intros [= ->]. apply (Hne _ eq_refl). by exists k.
  - intros [=].
Qed.

Lemma download_remote_stays_mirrored dbx path because :
  keeps stays_mirrored (download_remote api dbx path because).
Proof.
  intros s Hm. unfold mirrored in *.
  destruct (download_remote_frame R api dbx path because s)
    as (_ & _ & Hfail & _ & _ & Hq & _).
  cbv zeta in Hfail, Hq.
  destruct (download_remote api dbx path because s) as [r s'] eqn:Hrun.
  cbn [fst snd] in *.
  destruct r as [[]|e|]; [| by rewrite Hfail ..].
  apply download_remote_inv in Hrun as (meta & _ & _ & _ & _ & Hl & Hr & _).
  apply map_eq. intros q. destruct (decide (q = path)) as [->|Hne].
  - by rewrite Hl, Hr.
  - destruct (Hq q Hne) as [-> ->]. by rewrite Hm.
Qed.

Lemma process_remote_entry_stays_mirrored entry current :
  keeps stays_mirrored (process_remote_entry api entry current).
Proof.
  destruct entry as [m|m|name path_lower].
  - unfold process_remote_entry.
    apply keeps_bind; [apply _ | apply keeps_get_state; apply _ | intros st].
    destruct (resolve_entry _ _) as [entry_path path_key].
    apply keeps_bind; [apply _ | | intros _; apply keeps_ret; apply _].
    destruct (local_files st !! entry_path) as [known|];
      [destruct (negb _); [| apply keeps_ret; apply _] |];
      (apply keeps_bind;
       [apply _ | apply keeps_read_global_dbx; apply _
       | intros d; apply download_remote_stays_mirrored]).
  - intros s. destruct (folder_entry_cases api m current s) as (Hl & Hr & _).
    by apply stays_mirrored_same.
  - intros s. unfold process_remote_entry. run.
    destruct (resolve_entry _ _) as [entry_path path_key]. reflexivity.
Qed.

Lemma process_remote_entries_stay_mirrored entries current :
  keeps stays_mirrored (process_remote_entries api entries current).
Proof.
  revert current. induction entries as [|entry entries IH]; intros current; simpl.
  - apply keeps_ret; apply _.
  - apply keeps_bind; [apply _ | apply process_remote_entry_stays_mirrored | apply IH].
Qed.

Lemma consume_pages_stay_mirrored fuel dbx results current :
  keeps stays_mirrored (consume_pages api fuel dbx results current).
Proof.
  revert results current. induction fuel as [|fuel IH]; intros results current.
  - apply keeps_out_of_fuel; apply _.
  - change (consume_pages api (S fuel) dbx results current)
      with (let! current' := process_remote_entries api (entries results) current in
            if negb (has_more results) then ret current'
            else
              let! results' := dbx_files_list_folder_continue api dbx
                                 (cursor results) in
              consume_pages api fuel dbx results' current').
    apply keeps_bind; [apply _ | apply process_remote_entries_stay_mirrored |].
    intros current'. destruct (negb _); [apply keeps_ret; apply _|].
    apply keeps_bind; [apply _ | | intros ?; apply IH].
    intros s. unfold dbx_files_list_folder_continue, call_api.
    destruct (files_list_folder_continue _ _ _ _) as [r n]. by apply stays_mirrored_same.
Qed.

Lemma consume_listing_stays_mirrored fuel dbx :
  keeps stays_mirrored (consume_listing api fuel dbx).
Proof.
  unfold consume_listing.
  apply keeps_bind; [apply _ | | intros ?; apply consume_pages_stay_mirrored].
  intros s. unfold dbx_files_list_folder, call_api.
  destruct (files_list_folder _ _ _ _ _) as [r n]. by apply stays_mirrored_same.
Qed.

(** What the listing can raise. *)
Lemma name_error_not_key name : not_key_error (NameError name).
Proof. intros [k [=]]. Qed.

Lemma download_remote_no_key_error dbx path because :
  raises_only not_key_error (download_remote api dbx path because).
Proof.
  unfold download_remote. ro_split;
    try apply api_error_not_key; try apply os_error_not_key.
Qed.

Lemma process_remote_entry_no_key_error entry current :
  raises_only not_key_error (process_remote_entry api entry current).
Proof.
  destruct entry as [m|m|name path_lower].
  - unfold process_remote_entry. ro_split;
      try apply name_error_not_key; apply download_remote_no_key_error.
  - intros s e He.
    destruct (folder_entry_cases api m current s) as (_ & _ & _ & _ & _ & [Hr | Hr]);
      rewrite Hr in He; [discriminate|].
    injection He as <-. apply os_error_not_key.
  - unfold process_remote_entry. ro_split.
Qed.

Lemma process_remote_entries_no_key_error entries current :
  raises_only not_key_error (process_remote_entries api entries current).
Proof.
  revert current. induction entries as [|entry entries IH]; intros current; simpl.
  - apply ro_ret.
  - apply ro_bind; [apply process_remote_entry_no_key_error | apply IH].
Qed.

Lemma consume_pages_no_key_error fuel dbx results current :
  raises_only not_key_error (consume_pages api fuel dbx results current).
Proof.
  revert results current. induction fuel as [|fuel IH]; intros results current.
  - apply ro_out_of_fuel.
  - change (consume_pages api (S fuel) dbx results current)
      with (let! current' := process_remote_entries api (entries results) current in
            if negb (has_more results) then ret current'
            else
              let! results' := dbx_files_list_folder_continue api dbx
                                 (cursor results) in
              consume_pages api fuel dbx results' current').
    apply ro_bind; [apply process_remote_entries_no_key_error|].
    intros current'. destruct (negb _); [apply ro_ret|].
    apply ro_bind; [| intros ?; apply IH].
    apply ro_call_api. apply api_error_not_key.
Qed.

Lemma consume_listing_no_key_error fuel dbx :
  raises_only not_key_error (consume_listing api fuel dbx).
Proof.
  unfold consume_listing.
  apply ro_bind; [| intros ?; apply consume_pages_no_key_error].
  apply ro_call_api. apply api_error_not_key.
Qed.

End Mirror.

Section MirrorDeletion.

Context {R : Type}.

(** [delete_local] on a path that [local_files] holds, from equal
    dictionaries. *)
Lemma delete_local_mirrored (path : string) (s : Sys R) :
  mirrored s ->
  is_Some (local_files (state s) !! path) ->
  mirrored (delete_local path s).2
  /\ ((delete_local path s).1 = Ret tt \/ (delete_local path s).1 = Raise OSError).
Proof.
  unfold mirrored. intros Hm [ml Hl].
  assert (Hr : remote_files (state s) !! path = Some ml) by (by rewrite <- Hm).
  unfold delete_local. run. cbv zeta.
  destruct (FS.remove (fs s) path) as [t1|]; run; rewrite Hl; run; rewrite Hr; run.
  all: match goal with
       | |- context [FS.exists_ ?t ?d] =>
           destruct (FS.exists_ t d); run;
           [ destruct (FS.listdir t d) as [[|x l]|]; run;
             [ destruct (FS.rmdir t d) as [t2|]; run | | ] | ]
       end.
  all: split; [by rewrite Hm | eauto].
Qed.

Lemma delete_gone_loop_mirrored (current : gset string) (l : list string)
  (s : Sys R) :
  mirrored s ->
  mirrored (for_each l (delete_if_gone current) s).2
  /\ forall k, (for_each l (delete_if_gone current) s).1 <> Raise (KeyError k).
Proof.
  revert s. induction l as [|x l IH]; intros s Hm; [done|].
  rewrite for_each_cons_run.
  assert (Hstep : mirrored (delete_if_gone current x s).2
                  /\ ((delete_if_gone current x s).1 = Ret tt
                      \/ (delete_if_gone current x s).1 = Raise OSError)).
  { unfold delete_if_gone. destruct (decide (x ∈ current)); [by eauto|].
    run. destruct (local_files (state s) !! x) as [mx|] eqn:Hx; [| by eauto].
    apply delete_local_mirrored; [done | by rewrite Hx]. }
  destruct (delete_if_gone current x s) as [[[]|e|] sx]; cbn [fst snd] in *.
  - apply IH. apply Hstep.
  - split; [apply Hstep|]. intros k [= ->]. by destruct Hstep as [_ [? | ?]].
  - split; [apply Hstep | done].
Qed.

End MirrorDeletion.

(** [X16] The two dictionaries are kept as one and
    the same mapping: when they are equal before the local pass or the
    remote pass, as they are in a new state, they are equal after it,
    whatever the pass did and however it ended, and neither pass raises
    [KeyError]. *)
Theorem dictionaries_stay_equal :
  forall (R : Type) (api : DropboxAPI R)
         (key_order : gmap string Meta -> list string) (dbx : Dbx) (fuel : nat)
         (s : Sys R),
    local_files (state s) = remote_files (state s) ->
    (local_files (state (check_local api dbx s).2)
     = remote_files (state (check_local api dbx s).2)
     /\ forall k, (check_local api dbx s).1 <> Raise (KeyError k))
    /\ (local_files (state (execute_delta api key_order fuel dbx s).2)
        = remote_files (state (execute_delta api key_order fuel dbx s).2)
        /\ forall k, (execute_delta api key_order fuel dbx s).1 <> Raise (KeyError k)).
Proof.
  intros R api key_order dbx fuel s Hm. split.
  - split; [by apply (check_local_stays_mirrored api dbx s)|].
    intros k. by apply check_local_no_key_error.
  - pose proof (consume_listing_stays_mirrored api fuel dbx s Hm) as Hm1.
    pose proof (consume_listing_no_key_error api fuel dbx s) as Hne.
    destruct (consume_listing api fuel dbx s) as [[current|e|] s1] eqn:Hlist;
      cbn [fst snd] in *.
    + rewrite (execute_delta_after_listing api key_order fuel dbx s s1 current Hlist).
      by apply delete_gone_loop_mirrored.
    + assert (Hex : execute_delta api key_order fuel dbx s = (Raise e, s1))
        by (unfold execute_delta, bind; by rewrite Hlist).
      rewrite Hex. split; [exact Hm1|]. intros k [= ->].
      apply (Hne _ eq_refl). by exists k.
    + assert (Hex : execute_delta api key_order fuel dbx s = (OutOfFuel, s1))
        by (unfold execute_delta, bind; by rewrite Hlist).
      rewrite Hex. split; [exact Hm1 | done].
Qed.

Lemma dictionaries_stay_equal_witness :
  local_files (state shrunk_sys) = remote_files (state shrunk_sys)
  /\ local_files (state (execute_delta mock_api keys 5 main_dbx shrunk_sys).2)
     = remote_files (state (execute_delta mock_api keys 5 main_dbx shrunk_sys).2)
  /\ local_files (state (check_local mock_api main_dbx shrunk_sys).2)
     = remote_files (state (check_local mock_api main_dbx shrunk_sys).2).
Proof.
  split; [reflexivity|].
  destruct (dictionaries_stay_equal Mock mock_api keys main_dbx 5 shrunk_sys eq_refl)
    as [[H1 _] [H2 _]].
  split; [exact H2 | exact H1].
Defined.

(** ** Entries met again *)

Section Settled.

Context {R : Type}.
Variable api : DropboxAPI R.

(** A file entry whose path is known at the revision of the entry. *)
Lemma known_entry_is_skipped (m : FileMetadata) (current : gset string)
  (s : Sys R) (known : Meta) :
  local_files (state s) !! (resolve_entry (path_case_map (state s)) (IsFile m)).1
  = Some known ->
  rev known = f_rev m ->
  process_remote_entry api (IsFile m) current s
  = (Ret ({[ (resolve_entry (path_case_map (state s)) (IsFile m)).1 ]} ∪ current), s).
Proof.
  intros Hl Hrev. unfold process_remote_entry. run.
  destruct (resolve_entry _ _) as [entry_path path_key]. cbn [fst] in *.
  run. rewrite Hl. rewrite Hrev, String.eqb_refl. reflexivity.
Qed.

(** A file entry that has been processed is known at the revision that
    the download returned, or was known at the revision of the entry. *)
Lemma processed_entry_is_known (m : FileMetadata) (current c : gset string)
  (s s1 : Sys R) :
  process_remote_entry api (IsFile m) current s = (Ret c, s1) ->
  let p := (resolve_entry (path_case_map (state s)) (IsFile m)).1 in
  path_case_map (state s1) = path_case_map (state s)
  /\ exists known,
      local_files (state s1) !! p = Some known
      /\ (rev known = f_rev m
          \/ exists d n dl n',
               files_download_to_file api d p (Path.join "/" p) n = (inr dl, n')
               /\ rev known = f_rev (dl_meta dl)).
Proof.
  intros Hrun p. subst p. unfold process_remote_entry in Hrun. run_in Hrun.
  destruct (resolve_entry _ _) as [entry_path path_key]. cbn [fst]. run_in Hrun.
  assert (Hdl : forall d because sd,
             download_remote api d entry_path because s = (Ret tt, sd) ->
             path_case_map (state sd) = path_case_map (state s)
             /\ exists known,
                 local_files (state sd) !! entry_path = Some known
                 /\ (rev known = f_rev m
                     \/ exists d n dl n',
                          files_download_to_file api d entry_path
                            (Path.join "/" entry_path) n = (inr dl, n')
                          /\ rev known = f_rev (dl_meta dl))).
  { intros d because sd Hd.
    destruct (download_remote_frame R api d entry_path because s)
      as (_ & _ & _ & Hp & _).
    cbv zeta in Hp. rewrite Hd in Hp. cbn [snd] in Hp. split; [exact Hp|].
    apply download_remote_inv in Hd as (meta & dl & n & n' & Hcall & Hl & _ & Hrev & _).
    exists meta. split; [exact Hl|]. right. by exists d, n, dl, n'. }
  destruct (local_files (state s) !! entry_path) as [known|] eqn:Hl.
  - destruct (String.eqb_spec (f_rev m) (rev known)) as [Heq|Hne]; cbn [negb] in Hrun.
    + run_in Hrun. injection Hrun as _ <-. split; [done|].
      exists known. split; [exact Hl | by left].
    + destruct (global_dbx s) as [d|]; run_in Hrun; [| discriminate].
      destruct (download_remote api d entry_path _ s) as [[[]|e|] sd] eqn:Hd;
        run_in Hrun; try discriminate.
      injection Hrun as _ <-. by eapply Hdl.
  - destruct (global_dbx s) as [d|]; run_in Hrun; [| discriminate].
    destruct (download_remote api d entry_path _ s) as [[[]|e|] sd] eqn:Hd;
      run_in Hrun; try discriminate.
    injection Hrun as _ <-. by eapply Hdl.
Qed.

End Settled.

(** [X17] A file entry that has been processed
    is not downloaded again: processing it a second time makes no call and
    changes nothing, it only puts the path into the set of current paths,
    provided that the revision which the service returns with a download
    of the path is the revision of the entry. *)
Theorem processing_an_entry_twice :
  forall (R : Type) (api : DropboxAPI R) (m : FileMetadata)
         (current current' c : gset string) (s s1 : Sys R),
    let p := (resolve_entry (path_case_map (state s)) (IsFile m)).1 in
    (forall d n dl n',
        files_download_to_file api d p (Path.join "/" p) n = (inr dl, n') ->
        f_rev (dl_meta dl) = f_rev m) ->
    process_remote_entry api (IsFile m) current s = (Ret c, s1) ->
    process_remote_entry api (IsFile m) current' s1 = (Ret ({[ p ]} ∪ current'), s1).
Proof.
  intros R api m current current' c s s1 p Hrev Hrun. subst p.
  apply processed_entry_is_known in Hrun as (Hp & known & Hl & Hknown).
  cbv zeta in Hl, Hknown. rewrite <- Hp in *.
  apply known_entry_is_skipped with known; [exact Hl|].
  destruct Hknown as [? | (d & n & dl & n' & Hcall & ->)]; [done|].
  by eapply Hrev.
Qed.

Lemma processing_an_entry_twice_witness :
  let m := {| f_name := "notes.txt"; f_path_lower := "/notes.txt";
              f_rev := "remote-rev" |} in
  let s1 := (process_remote_entry mock_api (IsFile m) ∅ fresh_sys).2 in
  new_calls fresh_sys s1 = [CDownload main_dbx "notes.txt" "/notes.txt"]
  /\ process_remote_entry mock_api (IsFile m) ∅ s1
     = (Ret ({[ "notes.txt" ]} ∪ ∅), s1).
Proof.
  intros m s1. split; [vm_compute; reflexivity|].
  assert (Hrun : process_remote_entry mock_api (IsFile m) ∅ fresh_sys
                 = (Ret ({[ "notes.txt" ]} ∪ ∅), s1))
    by (vm_compute; reflexivity).
  refine (processing_an_entry_twice Mock mock_api m ∅ ∅ _ fresh_sys s1 _ Hrun).
  intros d n dl n' [= <-]. reflexivity.
Defined.

(** [X18] What one pass has transferred the
    other leaves alone.  Right after [download_remote] has returned,
    [check_state] does nothing for the path, on any client.  Right after
    [upload] has returned, the path has a record, and a file entry that
    resolves to the path and carries the revision of that record is not
    downloaded. *)
Theorem transferred_files_are_settled :
  forall (R : Type) (api : DropboxAPI R) (dbx : Dbx) (path : string)
         (because : option string) (s s' : Sys R),
    (download_remote api dbx path because s = (Ret tt, s') ->
     forall dbx', check_state api dbx' path s' = (Ret tt, s'))
    /\ (upload api dbx path because s = (Ret tt, s') ->
        exists meta,
          local_files (state s') !! path = Some meta
          /\ forall (m : FileMetadata) (current : gset string),
               (resolve_entry (path_case_map (state s')) (IsFile m)).1 = path ->
               f_rev m = rev meta ->
               process_remote_entry api (IsFile m) current s'
               = (Ret ({[ path ]} ∪ current), s')).
Proof.
  intros R api dbx path because s s'. split.
  - intros Hrun dbx'. apply check_state_settled.
    apply download_remote_inv in Hrun as (meta & _ & _ & _ & _ & Hl & Hr & _ & Ht & _).
    exists meta, (modified meta). split; [done|]. split; [by eexists|].
    split; [done | lia].
  - intros Hrun. apply upload_inv in Hrun as [_ (meta & _ & Hst & _)].
    exists meta. split.
    + rewrite Hst. cbn [local_files with_local_files with_remote_files].
      apply lookup_insert_eq.
    + intros m current Hres Hrev. rewrite <- Hres.
      apply known_entry_is_skipped with meta; [| done].
      rewrite Hres, Hst. cbn [local_files with_local_files with_remote_files].
      apply lookup_insert_eq.
Qed.

Lemma transferred_files_are_settled_witness :
  let s' := (download_remote mock_api main_dbx "Photos/img.png" None fresh_sys).2 in
  let s2 := (upload mock_api main_dbx "notes.txt" None notes_sys).2 in
  check_state mock_api other_dbx "Photos/img.png" s' = (Ret tt, s')
  /\ exists meta,
      local_files (state s2) !! "notes.txt" = Some meta
      /\ forall (m : FileMetadata) (current : gset string),
           (resolve_entry (path_case_map (state s2)) (IsFile m)).1 = "notes.txt" ->
           f_rev m = rev meta ->
           process_remote_entry mock_api (IsFile m) current s2
           = (Ret ({[ "notes.txt" ]} ∪ current), s2).
Proof.
  intros s' s2.
  assert (Hrun : download_remote mock_api main_dbx "Photos/img.png" None fresh_sys
                 = (Ret tt, s')) by (vm_compute; reflexivity).
  assert (Hup : upload mock_api main_dbx "notes.txt" None notes_sys = (Ret tt, s2))
    by (vm_compute; reflexivity).
  split.
  - exact (proj1 (transferred_files_are_settled Mock mock_api main_dbx
                    "Photos/img.png" None fresh_sys s') Hrun other_dbx).
  - exact (proj2 (transferred_files_are_settled Mock mock_api main_dbx
                    "notes.txt" None notes_sys s2) Hup).
Defined.

(** ** The report of [delete_remote]; one client for both passes *)

(** [X19] The bare [except] of
    [delete_remote] also catches the [KeyError] of its own [del]
    statements.  When [files_delete] has returned and [local_files] does
    not hold the path, nothing changes in the state; when only
    [remote_files] does not hold it, the local record is dropped and the
    remote dictionary kept.  In both cases the method returns and prints
    that the remote deletion failed, although the service has deleted the
    file. *)
Theorem delete_remote_reports_failure_after_success :
  forall (R : Type) (api : DropboxAPI R) (dbx : Dbx) (path : string) (s : Sys R)
         (n : R),
    files_delete api dbx ("/" +:+ path) (net s) = (inr tt, n) ->
    let out := delete_remote api dbx path s in
    let report :=
      (stdout s +:+ printed [Str.TAB +:+ "Deleting On Dropbox: "; path;
                             " -- File Deleted Locally"])
        +:+ printed [Str.TAB +:+ "!Remote Delete Failed!"] in
    (local_files (state s) !! path = None ->
     out.1 = Ret tt /\ net out.2 = n /\ state out.2 = state s
     /\ stdout out.2 = report)
    /\ (is_Some (local_files (state s) !! path) ->
        remote_files (state s) !! path = None ->
        out.1 = Ret tt /\ net out.2 = n
        /\ local_files (state out.2) = delete path (local_files (state s))
        /\ remote_files (state out.2) = remote_files (state s)
        /\ stdout out.2 = report).
Proof.
  intros R api dbx path s n Hcall out report. subst out report.
  unfold delete_remote, printed. run. rewrite Hcall. run. split.
  - intros Hl. rewrite Hl. run. done.
  - intros [ml Hl] Hr. rewrite Hl. run. rewrite Hr. run. done.
Qed.

Lemma delete_remote_reports_failure_after_success_witness :
  let s := start_sys init_state ∅ (mock_net [] false) (Some main_dbx) in
  (delete_remote mock_api main_dbx "gone.txt" s).1 = Ret tt
  /\ state (delete_remote mock_api main_dbx "gone.txt" s).2 = init_state
  /\ calls (delete_remote mock_api main_dbx "gone.txt" s).2
     = [CDelete main_dbx "/gone.txt"].
Proof.
  intros s.
  destruct (delete_remote_reports_failure_after_success Mock mock_api main_dbx
              "gone.txt" s (net s) eq_refl) as [H _].
  destruct (H eq_refl) as (H1 & _ & H3 & _).
  split; [exact H1|]. split; [exact H3|]. reflexivity.
Defined.

Section OneClient.

Context {R : Type}.
Variable api : DropboxAPI R.

Lemma check_remote_via_global key_order fuel dbx :
  keeps (via_global dbx) (check_remote api key_order fuel dbx).
Proof.
  unfold check_remote.
  apply keeps_bind; [apply _ | | intros _; apply execute_delta_via_global].
  intros s. by apply via_global_quiet.
Qed.

End OneClient.

(** [X20] In the main block the client that
    is passed to the two passes is the one bound to the module-level name
    [dbx].  In that situation every call that [check_remote] and
    [check_local] make is a call on this one client. *)
Theorem bound_client_serves_both_passes :
  forall (R : Type) (api : DropboxAPI R)
         (key_order : gmap string Meta -> list string) (fuel : nat) (dbx : Dbx)
         (s : Sys R),
    global_dbx s = Some dbx ->
    Forall (fun c => call_client c = dbx)
           (new_calls s (check_remote api key_order fuel dbx s).2)
    /\ Forall (fun c => call_client c = dbx)
              (new_calls s (check_local api dbx s).2).
Proof.
  intros R api key_order fuel dbx s Hg. split.
  - destruct (check_remote_via_global api key_order fuel dbx s) as [_ He].
    apply emits_new_calls in He as [_ He]. rewrite Hg in He.
    eapply Forall_impl; [exact He|].
    intros c Hc. destruct c; cbn [remote_pass_call call_client] in *;
      first [done | by injection Hc].
  - destruct (emits_new_calls _ _ _ (check_local_on_client api dbx s)) as [_ He].
    eapply Forall_impl; [exact He|]. by intros c [Hc _].
Qed.

Lemma bound_client_serves_both_passes_witness :
  global_dbx bound_sys = Some main_dbx
  /\ new_calls bound_sys (check_remote mock_api keys 5 main_dbx bound_sys).2
     = [CListFolder main_dbx "" true; CDownload main_dbx "notes.txt" "/notes.txt"]
  /\ Forall (fun c => call_client c = main_dbx)
            (new_calls bound_sys (check_remote mock_api keys 5 main_dbx bound_sys).2).
Proof.
  split; [reflexivity|]. split; [vm_compute; reflexivity|].
  exact (proj1 (bound_client_serves_both_passes Mock mock_api keys 5 main_dbx bound_sys
                  eq_refl)).
Defined.
